(** * PawShionista: the entity store, the live-selling cart and the order views

    A shallow embedding of the business logic of the point-of-sale
    dashboard: [services/dbService.ts] (the entity store), the live-selling
    view (cart, checkout, edit and delete of a customer's session orders)
    and [views/Orders.tsx] (propagation of a grouped edit, audit log).

    Conventions of the embedding.
    - Counters ([quantity], [stock], [itemCount], [orderCount],
      [vipTickets]) are integers and are modelled in [Z]; amounts of money
      are JavaScript numbers and are modelled as rationals [Q], so the
      theorems speak about the formulas of the code, not about rounding.
    - [localStorage] is the record [Store]: a key that was never written
      is [None] and the accessor falls back on the initial data, as
      [DBService.get] does.  Every read parses a fresh copy, so the store
      has value semantics.
    - The asynchronous mirror writes to the remote tables do not feed
      back into the local state and are left out.
    - A React handler is a function from the state of its last render to
      the next state; [alert] calls are recorded in the field [alerts]. *)

From Stdlib Require Import ZArith QArith Qminmax String Ascii List Bool Lia Lqa.
From stdpp Require Import base tactics option list strings pretty sorting.

Local Open Scope Z_scope.

(** ** [types.ts] *)

Inductive PaymentStatus := UNPAID | PARTIAL | PAID.
Inductive ShippingStatus := PENDING | SHIPPED | RTS | CANCELLED.
Inductive PaymentMethod := GCASH | MAYA | TIKTOK | GOTYME | SEABANK | BPI | CASH.
Inductive BaleStatus := Ordered | Arrived | OnSale | SoldOut.

#[global] Instance PaymentStatus_eq_dec : EqDecision PaymentStatus.
Proof. solve_decision. Defined.
#[global] Instance ShippingStatus_eq_dec : EqDecision ShippingStatus.
Proof. solve_decision. Defined.
#[global] Instance PaymentMethod_eq_dec : EqDecision PaymentMethod.
Proof. solve_decision. Defined.
#[global] Instance BaleStatus_eq_dec : EqDecision BaleStatus.
Proof. solve_decision. Defined.

Module Product.
Record t := mk {
  id : string;
  name : string;
  brand : string;
  baleBatch : string;
  costPrice : Q;
  sellingPrice : Q;
  stock : Z
}.
Definition set_stock (f : Z → Z) (p : t) : t :=
  mk (id p) (name p) (brand p) (baleBatch p) (costPrice p) (sellingPrice p)
     (f (stock p)).
End Product.

Module Customer.
Record t := mk {
  id : string;
  username : string;
  isVIP : bool;
  vipTickets : option Z;  (* absent on legacy rows *)
  isBlacklisted : bool;
  totalSpent : Q;
  orderCount : Z
}.
Definition set_vipTickets (v : option Z) (c : t) : t :=
  mk (id c) (username c) (isVIP c) v (isBlacklisted c) (totalSpent c)
     (orderCount c).
Definition add_stats (qty : Z) (price : Q) (c : t) : t :=
  mk (id c) (username c) (isVIP c) (vipTickets c) (isBlacklisted c)
     (totalSpent c + price)%Q (orderCount c + qty).
End Customer.

Module Order.
Record t := mk {
  id : string;
  sessionId : string;
  customerId : string;
  customerUsername : string;
  productId : string;
  productName : string;
  quantity : Z;
  totalPrice : Q;
  isFreebie : bool;
  paymentStatus : PaymentStatus;
  shippingStatus : ShippingStatus;
  paymentMethod : option PaymentMethod;
  referenceNumber : option string;
  amountPaid : Q;
  createdAt : Z;
  usedVipTicket : option bool;
  logs : option (list string)
}.
End Order.

Module LiveSession.
Record t := mk {
  id : string;
  name : string;
  date : string;
  totalSales : Q;
  totalOrders : Z;
  isOpen : bool
}.
End LiveSession.

Module Bale.
Record t := mk {
  id : string;
  name : string;
  status : BaleStatus;
  cost : Q;
  itemCount : Z
}.
Definition set_status (s : BaleStatus) (b : t) : t :=
  mk (id b) (name b) s (cost b) (itemCount b).
End Bale.

(** ** [db/mockData.ts] *)

Definition INITIAL_PRODUCTS : list Product.t :=
  [ Product.mk "p1" "Cotton Ribbon Dress (Blue)" "Belif" "B001" 45 150 12;
    Product.mk "p2" "Summer Floral Shirt" "HD Crown" "B001" 35 120 8;
    Product.mk "p3" "Puffy Sleeved Knit" "Korean Bale" "B002" 60 200 15;
    Product.mk "p4" "Waterproof Rain Coat" "Handpick" "B001" 85 280 5;
    Product.mk "p5" "Lace Pajamas (Pink)" "Belif" "B002" 50 180 10 ].

Definition INITIAL_BALES : list Bale.t :=
  [ Bale.mk "B001" "Spring/Summer Selection 2024" OnSale 12000 300;
    Bale.mk "B002" "Premium Korean Knit Bale" Arrived 15000 250 ].

Definition INITIAL_CUSTOMERS : list Customer.t :=
  [ Customer.mk "c1" "dogmom_ph" true (Some 2) false 2450 8;
    Customer.mk "c2" "pawlover_jen" false (Some 0) false 890 3;
    Customer.mk "c3" "joy_reserver_123" false (Some 0) true 0 0 ].

(** ** [services/dbService.ts] *)

(** The keys of [localStorage] the order logic reads and writes. *)
Record Store := mkStore {
  PRODUCTS : option (list Product.t);
  ORDERS : option (list Order.t);
  CUSTOMERS : option (list Customer.t);
  BALES : option (list Bale.t)
}.

Definition emptyStore : Store := mkStore None None None None.

Definition getProducts (st : Store) : list Product.t :=
  default INITIAL_PRODUCTS (PRODUCTS st).
Definition getOrders (st : Store) : list Order.t :=
  default [] (ORDERS st).
Definition getCustomers (st : Store) : list Customer.t :=
  default INITIAL_CUSTOMERS (CUSTOMERS st).
Definition getBales (st : Store) : list Bale.t :=
  default INITIAL_BALES (BALES st).

Definition setProducts (l : list Product.t) (st : Store) : Store :=
  mkStore (Some l) (ORDERS st) (CUSTOMERS st) (BALES st).
Definition setOrders (l : list Order.t) (st : Store) : Store :=
  mkStore (PRODUCTS st) (Some l) (CUSTOMERS st) (BALES st).
Definition setCustomers (l : list Customer.t) (st : Store) : Store :=
  mkStore (PRODUCTS st) (ORDERS st) (Some l) (BALES st).
Definition setBales (l : list Bale.t) (st : Store) : Store :=
  mkStore (PRODUCTS st) (ORDERS st) (CUSTOMERS st) (Some l).

(** A nullable string used as a condition: [null] and [''] are falsy. *)
Definition truthy (s : option string) : option string :=
  match s with
  | Some x => if decide (x = "") then None else Some x
  | None => None
  end.

Definition updateProduct (product : Product.t) (st : Store) : Store :=
  let products := getProducts st in
  match list_find (λ p, Product.id p = Product.id product) products with
  | Some (index, _) => setProducts (<[index := product]> products) st
  | None => setProducts (products ++ [product]) st
  end.

Definition updateCustomer (customer : Customer.t) (st : Store) : Store :=
  let customers := getCustomers st in
  match list_find (λ c, Customer.id c = Customer.id customer) customers with
  | Some (index, _) => setCustomers (<[index := customer]> customers) st
  | None => setCustomers (customers ++ [customer]) st
  end.

(** [now] is the value of [Date.now()]. *)
Definition getOrCreateCustomer (now : N) (username : string) (st : Store)
  : Customer.t * Store :=
  let customers := getCustomers st in
  let '(customer, st1) :=
    match list_find (λ c, Customer.username c = username) customers with
    | Some (_, c) => (c, st)
    | None =>
        let c := Customer.mk ("c_" +:+ pretty now) username false (Some 0)
                             false 0 0 in
        (c, setCustomers (customers ++ [c]) st)
    end in
  match Customer.vipTickets customer with
  | None =>
      let c := Customer.set_vipTickets (Some 0) customer in
      (c, updateCustomer c st1)
  | Some _ => (customer, st1)
  end.

Definition updateBale (bale : Bale.t) (st : Store) : Store :=
  let bales := getBales st in
  match list_find (λ b, Bale.id b = Bale.id bale) bales with
  | Some (index, _) => setBales (<[index := bale]> bales) st
  | None => setBales (bales ++ [bale]) st
  end.

(** The ids of the products of a bale, and the quantity sold on them by the
    orders that are not cancelled (the [soldCount] of [refreshBaleStatus]). *)
Definition baleProductIds (baleId : string) (products : list Product.t)
  : list string :=
  Product.id <$> filter (λ p, Product.baleBatch p = baleId) products.

Definition baleOrders (baleId : string) (st : Store) : list Order.t :=
  filter (λ o, Order.productId o ∈ baleProductIds baleId (getProducts st)
               ∧ Order.shippingStatus o ≠ CANCELLED)
         (getOrders st).

Definition soldCount (baleId : string) (st : Store) : Z :=
  foldl (λ sum o, sum + Order.quantity o) 0 (baleOrders baleId st).

(** The status chosen by [refreshBaleStatus] for a bale of the given
    status and size once [sold] items are sold. *)
Definition newStatus (status : BaleStatus) (itemCount sold : Z) : BaleStatus :=
  if decide (sold >= itemCount ∧ itemCount > 0) then SoldOut
  else if decide (sold > 0 ∧ sold < itemCount) then
    if decide (status = Ordered ∨ status = Arrived ∨ status = SoldOut)
    then OnSale else status
  else status.

Definition refreshBaleStatus (baleId : string) (st : Store) : Store :=
  let bales := getBales st in
  match list_find (λ b, Bale.id b = baleId) bales with
  | None => st
  | Some (index, bale) =>
      let new := newStatus (Bale.status bale) (Bale.itemCount bale)
                           (soldCount baleId st) in
      if decide (new ≠ Bale.status bale)
      then setBales (alter (Bale.set_status new) index bales) st
      else st
  end.

Definition refreshIfSet (baleIdToUpdate : option string) (st : Store) : Store :=
  match truthy baleIdToUpdate with
  | Some baleId => refreshBaleStatus baleId st
  | None => st
  end.

Definition addOrder (now : N) (order : Order.t) (st : Store) : Store :=
  let st1 := setOrders (getOrders st ++ [order]) st in
  let products := getProducts st1 in
  let found := list_find (λ p, Product.id p = Order.productId order) products in
  let '(st2, baleIdToUpdate) :=
    if negb (Order.isFreebie order) then
      match found with
      | Some (pIndex, p) =>
          (setProducts
             (alter (Product.set_stock (λ s, s - Order.quantity order))
                    pIndex products) st1,
           Some (Product.baleBatch p))
      | None => (st1, None)
      end
    else (st1, (λ ip, Product.baleBatch ip.2) <$> found) in
  let '(customer, st3) :=
    getOrCreateCustomer now (Order.customerUsername order) st2 in
  let st4 :=
    updateCustomer
      (Customer.add_stats (Order.quantity order) (Order.totalPrice order)
                          customer) st3 in
  refreshIfSet baleIdToUpdate st4.

Definition isCancelledOrRTS (s : ShippingStatus) : bool :=
  bool_decide (s = CANCELLED ∨ s = RTS).

Definition updateOrder (order : Order.t) (st : Store) : Store :=
  let orders := getOrders st in
  match list_find (λ o, Order.id o = Order.id order) orders with
  | None => st
  | Some (index, oldOrder) =>
      let '(st1, baleIdToUpdate) :=
        if isCancelledOrRTS (Order.shippingStatus order)
           && negb (isCancelledOrRTS (Order.shippingStatus oldOrder)) then
          let products := getProducts st in
          match list_find (λ p, Product.id p = Order.productId order)
                          products with
          | Some (pIndex, p) =>
              (setProducts
                 (alter (Product.set_stock (λ s, s + Order.quantity order))
                        pIndex products) st,
               Some (Product.baleBatch p))
          | None => (st, None)
          end
        else (st, None) in
      let st2 := setOrders (<[index := order]> orders) st1 in
      refreshIfSet baleIdToUpdate st2
  end.

Definition deleteOrder (id : string) (st : Store) : Store :=
  let orders := getOrders st in
  let baleIdToUpdate :=
    match list_find (λ o, Order.id o = id) orders with
    | Some (_, order) =>
        match list_find (λ p, Product.id p = Order.productId order)
                        (getProducts st) with
        | Some (_, product) => Some (Product.baleBatch product)
        | None => None
        end
    | None => None
    end in
  let newOrders := filter (λ o, Order.id o ≠ id) orders in
  refreshIfSet baleIdToUpdate (setOrders newOrders st).

(** ** The live-selling view (cart and checkout) *)

(** [`${n}`] for a number [n]: the host's number formatting, which the
    handlers use to build product ids and log lines. *)
Class NumberToString := numberToString : Q → string.

#[global] Instance Qeq_decision (a b : Q) : Decision (a == b)%Q := Qeq_dec a b.
#[global] Instance Qle_decision (a b : Q) : Decision (a <= b)%Q.
Proof. destruct (Qlt_le_dec b a); [right; by apply Qlt_not_le | by left]. Defined.
#[global] Instance Qlt_decision (a b : Q) : Decision (a < b)%Q.
Proof. destruct (Qlt_le_dec a b); [by left | right; by apply Qle_not_lt]. Defined.

Module CartItem.
Record t := mk {
  id : string;
  price : Q;
  quantity : Z;
  isFreebie : bool;
  baleId : string
}.
Definition set_quantity (q : Z) (i : t) : t :=
  mk (id i) (price i) q (isFreebie i) (baleId i).
End CartItem.

Inductive DiscountType := NONE | FIXED | PERCENTAGE.

#[global] Instance DiscountType_eq_dec : EqDecision DiscountType.
Proof. solve_decision. Defined.

Module OosModalData.
Record t := mk { name : string; total : Z; sold : Z }.
End OosModalData.

Module BaleStats.
Record t := mk {
  remaining : Z;
  total : Z;
  sold : Z;
  revenue : Q;
  targetPrice : Q
}.
End BaleStats.

(** The component state of [LiveSell] that its handlers read and write. *)
Record LiveSell := mkLiveSell {
  session : option LiveSession.t;
  username : string;
  transactionNo : string;
  selectedBaleId : string;
  cart : list CartItem.t;
  useVipTicket : bool;
  vipDiscount : Q;
  vipDiscountType : DiscountType;
  txPaymentMethod : option PaymentMethod;   (* [None] is [''] *)
  txAmountPaid : option Q;                  (* [None] is [''] *)
  customPrice : string;
  feedback : option string;
  oosModalData : option OosModalData.t;
  showSessionOrders : bool;
  dataTick : Z;
  allCustomers : list Customer.t;
  alerts : list string
}.

Definition setCart (c : list CartItem.t) (ui : LiveSell) : LiveSell :=
  mkLiveSell (session ui) (username ui) (transactionNo ui) (selectedBaleId ui)
    c (useVipTicket ui) (vipDiscount ui) (vipDiscountType ui)
    (txPaymentMethod ui) (txAmountPaid ui) (customPrice ui) (feedback ui)
    (oosModalData ui) (showSessionOrders ui) (dataTick ui) (allCustomers ui)
    (alerts ui).
Definition setUsername (u : string) (ui : LiveSell) : LiveSell :=
  mkLiveSell (session ui) u (transactionNo ui) (selectedBaleId ui)
    (cart ui) (useVipTicket ui) (vipDiscount ui) (vipDiscountType ui)
    (txPaymentMethod ui) (txAmountPaid ui) (customPrice ui) (feedback ui)
    (oosModalData ui) (showSessionOrders ui) (dataTick ui) (allCustomers ui)
    (alerts ui).
Definition setTransactionNo (t : string) (ui : LiveSell) : LiveSell :=
  mkLiveSell (session ui) (username ui) t (selectedBaleId ui)
    (cart ui) (useVipTicket ui) (vipDiscount ui) (vipDiscountType ui)
    (txPaymentMethod ui) (txAmountPaid ui) (customPrice ui) (feedback ui)
    (oosModalData ui) (showSessionOrders ui) (dataTick ui) (allCustomers ui)
    (alerts ui).
Definition setUseVipTicket (b : bool) (ui : LiveSell) : LiveSell :=
  mkLiveSell (session ui) (username ui) (transactionNo ui) (selectedBaleId ui)
    (cart ui) b (vipDiscount ui) (vipDiscountType ui)
    (txPaymentMethod ui) (txAmountPaid ui) (customPrice ui) (feedback ui)
    (oosModalData ui) (showSessionOrders ui) (dataTick ui) (allCustomers ui)
    (alerts ui).
Definition setVipDiscount (d : Q) (ui : LiveSell) : LiveSell :=
  mkLiveSell (session ui) (username ui) (transactionNo ui) (selectedBaleId ui)
    (cart ui) (useVipTicket ui) d (vipDiscountType ui)
    (txPaymentMethod ui) (txAmountPaid ui) (customPrice ui) (feedback ui)
    (oosModalData ui) (showSessionOrders ui) (dataTick ui) (allCustomers ui)
    (alerts ui).
Definition setVipDiscountType (t : DiscountType) (ui : LiveSell) : LiveSell :=
  mkLiveSell (session ui) (username ui) (transactionNo ui) (selectedBaleId ui)
    (cart ui) (useVipTicket ui) (vipDiscount ui) t
    (txPaymentMethod ui) (txAmountPaid ui) (customPrice ui) (feedback ui)
    (oosModalData ui) (showSessionOrders ui) (dataTick ui) (allCustomers ui)
    (alerts ui).
Definition setTxPaymentMethod (m : option PaymentMethod) (ui : LiveSell)
  : LiveSell :=
  mkLiveSell (session ui) (username ui) (transactionNo ui) (selectedBaleId ui)
    (cart ui) (useVipTicket ui) (vipDiscount ui) (vipDiscountType ui)
    m (txAmountPaid ui) (customPrice ui) (feedback ui)
    (oosModalData ui) (showSessionOrders ui) (dataTick ui) (allCustomers ui)
    (alerts ui).
Definition setTxAmountPaid (a : option Q) (ui : LiveSell) : LiveSell :=
  mkLiveSell (session ui) (username ui) (transactionNo ui) (selectedBaleId ui)
    (cart ui) (useVipTicket ui) (vipDiscount ui) (vipDiscountType ui)
    (txPaymentMethod ui) a (customPrice ui) (feedback ui)
    (oosModalData ui) (showSessionOrders ui) (dataTick ui) (allCustomers ui)
    (alerts ui).
Definition setCustomPrice (p : string) (ui : LiveSell) : LiveSell :=
  mkLiveSell (session ui) (username ui) (transactionNo ui) (selectedBaleId ui)
    (cart ui) (useVipTicket ui) (vipDiscount ui) (vipDiscountType ui)
    (txPaymentMethod ui) (txAmountPaid ui) p (feedback ui)
    (oosModalData ui) (showSessionOrders ui) (dataTick ui) (allCustomers ui)
    (alerts ui).
Definition setFeedback (f : option string) (ui : LiveSell) : LiveSell :=
  mkLiveSell (session ui) (username ui) (transactionNo ui) (selectedBaleId ui)
    (cart ui) (useVipTicket ui) (vipDiscount ui) (vipDiscountType ui)
    (txPaymentMethod ui) (txAmountPaid ui) (customPrice ui) f
    (oosModalData ui) (showSessionOrders ui) (dataTick ui) (allCustomers ui)
    (alerts ui).
Definition setOosModalData (d : option OosModalData.t) (ui : LiveSell)
  : LiveSell :=
  mkLiveSell (session ui) (username ui) (transactionNo ui) (selectedBaleId ui)
    (cart ui) (useVipTicket ui) (vipDiscount ui) (vipDiscountType ui)
    (txPaymentMethod ui) (txAmountPaid ui) (customPrice ui) (feedback ui)
    d (showSessionOrders ui) (dataTick ui) (allCustomers ui)
    (alerts ui).
Definition setShowSessionOrders (b : bool) (ui : LiveSell) : LiveSell :=
  mkLiveSell (session ui) (username ui) (transactionNo ui) (selectedBaleId ui)
    (cart ui) (useVipTicket ui) (vipDiscount ui) (vipDiscountType ui)
    (txPaymentMethod ui) (txAmountPaid ui) (customPrice ui) (feedback ui)
    (oosModalData ui) b (dataTick ui) (allCustomers ui)
    (alerts ui).
Definition setDataTick (f : Z → Z) (ui : LiveSell) : LiveSell :=
  mkLiveSell (session ui) (username ui) (transactionNo ui) (selectedBaleId ui)
    (cart ui) (useVipTicket ui) (vipDiscount ui) (vipDiscountType ui)
    (txPaymentMethod ui) (txAmountPaid ui) (customPrice ui) (feedback ui)
    (oosModalData ui) (showSessionOrders ui) (f (dataTick ui))
    (allCustomers ui) (alerts ui).
Definition setAllCustomers (l : list Customer.t) (ui : LiveSell) : LiveSell :=
  mkLiveSell (session ui) (username ui) (transactionNo ui) (selectedBaleId ui)
    (cart ui) (useVipTicket ui) (vipDiscount ui) (vipDiscountType ui)
    (txPaymentMethod ui) (txAmountPaid ui) (customPrice ui) (feedback ui)
    (oosModalData ui) (showSessionOrders ui) (dataTick ui) l
    (alerts ui).
Definition alert (msg : string) (ui : LiveSell) : LiveSell :=
  mkLiveSell (session ui) (username ui) (transactionNo ui) (selectedBaleId ui)
    (cart ui) (useVipTicket ui) (vipDiscount ui) (vipDiscountType ui)
    (txPaymentMethod ui) (txAmountPaid ui) (customPrice ui) (feedback ui)
    (oosModalData ui) (showSessionOrders ui) (dataTick ui) (allCustomers ui)
    (alerts ui ++ [msg]).

Definition currentCustomer (ui : LiveSell) : option Customer.t :=
  snd <$> list_find (λ c, Customer.username c = username ui) (allCustomers ui).

Definition isRestricted (ui : LiveSell) : bool :=
  match currentCustomer ui with
  | Some c => Customer.isBlacklisted c
  | None => false
  end.

Definition lineTotal (item : CartItem.t) : Q :=
  (CartItem.price item * inject_Z (CartItem.quantity item))%Q.

Definition cartTotal (cart : list CartItem.t) : Q :=
  foldl (λ sum item, sum + lineTotal item)%Q 0%Q cart.

Definition totalItemsInCart (cart : list CartItem.t) : Z :=
  foldl (λ sum item, sum + CartItem.quantity item) 0 cart.

Definition calculatedDiscount (ui : LiveSell) : Q :=
  if negb (useVipTicket ui) then 0%Q
  else match vipDiscountType ui with
       | NONE => 0%Q
       | FIXED => Qmin (vipDiscount ui) (cartTotal (cart ui))
       | PERCENTAGE =>
           (cartTotal (cart ui) * (Qmin (vipDiscount ui) 100 / 100))%Q
       end.

Definition finalTotal (ui : LiveSell) : Q :=
  Qmax 0 (cartTotal (cart ui) - calculatedDiscount ui).

Definition getBaleStats (st : Store) (cart : list CartItem.t) (baleId : string)
  : BaleStats.t :=
  match list_find (λ b, Bale.id b = baleId) (getBales st) with
  | None => BaleStats.mk 0 0 0 0 0
  | Some (_, bale) =>
      let orders := baleOrders baleId st in
      let soldInDb := foldl (λ sum o, sum + Order.quantity o) 0 orders in
      let revenueInDb := foldl (λ sum o, sum + Order.totalPrice o)%Q 0%Q orders in
      let inCart := filter (λ item, CartItem.baleId item = baleId) cart in
      let inCartCount := foldl (λ sum item, sum + CartItem.quantity item) 0 inCart in
      let inCartRevenue := foldl (λ sum item, sum + lineTotal item)%Q 0%Q inCart in
      let totalSoldActual := soldInDb + inCartCount in
      let totalRevenueActual := (revenueInDb + inCartRevenue)%Q in
      let remaining := Z.max 0 (Bale.itemCount bale - totalSoldActual) in
      let remainingToRecover := Qmax 0 (Bale.cost bale - totalRevenueActual) in
      let targetPrice :=
        if decide (remaining > 0)
        then (remainingToRecover / inject_Z remaining)%Q else 0%Q in
      BaleStats.mk remaining (Bale.itemCount bale) totalSoldActual
                   totalRevenueActual targetPrice
  end.

(** The state update passed to [setCart] by [addToCart]; [rnd] is the text
    of [Math.random()]. *)
Definition addLine (now : N) (rnd : string) (price : Q) (isFreebie : bool)
    (baleId : string) (prev : list CartItem.t) : list CartItem.t :=
  match list_find (λ i, (CartItem.price i == price)%Q
                        ∧ CartItem.isFreebie i = isFreebie
                        ∧ CartItem.baleId i = baleId) prev with
  | Some (idx, existingItem) =>
      CartItem.set_quantity (CartItem.quantity existingItem + 1) existingItem
        :: delete idx prev
  | None =>
      CartItem.mk ("c_" +:+ pretty now +:+ "_" +:+ rnd) price 1 isFreebie baleId
        :: prev
  end.

Definition addToCart (now : N) (rnd : string) (inputPrice : Q)
    (isFreebie : bool) (st : Store) (ui : LiveSell) : LiveSell :=
  if isRestricted ui then setFeedback (Some "🚫 Action Blocked") ui
  else if decide (selectedBaleId ui = "") then
    setFeedback (Some "Select Batch First") ui
  else
    let stats := getBaleStats st (cart ui) (selectedBaleId ui) in
    if decide (BaleStats.remaining stats <= 0) then
      let name :=
        match list_find (λ b, Bale.id b = selectedBaleId ui) (getBales st) with
        | Some (_, b) => Bale.name b
        | None => ""
        end in
      setOosModalData
        (Some (OosModalData.mk name (BaleStats.total stats) (BaleStats.sold stats)))
        ui
    else
      let price := if isFreebie then 0%Q else inputPrice in
      setCustomPrice ""
        (setCart (addLine now rnd price isFreebie (selectedBaleId ui) (cart ui)) ui).

(** The body of [cart.forEach((item, idx) => ...)] in [handleCheckout]:
    the payment status and the amount paid of one cart line. *)
Definition itemPayment (isGlobalPaid : bool) (globalPaidInput finalTotal : Q)
    (isFreebie : bool) (finalItemTotal : Q) : PaymentStatus * Q :=
  if isFreebie then (PAID, 0%Q)
  else if isGlobalPaid then
    let itemAmountPaid :=
      if decide (0 < finalTotal)%Q
      then (finalItemTotal / finalTotal * globalPaidInput)%Q else 0%Q in
    if decide (finalItemTotal - (1 # 100) <= itemAmountPaid)%Q
    then (PAID, itemAmountPaid)
    else if decide (0 < itemAmountPaid)%Q then (PARTIAL, itemAmountPaid)
    else (UNPAID, itemAmountPaid)
  else (UNPAID, 0%Q).

Section Checkout.
Context `{NumberToString}.

Definition deterministicProdId (item : CartItem.t) : string :=
  "live_" +:+ CartItem.baleId item +:+ "_"
    +:+ numberToString (CartItem.price item)
    +:+ (if CartItem.isFreebie item then "_f" else "").

(** The values computed for one cart line by the body of
[cart.forEach((item, idx) => ...)] in [handleCheckout]. *)
Definition discountRatio (ui : LiveSell) : Q :=
  if useVipTicket ui && bool_decide (0 < cartTotal (cart ui))%Q
  then (calculatedDiscount ui / cartTotal (cart ui))%Q else 0%Q.

Definition discounted (ui : LiveSell) (item : CartItem.t) : bool :=
  useVipTicket ui && bool_decide (0 < calculatedDiscount ui)%Q
  && negb (CartItem.isFreebie item).

Definition finalItemPrice (ui : LiveSell) (item : CartItem.t) : Q :=
  if discounted ui item
  then (CartItem.price item * (1 - discountRatio ui))%Q
  else CartItem.price item.

Definition finalItemTotal (ui : LiveSell) (item : CartItem.t) : Q :=
  if discounted ui item
  then (finalItemPrice ui item * inject_Z (CartItem.quantity item))%Q
  else lineTotal item.

Definition checkoutProduct (ui : LiveSell) (item : CartItem.t) : Product.t :=
  Product.mk (deterministicProdId item)
    (if CartItem.isFreebie item then "Gift"
     else "Live Item ₱" +:+ numberToString (CartItem.price item))
    "Live" (CartItem.baleId item) 0 (finalItemPrice ui item) 0.

Definition checkoutOrder (now : N) (ui : LiveSell) (sessionId customerId : string)
    (idx : nat) (item : CartItem.t) : Order.t :=
  let globalPaidInput := default 0%Q (txAmountPaid ui) in
  let isGlobalPaid := bool_decide (is_Some (txPaymentMethod ui)) in
  let payment :=
    itemPayment isGlobalPaid globalPaidInput (finalTotal ui)
                (CartItem.isFreebie item) (finalItemTotal ui item) in
  Order.mk ("o_" +:+ pretty now +:+ "_" +:+ pretty idx)
    sessionId customerId (username ui)
    (deterministicProdId item) (Product.name (checkoutProduct ui item))
    (CartItem.quantity item) (finalItemTotal ui item) (CartItem.isFreebie item)
    payment.1 PENDING (txPaymentMethod ui)
    (truthy (Some (transactionNo ui))) payment.2 (Z.of_N now)
    (Some (useVipTicket ui)) None.

Definition checkoutItem (now : N) (ui : LiveSell) (sessionId : string)
    (customer : Customer.t) (st : Store) (idx : nat) (item : CartItem.t)
  : Store :=
  addOrder now (checkoutOrder now ui sessionId (Customer.id customer) idx item)
           (updateProduct (checkoutProduct ui item) st).

(** The resets at the end of [handleCheckout]. *)
Definition clearTransaction (ui : LiveSell) : LiveSell :=
  setFeedback (Some ("Recorded for @" +:+ username ui +:+ "!"))
    (setDataTick (λ prev, prev + 1)
      (setTxAmountPaid None
        (setTxPaymentMethod None
          (setVipDiscountType NONE
            (setVipDiscount 0
              (setUseVipTicket false
                (setTransactionNo ""
                  (setUsername "" (setCart [] ui))))))))).
End Checkout.

Section Handlers.
Context `{NumberToString}.

Definition handleCheckout (now : N) (st : Store) (ui : LiveSell)
  : LiveSell * Store :=
  match session ui with
  | None => (alert "Username required!" ui, st)
  | Some session =>
    if decide (username ui = "") then (alert "Username required!" ui, st)
    else
      let '(customer, st1) := getOrCreateCustomer now (username ui) st in
      if Customer.isBlacklisted customer then
        (setFeedback (Some "🚫 Customer Blacklisted") ui, st1)
      else if useVipTicket ui
              && bool_decide (vipDiscountType ui = FIXED)
              && bool_decide (cartTotal (cart ui) < vipDiscount ui)%Q then
        (alert "Discount cannot be larger than the total amount." ui, st1)
      else
        let commit (customer : Customer.t) (ui1 : LiveSell) (st2 : Store) :=
          (clearTransaction ui1,
           foldl (λ s ii, checkoutItem now ui (LiveSession.id session)
                                       customer s ii.1 ii.2)
                 st2 (imap pair (cart ui))) in
        if useVipTicket ui then
          match Customer.vipTickets customer with
          | Some t =>
              if decide (t > 0) then
                let customer' :=
                  Customer.set_vipTickets (Some (t - 1)) customer in
                let st2 := updateCustomer customer' st1 in
                commit customer' (setAllCustomers (getCustomers st2) ui) st2
              else
                (setUseVipTicket false
                   (alert "Error: Customer has no VIP tickets left!" ui), st1)
          | None =>
              (setUseVipTicket false
                 (alert "Error: Customer has no VIP tickets left!" ui), st1)
          end
        else commit customer ui st1
  end.

(** The cart line rebuilt from a stored order by [handleEditCustomer]. *)
Definition restoredItem (products : list Product.t) (order : Order.t)
  : CartItem.t :=
  let baleId :=
    match list_find (λ p, Product.id p = Order.productId order) products with
    | Some (_, product) => Product.baleBatch product
    | None => ""
    end in
  let unitPrice :=
    if decide (Order.quantity order > 0)
    then (Order.totalPrice order / inject_Z (Order.quantity order))%Q
    else 0%Q in
  CartItem.mk ("c_restored_" +:+ Order.id order) unitPrice
              (Order.quantity order) (Order.isFreebie order) baleId.

Definition sessionOrdersOf (sessionId targetUsername : string) (st : Store)
  : list Order.t :=
  filter (λ o, Order.sessionId o = sessionId
               ∧ Order.customerUsername o = targetUsername) (getOrders st).

Definition someUsedVipTicket (l : list Order.t) : bool :=
  bool_decide (Exists (λ o, Order.usedVipTicket o = Some true) l).

Definition deleteOrders (l : list Order.t) (st : Store) : Store :=
  foldl (λ s o, deleteOrder (Order.id o) s) st l.

(** [cust.vipTickets += 1; db.updateCustomer(cust)] on the customer
    returned by [getOrCreateCustomer], whose ticket count is never
    absent. *)
Definition returnTicket (now : N) (targetUsername : string) (st : Store)
  : Store :=
  let '(cust, st1) := getOrCreateCustomer now targetUsername st in
  updateCustomer
    (Customer.set_vipTickets ((λ t, t + 1) <$> Customer.vipTickets cust) cust)
    st1.

(** [confirmed] is the answer of the [confirm] dialog, asked only when
    the cart holds unsaved lines of another customer. *)
Definition handleEditCustomer (now : N) (confirmed : bool)
    (targetUsername : string) (st : Store) (ui : LiveSell)
  : LiveSell * Store :=
  match session ui with
  | None => (ui, st)
  | Some session =>
    let sessionOrders :=
      sessionOrdersOf (LiveSession.id session) targetUsername st in
    match sessionOrders with
    | [] => (ui, st)
    | first :: _ =>
      if bool_decide (cart ui ≠ [])
         && bool_decide (username ui ≠ targetUsername)
         && negb confirmed
      then (ui, st)
      else
        let products := getProducts st in
        let newCartItems := restoredItem products <$> sessionOrders in
        let ticketUsed := someUsedVipTicket sessionOrders in
        let st1 := deleteOrders sessionOrders st in
        let '(ui1, st2) :=
          if ticketUsed then
            let st2 := returnTicket now targetUsername st1 in
            (setAllCustomers (getCustomers st2) ui, st2)
          else (ui, st1) in
        (setFeedback (Some ("Editing @" +:+ targetUsername))
          (setShowSessionOrders false
            (setDataTick (λ prev, prev + 1)
              (setTxAmountPaid None
                (setTxPaymentMethod None
                  (setVipDiscountType NONE
                    (setVipDiscount 0
                      (setUseVipTicket ticketUsed
                        (setTransactionNo
                           (default "" (truthy (Order.referenceNumber first)))
                          (setUsername targetUsername
                            (setCart newCartItems ui1)))))))))),
         st2)
    end
  end.

(** ** [SessionOrdersModal] *)

Record SessionOrdersModal := mkSessionOrdersModal {
  editingUser : option string;
  deleteTargetUser : option string;
  tick : Z
}.

Definition handleManualDelete (now : N) (sessionId : string) (st : Store)
    (m : SessionOrdersModal) : SessionOrdersModal * Store :=
  match truthy (deleteTargetUser m) with
  | None => (m, st)
  | Some target =>
      let userOrders := sessionOrdersOf sessionId target st in
      let st1 := deleteOrders userOrders st in
      let st2 :=
        if someUsedVipTicket userOrders
        then returnTicket now target st1 else st1 in
      (mkSessionOrdersModal (editingUser m) None (tick m + 1), st2)
  end.
End Handlers.

(** ** [views/Orders.tsx]: propagation of a grouped edit *)

(** [GroupedOrder extends Order]: the aggregate shown for one customer of a
    session, with its constituent rows. *)
Record GroupedOrder := mkGroupedOrder {
  base : Order.t;  (* the inherited [Order] fields *)
  ids : list string;
  items : list Order.t;
  isCustomerVIP : option bool
}.

Definition newItemPaidAmount (updated : GroupedOrder) (original : Order.t) : Q :=
  if decide (Order.paymentStatus (base updated) = PAID) then
    Order.totalPrice original
  else if decide (Order.paymentStatus (base updated) = UNPAID) then 0%Q
  else
    let totalGroupPrice :=
      foldl (λ sum i, sum + Order.totalPrice i)%Q 0%Q (items updated) in
    let inputAmount := Order.amountPaid (base updated) in
    let ratio :=
      if decide (0 < totalGroupPrice)%Q
      then (inputAmount / totalGroupPrice)%Q else 0%Q in
    (Order.totalPrice original * ratio)%Q.

(** The row handed to [db.updateOrder] for one constituent. *)
Definition updatedRow (updated : GroupedOrder) (newLog : option string)
    (original : Order.t) : Order.t :=
  let updatedLogs :=
    (default [] (Order.logs original)
       ++ match truthy newLog with Some l => [l] | None => [] end)%list in
  Order.mk (Order.id original) (Order.sessionId original)
    (Order.customerId original) (Order.customerUsername original)
    (Order.productId original) (Order.productName original)
    (Order.quantity original) (Order.totalPrice original)
    (Order.isFreebie original)
    (Order.paymentStatus (base updated))
    (Order.shippingStatus (base updated))
    (Order.paymentMethod (base updated))
    (Order.referenceNumber (base updated))
    (newItemPaidAmount updated original)
    (Order.createdAt original) (Order.usedVipTicket original)
    (Some updatedLogs).

Definition handleUpdate (updated : GroupedOrder) (newLog : option string)
    (st : Store) : Store :=
  foldl (λ s id,
           match list_find (λ o, Order.id o = id) (getOrders s) with
           | Some (_, original) => updateOrder (updatedRow updated newLog original) s
           | None => s
           end)
        st (ids updated).

(** ** [views/Orders.tsx]: the audit log *)

Module Str.
(** [startsWith p s]: the text [p] is found at the start of [s]. *)
Fixpoint startsWith (p s : string) : bool :=
  match p, s with
  | EmptyString, _ => true
  | String a p', String b s' => Ascii.eqb a b && startsWith p' s'
  | String _ _, EmptyString => false
  end.

(** [occursIn p s]: [p] is found somewhere in [s]. *)
Fixpoint occursIn (p s : string) : bool :=
  startsWith p s
  || match s with
     | EmptyString => false
     | String _ s' => occursIn p s'
     end.

(** [endsWith p s]: [s] ends with [p]. *)
Fixpoint endsWith (p s : string) : bool :=
  String.eqb p s
  || match s with
     | EmptyString => false
     | String _ s' => endsWith p s'
     end.

(** The pieces of [s] between the successive leftmost matches of a
    separator of [sepLen >= 1] characters that [matchAt] recognises at
    the start of a text.  [skip] counts the characters of a matched
    separator that are still to be dropped, [cur] is the piece read so
    far. *)
Fixpoint splitGo (matchAt : string → bool) (sepLen : nat) (skip : nat)
    (cur s : string) : list string :=
  match s with
  | EmptyString => [cur]
  | String c s' =>
      match skip with
      | S k => splitGo matchAt sepLen k cur s'
      | O =>
          if matchAt s
          then cur :: splitGo matchAt sepLen (sepLen - 1) EmptyString s'
          else splitGo matchAt sepLen 0 (cur +:+ String c EmptyString) s'
      end
  end.

(** [s.split(sep)] for a non-empty text [sep]. *)
Definition split (sep s : string) : list string :=
  splitGo (startsWith sep) (String.length sep) 0 EmptyString s.

(** [s] without its first [n] characters. *)
Fixpoint drop (n : nat) (s : string) : string :=
  match n, s with
  | O, _ => s
  | S _, EmptyString => EmptyString
  | S n', String _ s' => drop n' s'
  end.

(** The parts of [s] before and after the first occurrence of [sep];
    [cur] is the part read so far. *)
Fixpoint cutFirst (sep cur s : string) : option (string * string) :=
  if startsWith sep s
  then Some (cur, drop (String.length sep) s)
  else match s with
       | EmptyString => None
       | String c s' => cutFirst sep (cur +:+ String c EmptyString) s'
       end.
End Str.

(** The characters that [.] does not match in a regular expression: line
    feed, carriage return, U+2028 and U+2029 (in UTF-8). *)
Definition lineTerminators : list string :=
  [ String "010"%char EmptyString;
    String "013"%char EmptyString;
    String "226"%char (String "128"%char (String "168"%char EmptyString));
    String "226"%char (String "128"%char (String "169"%char EmptyString)) ].

Definition hasLineTerminator (s : string) : bool :=
  existsb (λ t, Str.occursIn t s) lineTerminators.

(** The two groups of [log.match] in [LogItem]: the pattern is an opening
    bracket, the shortest run of [.] up to a closing bracket and a space,
    and a run of [.] up to the end of the text. *)
Definition logMatch (log : string) : option (string * string) :=
  match log with
  | String "["%char rest =>
      if hasLineTerminator rest then None
      else Str.cutFirst "] " EmptyString rest
  | _ => None
  end.

Definition knownFields : list string := ["Status"; "Paid"; "Shipping"; "Ref"].

(** A match of [/, (?=(?:Status|Paid|Shipping|Ref):)/] at the start of [s]. *)
Definition changeSeparatorAt (s : string) : bool :=
  existsb (λ k, Str.startsWith (", " +:+ k +:+ ":") s) knownFields.

(** [content.split(/, (?=(?:Status|Paid|Shipping|Ref):)/)] *)
Definition splitChanges (content : string) : list string :=
  Str.splitGo changeSeparatorAt 2 0 EmptyString content.

(** What [ChangeRow] shows: the text as it is, or a label with the old and
    the new value ([newVal] is [undefined] when there is no [' -> ']). *)
Inductive ChangeView :=
  | RawChange (change : string)
  | Change (label oldVal : string) (newVal : option string).

Definition ChangeRow (change : string) : ChangeView :=
  match Str.split ": " change with
  | label :: ((_ :: _) as rest) =>
      let values := String.concat ": " rest in
      match Str.split " -> " values with
      | oldVal :: newVal :: _ => Change label oldVal (Some newVal)
      | [oldVal] => Change label oldVal None
      | [] => Change label "" None
      end
  | _ => RawChange change
  end.

Inductive LogView :=
  | RawLog (log : string)
  | Log (timestamp : string) (changes : list ChangeView).

Definition LogItem (log : string) : LogView :=
  match logMatch log with
  | None => RawLog log
  | Some (timestamp, content) => Log timestamp (ChangeRow <$> splitChanges content)
  end.

Definition showPaymentStatus (s : PaymentStatus) : string :=
  match s with UNPAID => "Unpaid" | PARTIAL => "Partial" | PAID => "Paid" end.

Definition showShippingStatus (s : ShippingStatus) : string :=
  match s with
  | PENDING => "Pending" | SHIPPED => "Shipped" | RTS => "RTS"
  | CANCELLED => "Cancelled"
  end.

(** One segment [`Field: old -> new`] of a log line. *)
Definition changeText (c : string * string * string) : string :=
  c.1.1 +:+ ": " +:+ c.1.2 +:+ " -> " +:+ c.2.

(** [`[${dateStr}] ${changes.join(', ')}`], or [undefined] without changes. *)
Definition logString (dateStr : string) (changes : list string) : option string :=
  match changes with
  | [] => None
  | _ => Some ("[" +:+ dateStr +:+ "] " +:+ String.concat ", " changes)
  end.

Section StatusModal.
Context `{NumberToString}.

(** The change set of [handleSaveClick]: for each edited field its
    label, old text and new text, in the order of the code. *)
Definition changeSet (order formData : GroupedOrder)
  : list (string * string * string) :=
  let o := base order in
  let f := base formData in
  ((if decide (Order.paymentStatus f ≠ Order.paymentStatus o)
   then [("Status", showPaymentStatus (Order.paymentStatus o),
          showPaymentStatus (Order.paymentStatus f))] else [])
  ++ (if decide (¬ (Order.amountPaid f == Order.amountPaid o)%Q)
      then [("Paid", "₱" +:+ numberToString (Order.amountPaid o),
             "₱" +:+ numberToString (Order.amountPaid f))] else [])
  ++ (if decide (Order.shippingStatus f ≠ Order.shippingStatus o)
      then [("Shipping", showShippingStatus (Order.shippingStatus o),
             showShippingStatus (Order.shippingStatus f))] else [])
  ++ (if decide (Order.referenceNumber f ≠ Order.referenceNumber o)
      then [("Ref", default "None" (truthy (Order.referenceNumber o)),
             default "undefined" (Order.referenceNumber f))] else []))%list.

(** The arguments of [onSave(formData, logString)]. *)
Definition handleSaveClick (dateStr : string) (order formData : GroupedOrder)
  : GroupedOrder * option string :=
  (formData, logString dateStr (changeText <$> changeSet order formData)).
End StatusModal.

(** ** Values used to state the properties *)

(** The customer row that [getOrCreateCustomer] creates for an unknown
    username, and a stored row once its legacy missing ticket count is
    filled in. *)
Definition newCustomer (now : N) (username : string) : Customer.t :=
  Customer.mk ("c_" +:+ pretty now) username false (Some 0) false 0 0.

Definition withTickets (c : Customer.t) : Customer.t :=
  match Customer.vipTickets c with
  | None => Customer.set_vipTickets (Some 0) c
  | Some _ => c
  end.

Definition bale002 : Bale.t :=
  Bale.mk "B002" "Premium Korean Knit Bale" Arrived 15000 250.

(** A sold-out bale of two items whose only order takes both. *)
Definition soldOutStore : Store :=
  mkStore
    (Some [Product.mk "p" "Dress" "Live" "B" 0 100 0])
    (Some [Order.mk "o1" "s1" "c1" "dogmom_ph" "p" "Dress" 2 200 false
                    UNPAID PENDING None None 0 0 None None])
    None
    (Some [Bale.mk "B" "Bale" SoldOut 1000 2]).

Definition shippedOrder : Order.t :=
  Order.mk "o1" "s1" "c1" "dogmom_ph" "p1" "Cotton Ribbon Dress (Blue)" 2 300
           false PAID SHIPPED None None 300 0 None None.

Definition returnedOrder : Order.t :=
  Order.mk "o1" "s1" "c1" "dogmom_ph" "p1" "Cotton Ribbon Dress (Blue)" 2 300
           false PAID RTS None None 300 0 None None.


(** A live session on the seeded data with nothing typed yet. *)
Definition liveSession : LiveSession.t :=
  LiveSession.mk "s1" "Live" "11/2/2026" 0 0 true.

Definition freshLiveSell : LiveSell :=
  mkLiveSell (Some liveSession) "" "" "" [] false 0 NONE None None "" None None
             false 0 INITIAL_CUSTOMERS [].

(** The selling screen on bale [baleId] for the customer [user]. *)
Definition sellingTo (user baleId : string) : LiveSell :=
  mkLiveSell (Some liveSession) user "" baleId [] false 0 NONE None None ""
             None None false 0 INITIAL_CUSTOMERS [].

(** A cart of one line of 1000 with a ticket discount of [d] of type [ty]. *)
Definition discountedCart (ty : DiscountType) (d : Q) : LiveSell :=
  mkLiveSell (Some liveSession) "dogmom_ph" "" "B001"
             [CartItem.mk "c_1_r" 1000 1 false "B001"] true d ty None None ""
             None None false 0 INITIAL_CUSTOMERS [].

(** [n] calls of [addToCart] with the same price, one per entry of [calls]
    (the clock and the random text of each call). *)
Definition addToCartTimes (calls : list (N * string)) (inputPrice : Q)
    (isFreebie : bool) (st : Store) (ui : LiveSell) : LiveSell :=
  foldl (λ u call, addToCart call.1 call.2 inputPrice isFreebie st u) ui calls.

(** [numberToString] on whole amounts, which is all the examples below
    format: the integer part in decimal. *)
Definition wholeNumberToString : NumberToString :=
  λ q, pretty (Qnum q `div` Z.pos (Qden q)).

(** The guards of [handleCheckout]: a session and a username, a customer
    who is not blacklisted and, when a ticket is used, a fixed discount
    within the cart total and a ticket left. *)
Definition checkoutAccepted (now : N) (st : Store) (ui : LiveSell) : Prop :=
  is_Some (session ui) ∧ username ui ≠ ""
  ∧ let customer := (getOrCreateCustomer now (username ui) st).1 in
    Customer.isBlacklisted customer = false
    ∧ (useVipTicket ui = true →
       (vipDiscountType ui = FIXED → (vipDiscount ui <= cartTotal (cart ui))%Q)
       ∧ ∃ t, Customer.vipTickets customer = Some t ∧ t > 0).

(** A bale of two items on sale, nothing sold yet. *)
Definition smallBaleStore : Store :=
  mkStore (Some []) (Some []) None (Some [Bale.mk "B" "Bale" OnSale 1000 2]).

Definition threeCalls : list (N * string) := [(1%N, "r1"); (2%N, "r2"); (3%N, "r3")].

(** The customer and the store of [handleCheckout] once the ticket, if one
    is used, is taken. *)
Definition ticketTaken (now : N) (st : Store) (ui : LiveSell)
  : Customer.t * Store :=
  let r := getOrCreateCustomer now (username ui) st in
  if useVipTicket ui then
    let c := Customer.set_vipTickets
               ((λ t, t - 1) <$> Customer.vipTickets r.1) r.1 in
    (c, updateCustomer c r.2)
  else r.

(** Two unpaid orders of one customer in one session, of 100 and 400, and
    the group the Orders view builds from them, edited to the payment
    status [status] with the amount [paid]. *)
Definition item100 : Order.t :=
  Order.mk "o1" "s1" "c1" "dogmom_ph" "p1" "Cotton Ribbon Dress (Blue)" 1 100
           false UNPAID PENDING None None 0 0 None None.

Definition item400 : Order.t :=
  Order.mk "o2" "s1" "c1" "dogmom_ph" "p3" "Puffy Sleeved Knit" 2 400
           false UNPAID PENDING None None 0 0 None None.

Definition twoItemStore : Store := setOrders [item100; item400] emptyStore.

Definition editedGroup (status : PaymentStatus) (paid : Q) : GroupedOrder :=
  mkGroupedOrder
    (Order.mk "o1" "s1" "c1" "dogmom_ph" "p1" "Cotton Ribbon Dress (Blue)" 3 500
              false status PENDING (Some GCASH) (Some "") paid 0 None None)
    ["o1"; "o2"] [item100; item400] (Some true).

(** A customer row with one more ticket (a missing count reads as 0), and
    the stored ticket count of a username. *)
Definition addTicket (c : Customer.t) : Customer.t :=
  Customer.set_vipTickets (Some (default 0 (Customer.vipTickets c) + 1)) c.

Definition ticketsOf (u : string) (st : Store) : option Z :=
  list_find (λ c, Customer.username c = u) (getCustomers st)
    ≫= λ ic, Customer.vipTickets ic.2.

(** A cart of one line of 100 of the bale B001 for the first seeded
    customer, with a ticket and no discount. *)
Definition ticketCart : LiveSell :=
  mkLiveSell (Some liveSession) "dogmom_ph" "" "B001"
             [CartItem.mk "c_1_r" 100 1 false "B001"] true 0 NONE None None ""
             None None false 0 INITIAL_CUSTOMERS [].

Definition deletingDogmom : SessionOrdersModal :=
  mkSessionOrdersModal None (Some "dogmom_ph") 0.

(** ** Conditions on the texts of a log line *)

(** No proper end of [p] that is not empty starts [t]: an occurrence of
    [p] cannot begin before [t] and run into it. *)
Fixpoint noStraddle (p t : string) : bool :=
  match p with
  | EmptyString => true
  | String _ p' =>
      match p' with
      | EmptyString => true
      | String _ _ => negb (Str.startsWith p' t)
      end && noStraddle p' t
  end.

(** [matchAt] recognises nothing that begins inside [a] when [a] is
    followed by [t]. *)
Fixpoint noMatch (matchAt : string → bool) (a t : string) : bool :=
  match a with
  | EmptyString => true
  | String _ a' => negb (matchAt (a +:+ t)) && noMatch matchAt a' t
  end.

(** The separators that the decoder of a log line looks for between two
    changes. *)
Definition changeSeparators : list string :=
  (λ k, ", " +:+ k +:+ ":") <$> knownFields.

(** A value that can be written in a log line: no line terminator, no
    separator of changes and no arrow with its two spaces inside. *)
Definition cleanValue (v : string) : bool :=
  negb (hasLineTerminator v)
  && forallb (λ p, negb (Str.occursIn p v)) changeSeparators
  && negb (Str.occursIn " -> " v).

(** A change that decodes to itself: a known field, clean values, and an
    old value that does not end with a space and an arrow. *)
Definition cleanChange (c : string * string * string) : bool :=
  bool_decide (c.1.1 ∈ knownFields)
  && cleanValue c.1.2 && negb (Str.endsWith " ->" c.1.2)
  && cleanValue c.2.

(** A date text without line terminator and without closing bracket
    followed by a space. *)
Definition cleanTimestamp (ts : string) : bool :=
  negb (hasLineTerminator ts) && negb (Str.occursIn "] " ts).

(** What the decoder should show for a change. *)
Definition shown (c : string * string * string) : ChangeView :=
  Change c.1.1 c.1.2 (Some c.2).

(** A character that begins no line terminator. *)
Definition plainChar (c : ascii) : bool :=
  forallb (λ p, negb (Str.startsWith (String.substring 0 1 p)
                                     (String c EmptyString)))
          lineTerminators.

(** The change set of the specification's example and a change of the
    reference number whose old value ends with a space and an arrow. *)
Definition paidInFull : list (string * string * string) :=
  [("Status", "Unpaid", "Paid"); ("Paid", "0", "500")].

Definition arrowReference : list (string * string * string) :=
  [("Ref", "x ->", "y")].

Definition savedAt : string := "11/2/2026 01:45 PM".

(** ** [services/dbService.ts]: deleting products and bales, sessions *)

Definition deleteProduct (id : string) (st : Store) : Store :=
  setProducts (filter (λ p, Product.id p ≠ id) (getProducts st)) st.

Definition deleteBale (id : string) (st : Store) : Store :=
  setBales (filter (λ b, Bale.id b ≠ id) (getBales st)) st.

(** The key of [localStorage] that holds the live sessions.  No operation
    of the entity store above reads or writes it. *)
Record Journal := mkJournal {
  SESSIONS : option (list LiveSession.t)
}.

Definition emptyJournal : Journal := mkJournal None.

Definition getSessions (j : Journal) : list LiveSession.t :=
  default [] (SESSIONS j).

Definition setSessions (l : list LiveSession.t) (j : Journal) : Journal :=
  mkJournal (Some l).

(** [now] is the value of [Date.now()] and [today] the text of
    [new Date().toLocaleDateString('en-US')]. *)
Definition createSession (now : N) (today : string) (name : string)
    (j : Journal) : LiveSession.t * Journal :=
  let session := LiveSession.mk ("s_" +:+ pretty now) name today 0 0 true in
  (session, setSessions (getSessions j ++ [session]) j).

Definition closed (s : LiveSession.t) : LiveSession.t :=
  LiveSession.mk (LiveSession.id s) (LiveSession.name s) (LiveSession.date s)
    (LiveSession.totalSales s) (LiveSession.totalOrders s) false.

Definition closeSession (id : string) (j : Journal) : Journal :=
  let sessions := getSessions j in
  match list_find (λ s, LiveSession.id s = id) sessions with
  | Some (idx, _) => setSessions (alter closed idx sessions) j
  | None => j
  end.

(** The session a freshly mounted [LiveSell] view starts with:
    [db.getSessions().find(s => s.isOpen) || null]. *)
Definition openSession (j : Journal) : option LiveSession.t :=
  snd <$> list_find (λ s, LiveSession.isOpen s = true) (getSessions j).


(** ** JavaScript objects used as maps *)

Module Obj.
(** An object with string keys is the list of its own properties in the
    order of their creation. *)

(** The property names that an object literal inherits from
    [Object.prototype]: reading one of them on an object that has no own
    property of that name gives a function, or the prototype itself for
    [__proto__], never [undefined]. *)
Definition inherited : list string :=
  ["constructor"; "__defineGetter__"; "__defineSetter__"; "hasOwnProperty";
   "__lookupGetter__"; "__lookupSetter__"; "isPrototypeOf";
   "propertyIsEnumerable"; "toString"; "valueOf"; "__proto__";
   "toLocaleString"].

(** The own property [k] of [o]. *)
Definition get {V} (o : list (string * V)) (k : string) : option V :=
  (λ ikv : nat * (string * V), ikv.2.2) <$> list_find (λ kv, kv.1 = k) o.

(** [o[k] = v]: an existing property keeps its place. *)
Definition set {V} (k : string) (v : V) (o : list (string * V))
  : list (string * V) :=
  match list_find (λ kv, kv.1 = k) o with
  | Some (i, _) => <[i := (k, v)]> o
  | None => o ++ [(k, v)]
  end.

Fixpoint digits (s : string) (acc : N) : option N :=
  match s with
  | EmptyString => Some acc
  | String c s' =>
      match Ascii.is_nat c with
      | Some d => digits s' (10 * acc + N.of_nat d)%N
      | None => None
      end
  end.

(** The value of a key that is an array index: the canonical decimal
    text of an integer below [2^32 - 1]. *)
Definition arrayIndex (k : string) : option N :=
  match k with
  | EmptyString => None
  | _ =>
      match digits k 0 with
      | Some n =>
          if decide (pretty n = k ∧ (n < 4294967295)%N) then Some n else None
      | None => None
      end
  end.

Definition indexLe {V} (a b : N * (string * V)) : Prop := (a.1 ≤ b.1)%N.

#[global] Instance indexLe_dec {V} : RelDecision (@indexLe V).
Proof. intros a b. unfold indexLe. apply _. Defined.

(** [Object.entries(o)]: the array indices first, by increasing value,
    then the other keys in the order of their creation. *)
Definition entries {V} (o : list (string * V)) : list (string * V) :=
  let indexed :=
    omap (λ kv, (λ n : N, (n, kv)) <$> arrayIndex kv.1) o in
  (snd <$> merge_sort indexLe indexed)
  ++ filter (λ kv, arrayIndex kv.1 = None) o.

Definition values {V} (o : list (string * V)) : list V := snd <$> entries o.
Definition keys {V} (o : list (string * V)) : list string :=
  fst <$> entries o.
End Obj.

(** ** The live-selling view: batches on sale, VIP tickets, end of session *)

Definition OFF_LIVE_ID : string := "OFF_LIVE".

(** [baleAvailability]: the batches on sale, each with what is left of it
    once the stored orders and the cart are counted. *)
Definition baleAvailability (st : Store) (cart : list CartItem.t)
  : list (Bale.t * Z) :=
  (λ b,
     let prodIds :=
       Product.id <$> filter (λ p, Product.baleBatch p = Bale.id b)
                             (getProducts st) in
     let soldDB :=
       foldl (λ sum o, sum + Order.quantity o) 0
         (filter (λ o, Order.productId o ∈ prodIds
                       ∧ Order.shippingStatus o ≠ CANCELLED) (getOrders st)) in
     let inCart :=
       foldl (λ sum c, sum + CartItem.quantity c) 0
         (filter (λ c, CartItem.baleId c = Bale.id b) cart) in
     (b, Z.max 0 (Bale.itemCount b - soldDB - inCart)))
  <$> filter (λ b, Bale.status b = OnSale) (getBales st).


Definition handleMakeVip (now : N) (st : Store) (ui : LiveSell)
  : LiveSell * Store :=
  if decide (username ui = "") then (alert "Enter a username first" ui, st)
  else
    let '(customer, st1) := getOrCreateCustomer now (username ui) st in
    let customer' :=
      Customer.mk (Customer.id customer) (Customer.username customer) true
        (Some (default 0 (Customer.vipTickets customer) + 1))
        (Customer.isBlacklisted customer) (Customer.totalSpent customer)
        (Customer.orderCount customer) in
    let st2 := updateCustomer customer' st1 in
    (setFeedback (Some "VIP Ticket Added (+1)")
       (setAllCustomers (getCustomers st2) ui), st2).

Module SessionSummaryData.
Record t := mk {
  name : string;
  date : string;
  totalSales : Q;
  totalItems : Z;
  customerCount : Z;
  topCustomer : option (string * Q)
}.
End SessionSummaryData.

(** The state of [LiveSell] around the start and the end of a session. *)
Record SessionControls := mkSessionControls {
  showStartModal : bool;
  showEndConfirmation : bool;
  showClearCartModal : bool;
  finishedSessionData : option SessionSummaryData.t
}.

Definition setSession (s : option LiveSession.t) (ui : LiveSell) : LiveSell :=
  mkLiveSell s (username ui) (transactionNo ui) (selectedBaleId ui)
    (cart ui) (useVipTicket ui) (vipDiscount ui) (vipDiscountType ui)
    (txPaymentMethod ui) (txAmountPaid ui) (customPrice ui) (feedback ui)
    (oosModalData ui) (showSessionOrders ui) (dataTick ui) (allCustomers ui)
    (alerts ui).

Definition handleCreateSession (now : N) (today name : string) (j : Journal)
    (ui : LiveSell) (sc : SessionControls)
  : LiveSell * SessionControls * Journal :=
  let '(newSession, j') := createSession now today name j in
  (setSession (Some newSession) ui,
   mkSessionControls false (showEndConfirmation sc) (showClearCartModal sc)
                     (finishedSessionData sc),
   j').

(** [v || 0] for a number that may be absent. *)
Definition orZero (v : option Q) : Q :=
  match v with
  | Some x => if decide (x == 0)%Q then 0%Q else x
  | None => 0%Q
  end.

(** A property of [customerTotals] holds a number, or a text once [+] has
    been given a value that is not a number. *)
Inductive Total := Amount (q : Q) | Text.

(** [customerTotals] of [confirmEndSession]: what each customer of the
    session spent.  For a username that is an inherited property name and
    not yet an own one, [customerTotals[u] || 0] is the inherited value,
    and [+] makes a text of it; the assignment then creates the own
    property, unless the name is [__proto__], whose setter ignores a
    text. *)
Definition customerTotals (sessionOrders : list Order.t)
  : list (string * Total) :=
  foldl (λ totals o,
           let u := Order.customerUsername o in
           let sum :=
             match Obj.get totals u with
             | Some (Amount x) => Amount (orZero (Some x) + Order.totalPrice o)
             | Some Text => Text
             | None =>
                 if decide (u ∈ Obj.inherited) then Text
                 else Amount (orZero None + Order.totalPrice o)
             end in
           if decide (u = "__proto__") then totals else Obj.set u sum totals)
        [] sessionOrders.

(** The number that [totals] holds for [u], nothing when it holds none. *)
Definition spentBy (totals : list (string * Total)) (u : string) : Q :=
  match Obj.get totals u with
  | Some (Amount x) => x
  | _ => 0%Q
  end.

(** The scan for the customer who spent most; the state is [maxSpent] and
    [topCustomer].  A text is not a number and compares greater than
    nothing. *)
Definition topSpender (entries : list (string * Total))
  : Q * option (string * Q) :=
  foldl (λ (acc : Q * option (string * Q)) (e : string * Total),
           match e.2 with
           | Amount spent =>
               if decide (acc.1 < spent)%Q then (spent, Some (e.1, spent))
               else acc
           | Text => acc
           end)
        (0%Q, None) entries.

Definition sessionSummary (session : LiveSession.t) (st : Store)
  : SessionSummaryData.t :=
  let sessionOrders :=
    filter (λ o, Order.sessionId o = LiveSession.id session) (getOrders st) in
  let totalSales :=
    foldl (λ sum o, sum + Order.totalPrice o)%Q 0%Q sessionOrders in
  let totalItems := foldl (λ sum o, sum + Order.quantity o) 0 sessionOrders in
  let totals := customerTotals sessionOrders in
  SessionSummaryData.mk (LiveSession.name session) (LiveSession.date session)
    totalSales totalItems (Z.of_nat (length (Obj.keys totals)))
    (topSpender (Obj.entries totals)).2.

Definition confirmEndSession (st : Store) (j : Journal) (ui : LiveSell)
    (sc : SessionControls) : SessionControls * Journal :=
  match session ui with
  | Some session =>
      let summary := sessionSummary session st in
      let j' :=
        if decide (LiveSession.id session ≠ OFF_LIVE_ID)
        then closeSession (LiveSession.id session) j else j in
      (mkSessionControls (showStartModal sc) false (showClearCartModal sc)
                         (Some summary), j')
  | None => (sc, j)
  end.

Definition finalizeSessionClose (ui : LiveSell) (sc : SessionControls)
  : LiveSell * SessionControls :=
  (setTxAmountPaid None
     (setTxPaymentMethod None
        (setUseVipTicket false
           (setTransactionNo ""
              (setUsername "" (setCart [] (setSession None ui)))))),
   mkSessionControls (showStartModal sc) (showEndConfirmation sc)
                     (showClearCartModal sc) None).

(** ** [views/Orders.tsx]: the session cards *)

(** [sessionTotal] and [sessionItems] of a session card. *)
Definition sessionTotal (allOrders : list Order.t) (sessionId : string) : Q :=
  foldl (λ sum o, sum + Order.totalPrice o)%Q 0%Q
        (filter (λ o, Order.sessionId o = sessionId) allOrders).

Definition sessionItems (allOrders : list Order.t) (sessionId : string) : Z :=
  foldl (λ sum o, sum + Order.quantity o) 0
        (filter (λ o, Order.sessionId o = sessionId) allOrders).

(** ** The accounting view *)

(** [profitStats.revenue]: what was paid on the orders. *)
Definition revenue (orders : list Order.t) : Q :=
  foldl (λ sum o, sum + Order.amountPaid o)%Q 0%Q orders.

(** ** More values used to state the properties *)

(** A customer row once [handleMakeVip] has marked it VIP and added a
    ticket. *)
Definition madeVip (c : Customer.t) : Customer.t :=
  Customer.mk (Customer.id c) (Customer.username c) true
    (Some (default 0 (Customer.vipTickets c) + 1))
    (Customer.isBlacklisted c) (Customer.totalSpent c) (Customer.orderCount c).

(** ** [views/Orders.tsx]: the orders of a session, grouped by customer *)

(** [vipMap]: a later customer row of a username overrides an earlier
    one. *)
Definition vipMap (customers : list Customer.t) : list (string * bool) :=
  foldl (λ m c, Obj.set (Customer.username c) (Customer.isVIP c) m)
        [] customers.

(** A group to which one more order of its customer is added. *)
Definition mergeInto (g : GroupedOrder) (o : Order.t) : GroupedOrder :=
  let b := base g in
  mkGroupedOrder
    (Order.mk (Order.id b) (Order.sessionId b) (Order.customerId b)
       (Order.customerUsername b) (Order.productId b) (Order.productName b)
       (Order.quantity b + Order.quantity o)
       (Order.totalPrice b + Order.totalPrice o)%Q
       (Order.isFreebie b) (Order.paymentStatus b) (Order.shippingStatus b)
       (Order.paymentMethod b) (Order.referenceNumber b)
       (Order.amountPaid b + Order.amountPaid o)%Q
       (Order.createdAt b) (Order.usedVipTicket b)
       match Order.logs o with
       | Some l => Some (default [] (Order.logs b) ++ l)%list
       | None => Order.logs b
       end)
    (ids g ++ [Order.id o]) (items g ++ [o]) (isCustomerVIP g).

(** The loop of [filteredOrders].  [None] is the [TypeError] that ends it
    when the username of an order is an inherited property name:
    [groups[key]] is then not [undefined], and the value found there has
    no [ids] to push to. *)
Definition groupOrders (customers : list Customer.t) (orders : list Order.t)
  : option (list (string * GroupedOrder)) :=
  foldl (λ acc o,
           groups ← acc;
           let key := Order.customerUsername o in
           match Obj.get groups key with
           | None =>
               if decide (key ∈ Obj.inherited) then None
               else
                 Some (Obj.set key
                         (mkGroupedOrder o [Order.id o] [o]
                            (Some (default false
                                     (Obj.get (vipMap customers) key))))
                         groups)
           | Some g => Some (Obj.set key (mergeInto g o) groups)
           end)
        (Some []) orders.

(** [Array.prototype.sort] with a comparator is stable: [before y x]
    tells that the comparator puts [y] strictly before [x]. *)
Fixpoint insertBy {A} (before : A → A → bool) (x : A) (l : list A) : list A :=
  match l with
  | [] => [x]
  | y :: l' => if before y x then y :: insertBy before x l' else x :: l
  end.

Definition stableSort {A} (before : A → A → bool) (l : list A) : list A :=
  foldr (insertBy before) [] l.

Definition keepGroup (orderFilter : string) (g : GroupedOrder) : bool :=
  if decide (orderFilter = "Unpaid")
  then bool_decide (Order.paymentStatus (base g) ≠ PAID)
  else if decide (orderFilter = "Paid")
  then bool_decide (Order.paymentStatus (base g) = PAID)
  else true.

(** [filteredOrders], with the comparator of its final [sort] left open:
    the two [Orders] screens of [views/Orders.tsx] differ in it only. *)
Definition filteredOrdersBy (before : GroupedOrder → GroupedOrder → bool)
    (allOrders : list Order.t) (customers : list Customer.t)
    (selectedSession : option LiveSession.t) (orderFilter : string)
  : option (list GroupedOrder) :=
  match selectedSession with
  | None => Some []
  | Some s =>
      let orders :=
        filter (λ o, Order.sessionId o = LiveSession.id s) allOrders in
      groups ← groupOrders customers orders;
      Some (stableSort before
              (filter (λ g, keepGroup orderFilter g = true)
                      (Obj.values groups)))
  end.

(** The first screen sorts by [b.createdAt - a.createdAt]. *)
Definition filteredOrders
  : list Order.t → list Customer.t → option LiveSession.t → string
    → option (list GroupedOrder) :=
  filteredOrdersBy
    (λ a b, bool_decide (Order.createdAt (base b) - Order.createdAt (base a) < 0)).

(** The second screen, titled Order Management: groups are ranked by
    status before they are ordered by time, and a group can be deleted. *)
Module OrderManagement.
Definition getRank (o : GroupedOrder) : Z :=
  if decide (Order.paymentStatus (base o) ≠ PAID) then 0
  else if decide (Order.shippingStatus (base o) = SHIPPED) then 2
  else 1.

(** The comparator given to [sort]. *)
Definition compare (a b : GroupedOrder) : Z :=
  if decide (getRank a ≠ getRank b) then getRank a - getRank b
  else Order.createdAt (base b) - Order.createdAt (base a).

Definition filteredOrders
  : list Order.t → list Customer.t → option LiveSession.t → string
    → option (list GroupedOrder) :=
  filteredOrdersBy (λ a b, bool_decide (compare a b < 0)).

(** The store after [handleDelete], and the new [deleteTarget]. *)
Definition handleDelete (deleteTarget : option GroupedOrder) (st : Store)
  : Store * option GroupedOrder :=
  match deleteTarget with
  | None => (st, None)
  | Some g => (foldl (λ s id, deleteOrder id s) st (ids g), None)
  end.
End OrderManagement.

(** ** [views/Orders.tsx]: the form of [StatusModal] *)


(** The initial state of the form. *)
Definition initialFormData (order : GroupedOrder) : GroupedOrder :=
  let b := base order in
  mkGroupedOrder
    (Order.mk (Order.id b) (Order.sessionId b) (Order.customerId b)
       (Order.customerUsername b) (Order.productId b) (Order.productName b)
       (Order.quantity b) (Order.totalPrice b) (Order.isFreebie b)
       (Order.paymentStatus b) (Order.shippingStatus b)
       (Some (default GCASH (Order.paymentMethod b)))
       (Some (default "" (truthy (Order.referenceNumber b))))
       (orZero (Some (Order.amountPaid b))) (Order.createdAt b)
       (Order.usedVipTicket b) (Order.logs b))
    (ids order) (items order) (isCustomerVIP order).





(** What the group [g] kept for the customer [k] is, once the orders [l]
    are read: the orders of [k] in [l], the first of which gives the
    fields of the group that are not sums. *)
Definition groupOf (l : list Order.t) (k : string) (g : GroupedOrder) : Prop :=
  Order.customerUsername (base g) = k
  ∧ items g = filter (λ o, Order.customerUsername o = k) l
  ∧ ids g = Order.id <$> items g
  ∧ Order.quantity (base g)
    = foldl (λ sum o, sum + Order.quantity o) 0 (items g)
  ∧ (Order.totalPrice (base g)
     == foldl (λ sum o, sum + Order.totalPrice o) 0 (items g))%Q
  ∧ (Order.amountPaid (base g)
     == foldl (λ sum o, sum + Order.amountPaid o) 0 (items g))%Q
  ∧ ∃ first rest,
      items g = first :: rest
      ∧ Order.id (base g) = Order.id first
      ∧ Order.sessionId (base g) = Order.sessionId first
      ∧ Order.paymentStatus (base g) = Order.paymentStatus first
      ∧ Order.shippingStatus (base g) = Order.shippingStatus first
      ∧ Order.paymentMethod (base g) = Order.paymentMethod first
      ∧ Order.referenceNumber (base g) = Order.referenceNumber first
      ∧ Order.createdAt (base g) = Order.createdAt first.

(** ** [SessionOrdersModal]: the customers of the session *)

Module SessionGroup.
Record t := mk {
  username : string;
  count : Z;
  total : Q;
  lastTime : Z;
  usedVip : bool;
  items : list string;
  refNumber : option string
}.
End SessionGroup.

Module SessionOrders.
(** [productName.replace('Live Item ', '')]: the first occurrence goes. *)
Definition withoutLiveItem (productName : string) : string :=
  match Str.cutFirst "Live Item " "" productName with
  | Some (before, after) => before +:+ after
  | None => productName
  end.

(** The entry made for a customer at the first order met. *)
Definition newEntry (o : Order.t) : SessionGroup.t :=
  SessionGroup.mk (Order.customerUsername o) 0 0 (Order.createdAt o) false []
                  None.

(** What the body of the loop does to the entry of the customer of [o]. *)
Definition countOrder (g : SessionGroup.t) (o : Order.t) : SessionGroup.t :=
  SessionGroup.mk (SessionGroup.username g)
    (SessionGroup.count g + Order.quantity o)
    (SessionGroup.total g + Order.totalPrice o)
    (Z.max (SessionGroup.lastTime g) (Order.createdAt o))
    (if decide (Order.usedVipTicket o = Some true) then true
     else SessionGroup.usedVip g)
    (if decide (length (SessionGroup.items g) < 5)%nat
     then SessionGroup.items g ++ [withoutLiveItem (Order.productName o)]
     else SessionGroup.items g)
    (match truthy (Order.referenceNumber o) with
     | Some r => Some r
     | None => SessionGroup.refNumber g
     end).

Definition orders (sessionId : string) (st : Store) : list Order.t :=
  filter (λ o, Order.sessionId o = sessionId) (getOrders st).

(** The object [g] once the orders [l] are read.  [None] is the
    [TypeError] raised when a username is an inherited property name: the
    value found under it has no [items]. *)
Definition entries (l : list Order.t) : option (list (string * SessionGroup.t)) :=
  foldl (λ acc o,
           g ← acc;
           let u := Order.customerUsername o in
           match Obj.get g u with
           | Some e => Some (Obj.set u (countOrder e o) g)
           | None =>
               if decide (u ∈ Obj.inherited) then None
               else Some (Obj.set u (countOrder (newEntry o) o) g)
           end)
        (Some []) l.

Definition groups (sessionId : string) (st : Store)
  : option (list SessionGroup.t) :=
  g ← entries (orders sessionId st);
  Some (stableSort
          (λ a b,
             bool_decide (SessionGroup.lastTime b - SessionGroup.lastTime a < 0))
          (Obj.values g)).
End SessionOrders.

(** ** [views/Inventory.tsx]: the cards of the bales *)


Module Inventory.
Record Stats := mkStats {
  soldCount : Z;
  revenue : Q;
  isProfitable : bool
}.

Definition getBaleStats (st : Store) (baleId : string) (cost : Q) : Stats :=
  let baleProductIds := baleProductIds baleId (getProducts st) in
  let baleOrders :=
    filter (λ o, Order.productId o ∈ baleProductIds) (getOrders st) in
  let soldCount := foldl (λ sum o, sum + Order.quantity o) 0 baleOrders in
  let revenue := foldl (λ sum o, sum + Order.totalPrice o)%Q 0%Q baleOrders in
  mkStats soldCount revenue (bool_decide (cost <= revenue)%Q).

(** [remaining] of a card. *)
Definition remaining (st : Store) (bale : Bale.t) : Z :=
  Z.max 0 (Bale.itemCount bale
           - soldCount (getBaleStats st (Bale.id bale) (Bale.cost bale))).




End Inventory.



(** ** [services/dbService.ts]: transactions and expense categories *)

Module Transaction.
Inductive kind := Expense | Withdrawal | Loan.

#[global] Instance kind_eq_dec : EqDecision kind.
Proof. solve_decision. Defined.

Record t := mk {
  id : string;
  type : kind;
  amount : Q;
  wallet : string;
  category : string;
  note : string;
  createdAt : Z
}.
End Transaction.

(** The keys of [localStorage] that hold the transactions and the expense
    categories; [None] is an absent key. *)
Record Ledger := mkLedger {
  TRANSACTIONS : option (list Transaction.t);
  CATEGORIES : option (list string)
}.

Definition emptyLedger : Ledger := mkLedger None None.

Definition getTransactions (l : Ledger) : list Transaction.t :=
  default [] (TRANSACTIONS l).

Definition addTransaction (tx : Transaction.t) (l : Ledger) : Ledger :=
  mkLedger (Some (getTransactions l ++ [tx])) (CATEGORIES l).

(** The host's order of strings, by which [sort] without a comparator
    arranges them: [stringBefore x y] tells that [x] is smaller than [y].
    And the host's [trim]. *)
Class StringOrder := stringBefore : string → string → bool.
Class Trim := trim : string → string.

Definition defaultCategories : list string :=
  ["Inventory Restock"; "Shipping Fee"; "Packaging"; "Rent"; "Utilities";
   "Salary"; "Personal Withdrawal"; "Loan"; "Capital"; "Miscellaneous"].

Definition getExpenseCategories `{StringOrder} (l : Ledger) : list string :=
  stableSort stringBefore (default defaultCategories (CATEGORIES l)).

Definition setExpenseCategories `{StringOrder} (categories : list string)
    (l : Ledger) : Ledger :=
  mkLedger (TRANSACTIONS l) (Some (stableSort stringBefore categories)).

Definition addExpenseCategory `{StringOrder} `{Trim} (category : string)
    (l : Ledger) : Ledger :=
  let categories := getExpenseCategories l in
  if decide ((category ∉ categories) ∧ trim category ≠ "")
  then setExpenseCategories (categories ++ [category]) l
  else l.

(** ** [Accounting]: the history of transactions *)

Record Accounting := mkAccounting {
  categories : list string;
  categoryFilter : string;
  showTxModal : bool
}.

Definition filteredTransactions (transactions : list Transaction.t)
    (categoryFilter : string) : list Transaction.t :=
  let txs := reverse transactions in
  if decide (categoryFilter ≠ "All")
  then filter (λ t, Transaction.category t = categoryFilter) txs
  else txs.

(** [profitStats.expenses] *)
Definition expenses (transactions : list Transaction.t) : Q :=
  foldl (λ sum t, sum + Transaction.amount t)%Q 0%Q
        (filter (λ t, Transaction.type t = Transaction.Expense) transactions).

Definition handleAddTx `{StringOrder} `{Trim} (tx : Transaction.t)
    (l : Ledger) (ui : Accounting) : Accounting * Ledger :=
  let l' := addExpenseCategory (Transaction.category tx) (addTransaction tx l) in
  (mkAccounting (getExpenseCategories l') (categoryFilter ui) false, l').

(** An order and a [trim] for the examples, right on texts of letters,
    digits and spaces: the order of the character codes, and the removal
    of leading and trailing spaces. *)
Fixpoint codeBefore (x y : string) : bool :=
  match x, y with
  | EmptyString, EmptyString => false
  | EmptyString, String _ _ => true
  | String _ _, EmptyString => false
  | String a x', String b y' =>
      if decide (nat_of_ascii a < nat_of_ascii b)%nat then true
      else if decide (nat_of_ascii b < nat_of_ascii a)%nat then false
      else codeBefore x' y'
  end.

Fixpoint dropSpaces (s : string) : string :=
  match s with
  | String " " s' => dropSpaces s'
  | _ => s
  end.

Definition trimSpaces : Trim :=
  λ s, String.rev (dropSpaces (String.rev (dropSpaces s))).

(** ** [Customers]: the switches of a customer card *)

Definition toggleVIP (customer : Customer.t) (st : Store) : Store :=
  updateCustomer
    (Customer.mk (Customer.id customer) (Customer.username customer)
       (negb (Customer.isVIP customer)) (Customer.vipTickets customer)
       (Customer.isBlacklisted customer) (Customer.totalSpent customer)
       (Customer.orderCount customer))
    st.


(** [g] is one of the groups that the Orders view shows for the session
    [s] under the filter [orderFilter]. *)
Definition shownIn (allOrders : list Order.t) (customers : list Customer.t)
    (s : LiveSession.t) (orderFilter : string) (g : GroupedOrder) : Prop :=
  ∃ groups,
    filteredOrders allOrders customers (Some s) orderFilter = Some groups
    ∧ g ∈ groups.


(** * Properties *)

(** ** The entity store: what each operation leaves alone *)

Section StoreFrames.
Implicit Types (st : Store) (baleId : string).

(** [l[i] = f(l[i])] as an assignment to the cell [i]. *)
Lemma alter_as_insert {A} (f : A → A) (l : list A) (i : nat) (x : A) :
  l !! i = Some x → alter f i l = <[i := f x]> l.
Proof.
  revert i. induction l as [|y l IH]; intros [|i] Hi; simplify_eq/=; [done|].
  f_equal. by apply IH.
Qed.

Lemma set_status_same (b : Bale.t) : Bale.set_status (Bale.status b) b = b.
Proof. by destruct b. Qed.

Lemma refreshBaleStatus_products baleId st :
  getProducts (refreshBaleStatus baleId st) = getProducts st.
Proof.
  unfold refreshBaleStatus.
  destruct (list_find _ _) as [[index bale]|]; [|done].
  by case_decide.
Qed.

Lemma refreshBaleStatus_orders baleId st :
  getOrders (refreshBaleStatus baleId st) = getOrders st.
Proof.
  unfold refreshBaleStatus.
  destruct (list_find _ _) as [[index bale]|]; [|done].
  by case_decide.
Qed.

Lemma refreshBaleStatus_customers baleId st :
  getCustomers (refreshBaleStatus baleId st) = getCustomers st.
Proof.
  unfold refreshBaleStatus.
  destruct (list_find _ _) as [[index bale]|]; [|done].
  by case_decide.
Qed.

(** The bales after a recompute: the bale found keeps its place and its
    data, and takes the status chosen by [newStatus]. *)
Lemma refreshBaleStatus_bales baleId st index bale :
  list_find (λ b, Bale.id b = baleId) (getBales st) = Some (index, bale) →
  getBales (refreshBaleStatus baleId st)
  = <[index := Bale.set_status
                 (newStatus (Bale.status bale) (Bale.itemCount bale)
                            (soldCount baleId st)) bale]> (getBales st).
Proof.
  intros Hfind. unfold refreshBaleStatus. rewrite Hfind.
  apply list_find_Some in Hfind as (Hlook & _ & _).
  case_decide as Hne.
  - unfold getBales at 1; simpl. by apply alter_as_insert.
  - rewrite Hne, set_status_same.
    by rewrite list_insert_id.
Qed.

Lemma refreshBaleStatus_missing baleId st :
  list_find (λ b, Bale.id b = baleId) (getBales st) = None →
  refreshBaleStatus baleId st = st.
Proof. intros Hfind. unfold refreshBaleStatus. by rewrite Hfind. Qed.

Lemma refreshIfSet_products o st :
  getProducts (refreshIfSet o st) = getProducts st.
Proof.
  unfold refreshIfSet. destruct (truthy o); [|done].
  apply refreshBaleStatus_products.
Qed.

Lemma refreshIfSet_orders o st :
  getOrders (refreshIfSet o st) = getOrders st.
Proof.
  unfold refreshIfSet. destruct (truthy o); [|done].
  apply refreshBaleStatus_orders.
Qed.

Lemma refreshIfSet_customers o st :
  getCustomers (refreshIfSet o st) = getCustomers st.
Proof.
  unfold refreshIfSet. destruct (truthy o); [|done].
  apply refreshBaleStatus_customers.
Qed.

Lemma truthy_Some (s : string) : s ≠ "" → truthy (Some s) = Some s.
Proof. intros Hs. unfold truthy. by rewrite decide_False. Qed.

(** A recompute touches no bale other than the one it is asked for. *)
Lemma refreshBaleStatus_other_bales baleId st j b :
  getBales st !! j = Some b → Bale.id b ≠ baleId →
  getBales (refreshBaleStatus baleId st) !! j = Some b.
Proof.
  intros Hj Hid.
  destruct (list_find (λ b, Bale.id b = baleId) (getBales st))
    as [[index bale]|] eqn:Hfind.
  - rewrite (refreshBaleStatus_bales _ _ _ _ Hfind).
    apply list_find_Some in Hfind as (Hlook & Hb & _).
    rewrite list_lookup_insert_ne; [done|].
    intros ->. congruence.
  - by rewrite refreshBaleStatus_missing.
Qed.

Lemma refreshIfSet_other_bales o st j b :
  getBales st !! j = Some b → (∀ x, truthy o = Some x → Bale.id b ≠ x) →
  getBales (refreshIfSet o st) !! j = Some b.
Proof.
  intros Hj Hid. unfold refreshIfSet.
  destruct (truthy o) as [x|] eqn:Ho; [|done].
  apply refreshBaleStatus_other_bales; auto.
Qed.

Lemma deleteOrder_products id st :
  getProducts (deleteOrder id st) = getProducts st.
Proof. unfold deleteOrder. by rewrite refreshIfSet_products. Qed.

Lemma deleteOrder_orders id st :
  getOrders (deleteOrder id st) = filter (λ o, Order.id o ≠ id) (getOrders st).
Proof. unfold deleteOrder. by rewrite refreshIfSet_orders. Qed.

Lemma deleteOrder_customers id st :
  getCustomers (deleteOrder id st) = getCustomers st.
Proof. unfold deleteOrder. by rewrite refreshIfSet_customers. Qed.

End StoreFrames.

(** ** The status of a bale after a recompute *)

(** C1 (as amended).  For a bale with [itemCount > 0] that the store
    holds, [refreshBaleStatus] rewrites nothing but the status of that
    bale, and the new status obeys the policy of the code: it is
    'Sold Out' exactly when the sold count has reached [itemCount], or
    when the bale was 'Sold Out' already and the sold count is zero or
    less; with [0 < soldCount < itemCount] a bale that was 'Ordered',
    'Arrived' or 'Sold Out' goes to 'On Sale' and an 'On Sale' bale stays
    as it is; with a sold count of zero or less the status is left as it
    was; and the new status is 'Arrived' or 'Ordered' only if it was so
    before. *)
Theorem refreshBaleStatus_policy (baleId : string) (st : Store)
    (index : nat) (bale : Bale.t) :
  list_find (λ b, Bale.id b = baleId) (getBales st) = Some (index, bale) →
  Bale.itemCount bale > 0 →
  let sold := soldCount baleId st in
  let st' := refreshBaleStatus baleId st in
  ∃ status' : BaleStatus,
    getBales st' = <[index := Bale.set_status status' bale]> (getBales st)
    ∧ (status' = SoldOut ↔
         sold >= Bale.itemCount bale ∨ (Bale.status bale = SoldOut ∧ sold <= 0))
    ∧ (0 < sold < Bale.itemCount bale →
         Bale.status bale ∈ [Ordered; Arrived; SoldOut] → status' = OnSale)
    ∧ (sold < Bale.itemCount bale → Bale.status bale = OnSale →
         status' = OnSale)
    ∧ (sold <= 0 → status' = Bale.status bale)
    ∧ (status' = Arrived ∨ status' = Ordered → status' = Bale.status bale).
Proof.
  intros Hfind Hpos sold st'.
  exists (newStatus (Bale.status bale) (Bale.itemCount bale) sold).
  split; [by apply refreshBaleStatus_bales|].
  unfold newStatus. rewrite !elem_of_cons, elem_of_nil.
  destruct (Bale.status bale);
    repeat (match goal with |- context [decide ?P] => destruct (decide P) end);
    split_and!; try split; intros; try done;
    intuition (try congruence; try lia).
Qed.

Lemma refreshBaleStatus_policy_witness :
  list_find (λ b, Bale.id b = "B002") (getBales emptyStore)
    = Some (1%nat, bale002)
  ∧ Bale.itemCount bale002 > 0
  ∧ ∃ status' : BaleStatus,
      getBales (refreshBaleStatus "B002" emptyStore)
        = <[1%nat := Bale.set_status status' bale002]> (getBales emptyStore)
      ∧ (soldCount "B002" emptyStore <= 0 → status' = Arrived).
Proof.
  split; [reflexivity|]. split; [reflexivity|].
  destruct (refreshBaleStatus_policy "B002" emptyStore 1 bale002
              eq_refl eq_refl) as (s & Hb & _ & _ & _ & Hz & _).
  exists s. split; [exact Hb | exact Hz].
Defined.

(** C1, as stated, fails: once the only order of the sold-out bale is
    deleted, the sold count (0) is under [itemCount] (2) and the status
    was 'Sold Out', yet the recompute that [deleteOrder] triggers leaves
    the bale 'Sold Out' instead of demoting it to 'On Sale'. *)
Lemma sold_out_bale_stays_sold_out_at_zero :
  soldCount "B" soldOutStore = 2
  ∧ getBales soldOutStore = [Bale.mk "B" "Bale" SoldOut 1000 2]
  ∧ soldCount "B" (deleteOrder "o1" soldOutStore) = 0
  ∧ getBales (deleteOrder "o1" soldOutStore)
    = [Bale.mk "B" "Bale" SoldOut 1000 2]
  ∧ getBales (refreshBaleStatus "B" (deleteOrder "o1" soldOutStore))
    = [Bale.mk "B" "Bale" SoldOut 1000 2].
Proof. by vm_compute. Qed.

(** ** Stock and order updates *)

(** C2.  For an order the store holds, [updateOrder] adds the quantity of
    the order back to the stock of its product exactly when the shipping
    status goes to Cancelled or RTS from a status that was neither, and
    leaves every product as it was otherwise; [deleteOrder] leaves every
    product as it was, removes the order, and recomputes the status of the
    bale of the deleted order's product. *)
Theorem updateOrder_deleteOrder_stock (order : Order.t) (st : Store)
    (index : nat) (oldOrder : Order.t) :
  list_find (λ o, Order.id o = Order.id order) (getOrders st)
    = Some (index, oldOrder) →
  let returned :=
    isCancelledOrRTS (Order.shippingStatus order)
    && negb (isCancelledOrRTS (Order.shippingStatus oldOrder)) in
  getProducts (updateOrder order st)
    = (if returned then
         match list_find (λ p, Product.id p = Order.productId order)
                         (getProducts st) with
         | Some (pIndex, p) =>
             <[pIndex := Product.set_stock (λ s, s + Order.quantity order) p]>
               (getProducts st)
         | None => getProducts st
         end
       else getProducts st)
  ∧ getProducts (deleteOrder (Order.id order) st) = getProducts st
  ∧ getOrders (deleteOrder (Order.id order) st)
    = filter (λ o, Order.id o ≠ Order.id order) (getOrders st)
  ∧ (∀ j p,
       list_find (λ p, Product.id p = Order.productId oldOrder)
                 (getProducts st) = Some (j, p) →
       Product.baleBatch p ≠ "" →
       deleteOrder (Order.id order) st
       = refreshBaleStatus (Product.baleBatch p)
           (setOrders (filter (λ o, Order.id o ≠ Order.id order) (getOrders st))
                      st)).
Proof.
  intros Hfind returned. split_and!.
  - unfold updateOrder. rewrite Hfind. fold returned.
    destruct returned; [|by rewrite refreshIfSet_products].
    destruct (list_find _ (getProducts st)) as [[pIndex p]|] eqn:Hp;
      rewrite refreshIfSet_products; [|done].
    apply list_find_Some in Hp as (Hlook & _).
    unfold getProducts at 1; simpl. by apply alter_as_insert.
  - apply deleteOrder_products.
  - apply deleteOrder_orders.
  - intros j p Hp Hbale. unfold deleteOrder. rewrite Hfind, Hp.
    unfold refreshIfSet. by rewrite truthy_Some.
Qed.

Lemma updateOrder_deleteOrder_stock_witness :
  list_find (λ o, Order.id o = Order.id returnedOrder)
            (getOrders (setOrders [shippedOrder] emptyStore))
    = Some (0%nat, shippedOrder)
  ∧ Product.stock <$> getProducts (updateOrder returnedOrder
                                     (setOrders [shippedOrder] emptyStore))
    = [14; 8; 15; 5; 10]
  ∧ Product.stock <$> getProducts (deleteOrder "o1"
                                     (setOrders [shippedOrder] emptyStore))
    = [12; 8; 15; 5; 10].
Proof.
  split; [reflexivity|].
  destruct (updateOrder_deleteOrder_stock returnedOrder
              (setOrders [shippedOrder] emptyStore) 0 shippedOrder eq_refl)
    as (Hu & Hd & _).
  split.
  - rewrite Hu. reflexivity.
  - change "o1" with (Order.id returnedOrder). rewrite Hd. reflexivity.
Defined.

(** ** Customers: lookup by username, update by id *)

Section Customers.
Implicit Types (st : Store) (l : list Customer.t) (c : Customer.t).

(** With unique keys, a row is the first one that carries its key. *)
Lemma list_find_unique_key {A} (f : A → string) (l : list A) (i : nat) (x : A) :
  NoDup (f <$> l) → l !! i = Some x →
  list_find (λ y, f y = f x) l = Some (i, x).
Proof.
  intros Hnd Hi. apply list_find_Some. split_and!; [done..|].
  intros j y Hj Hlt Heq.
  assert (i = j) as -> ; [|lia].
  eapply NoDup_lookup; [exact Hnd| |].
  - by rewrite list_lookup_fmap, Hi.
  - by rewrite list_lookup_fmap, Hj; simpl; rewrite Heq.
Qed.

Lemma ids_insert l i c c' :
  l !! i = Some c → Customer.id c' = Customer.id c →
  Customer.id <$> <[i := c']> l = Customer.id <$> l.
Proof.
  intros Hi Hid. rewrite list_fmap_insert, Hid.
  apply list_insert_id. by rewrite list_lookup_fmap, Hi.
Qed.

Lemma updateCustomer_found c' st i c :
  NoDup (Customer.id <$> getCustomers st) →
  getCustomers st !! i = Some c → Customer.id c' = Customer.id c →
  updateCustomer c' st = setCustomers (<[i := c']> (getCustomers st)) st.
Proof.
  intros Hnd Hi Hid. unfold updateCustomer.
  rewrite Hid, (list_find_unique_key Customer.id _ i c); done.
Qed.

Lemma withTickets_id c : Customer.id (withTickets c) = Customer.id c.
Proof. unfold withTickets. by destruct (Customer.vipTickets c). Qed.

Lemma withTickets_username c :
  Customer.username (withTickets c) = Customer.username c.
Proof. unfold withTickets. by destruct (Customer.vipTickets c). Qed.

Lemma withTickets_is_Some c : is_Some (Customer.vipTickets (withTickets c)).
Proof. unfold withTickets. by destruct (Customer.vipTickets c) eqn:E; simpl; rewrite ?E. Qed.

(** [getOrCreateCustomer] on a known username: the stored row, with its
    ticket count filled in, in the same cell. *)
Lemma getOrCreateCustomer_found now u st i c :
  NoDup (Customer.id <$> getCustomers st) →
  list_find (λ c, Customer.username c = u) (getCustomers st) = Some (i, c) →
  getOrCreateCustomer now u st
  = (withTickets c,
     match Customer.vipTickets c with
     | None => setCustomers (<[i := withTickets c]> (getCustomers st)) st
     | Some _ => st
     end).
Proof.
  intros Hnd Hfind. unfold getOrCreateCustomer. rewrite Hfind.
  apply list_find_Some in Hfind as (Hi & _).
  unfold withTickets. destruct (Customer.vipTickets c) eqn:E; [done|].
  f_equal. by apply updateCustomer_found with c.
Qed.

Lemma getOrCreateCustomer_new now u st :
  list_find (λ c, Customer.username c = u) (getCustomers st) = None →
  getOrCreateCustomer now u st
  = (newCustomer now u,
     setCustomers (getCustomers st ++ [newCustomer now u]) st).
Proof. intros Hfind. unfold getOrCreateCustomer. by rewrite Hfind. Qed.

(** The customers after [getOrCreateCustomer] followed by an update of
    the returned row by [f], when [f] keeps the id. *)
Lemma getOrCreate_then_update now u st (f : Customer.t → Customer.t) :
  (∀ c, Customer.id (f c) = Customer.id c) →
  NoDup (Customer.id <$> getCustomers st) →
  (list_find (λ c, Customer.username c = u) (getCustomers st) = None →
   "c_" +:+ pretty now ∉ Customer.id <$> getCustomers st) →
  let r := getOrCreateCustomer now u st in
  updateCustomer (f r.1) r.2
  = setCustomers
      match list_find (λ c, Customer.username c = u) (getCustomers st) with
      | Some (i, c) => <[i := f (withTickets c)]> (getCustomers st)
      | None => getCustomers st ++ [f (newCustomer now u)]
      end st.
Proof.
  intros Hf Hnd Hfresh r. subst r.
  destruct (list_find _ (getCustomers st)) as [[i c]|] eqn:Hfind.
  - rewrite (getOrCreateCustomer_found _ _ _ _ _ Hnd Hfind); simpl.
    apply list_find_Some in Hfind as (Hi & _).
    destruct (Customer.vipTickets c) eqn:E.
    + apply updateCustomer_found with c; [done..|].
      by rewrite Hf, withTickets_id.
    + rewrite (updateCustomer_found _ _ i (withTickets c)).
      * unfold setCustomers, getCustomers; simpl.
        by rewrite list_insert_insert_eq.
      * unfold getCustomers at 1; simpl.
        rewrite (ids_insert _ _ c); [done..|apply withTickets_id].
      * unfold getCustomers at 1; simpl.
        apply list_lookup_insert_eq. by eapply lookup_lt_Some.
      * apply Hf.
  - rewrite (getOrCreateCustomer_new _ _ _ Hfind); simpl.
    specialize (Hfresh eq_refl).
    rewrite (updateCustomer_found _ _ (length (getCustomers st))
               (newCustomer now u)).
    + unfold setCustomers, getCustomers; simpl.
      rewrite insert_app_r_alt by done.
      by rewrite Nat.sub_diag.
    + unfold getCustomers at 1; simpl. rewrite fmap_app.
      apply NoDup_app. split_and!; [done| |apply NoDup_singleton].
      intros x Hx Hx'. apply list_elem_of_singleton in Hx'. by subst.
    + unfold getCustomers at 1; simpl. by apply list_lookup_middle.
    + apply Hf.
Qed.

Lemma getOrCreateCustomer_frame now u st :
  let r := getOrCreateCustomer now u st in
  PRODUCTS r.2 = PRODUCTS st ∧ ORDERS r.2 = ORDERS st ∧ BALES r.2 = BALES st.
Proof.
  unfold getOrCreateCustomer.
  destruct (list_find _ _) as [[i c]|]; simpl.
  - destruct (Customer.vipTickets c); [done|]. simpl.
    unfold updateCustomer. by destruct (list_find _ _) as [[??]|].
  - done.
Qed.
End Customers.

(** ** [addOrder] *)

Section AddOrder.
Context (now : N) (order : Order.t) (st : Store).

Let product :=
  list_find (λ p, Product.id p = Order.productId order) (getProducts st).
Let stats :=
  Customer.add_stats (Order.quantity order) (Order.totalPrice order).

(** The store once the order is pushed and the stock is taken. *)
Let st2 : Store :=
  let st1 := setOrders (getOrders st ++ [order]) st in
  match product with
  | Some (pIndex, p) =>
      if Order.isFreebie order then st1
      else setProducts
             (alter (Product.set_stock (λ s, s - Order.quantity order))
                    pIndex (getProducts st)) st1
  | None => st1
  end.

Lemma addOrder_steps :
  addOrder now order st
  = let r := getOrCreateCustomer now (Order.customerUsername order) st2 in
    refreshIfSet ((λ ip, Product.baleBatch ip.2) <$> product)
                 (updateCustomer (stats r.1) r.2).
Proof.
  unfold addOrder, st2, product, stats.
  change (getProducts (setOrders (getOrders st ++ [order]) st))
    with (getProducts st).
  destruct (list_find _ (getProducts st)) as [[pIndex p]|];
    destruct (Order.isFreebie order); simpl;
    match goal with
    | |- context [getOrCreateCustomer ?n ?u ?s] =>
        destruct (getOrCreateCustomer n u s); done
    end.
Qed.

Lemma st2_customers : getCustomers st2 = getCustomers st.
Proof.
  unfold st2. destruct product as [[pIndex p]|]; [|done].
  by destruct (Order.isFreebie order).
Qed.


Lemma st2_orders : getOrders st2 = getOrders st ++ [order].
Proof.
  unfold st2. destruct product as [[pIndex p]|]; [|done].
  by destruct (Order.isFreebie order).
Qed.


Lemma updateCustomer_frame c s :
  PRODUCTS (updateCustomer c s) = PRODUCTS s
  ∧ ORDERS (updateCustomer c s) = ORDERS s
  ∧ BALES (updateCustomer c s) = BALES s.
Proof.
  unfold updateCustomer.
  by destruct (list_find _ (getCustomers s)) as [[??]|].
Qed.

(** The store that the final recompute of [addOrder] starts from. *)
Let st4 : Store :=
  let r := getOrCreateCustomer now (Order.customerUsername order) st2 in
  updateCustomer (stats r.1) r.2.

Lemma st4_frame :
  getProducts st4 = getProducts st2 ∧ getOrders st4 = getOrders st2
  ∧ getBales st4 = getBales st2.
Proof.
  unfold st4.
  destruct (getOrCreateCustomer_frame now (Order.customerUsername order) st2)
    as (Hp & Ho & Hb).
  destruct (updateCustomer_frame
              (stats (getOrCreateCustomer now (Order.customerUsername order)
                                          st2).1)
              (getOrCreateCustomer now (Order.customerUsername order) st2).2)
    as (Hp' & Ho' & Hb').
  unfold getProducts, getOrders, getBales. simpl in *.
  by rewrite Hp', Ho', Hb', Hp, Ho, Hb.
Qed.

Lemma addOrder_final :
  addOrder now order st
  = refreshIfSet ((λ ip, Product.baleBatch ip.2) <$> product) st4.
Proof. apply addOrder_steps. Qed.

Lemma addOrder_orders : getOrders (addOrder now order st) = getOrders st ++ [order].
Proof.
  rewrite addOrder_final, refreshIfSet_orders.
  destruct st4_frame as (_ & -> & _). apply st2_orders.
Qed.


Hypothesis unique_ids : NoDup (Customer.id <$> getCustomers st).
Hypothesis fresh_id :
  list_find (λ c, Customer.username c = Order.customerUsername order)
            (getCustomers st) = None →
  "c_" +:+ pretty now ∉ Customer.id <$> getCustomers st.

Lemma addOrder_customers :
  getCustomers (addOrder now order st)
  = match list_find (λ c, Customer.username c = Order.customerUsername order)
                    (getCustomers st) with
    | Some (i, c) => <[i := stats (withTickets c)]> (getCustomers st)
    | None =>
        getCustomers st ++ [stats (newCustomer now (Order.customerUsername order))]
    end.
Proof.
  rewrite addOrder_final, refreshIfSet_customers. unfold st4.
  rewrite (getOrCreate_then_update now (Order.customerUsername order) st2 stats);
    rewrite ?st2_customers; try done.
Qed.

End AddOrder.


(** ** The stored totals of a customer *)




(** ** The cart: discount and total *)

(** C4.  The discount is 0 without a ticket or with the type NONE, the
    smaller of [vipDiscount] and the cart total for FIXED, and the cart
    total times [min(vipDiscount, 100) / 100] for PERCENTAGE; the final
    total is [max(0, cartTotal - discount)], is never negative, and is 800
    for a cart total of 1000 with PERCENTAGE 20 and 850 with FIXED 150. *)
Theorem discount_and_final_total (ui : LiveSell) :
  let total := cartTotal (cart ui) in
  (useVipTicket ui = false ∨ vipDiscountType ui = NONE →
     calculatedDiscount ui = 0%Q)
  ∧ (useVipTicket ui = true → vipDiscountType ui = FIXED →
     calculatedDiscount ui = Qmin (vipDiscount ui) total)
  ∧ (useVipTicket ui = true → vipDiscountType ui = PERCENTAGE →
     calculatedDiscount ui = (total * (Qmin (vipDiscount ui) 100 / 100))%Q)
  ∧ finalTotal ui = Qmax 0 (total - calculatedDiscount ui)
  ∧ (0 <= finalTotal ui)%Q
  ∧ (useVipTicket ui = true → vipDiscountType ui = PERCENTAGE →
     (total == 1000)%Q → (vipDiscount ui == 20)%Q → (finalTotal ui == 800)%Q)
  ∧ (useVipTicket ui = true → vipDiscountType ui = FIXED →
     (total == 1000)%Q → (vipDiscount ui == 150)%Q → (finalTotal ui == 850)%Q).
Proof.
  intros total. unfold finalTotal, calculatedDiscount.
  fold total. split_and!.
  - intros [-> | Hty]; [done|]. rewrite Hty. by destruct (useVipTicket ui).
  - by intros -> ->.
  - by intros -> ->.
  - done.
  - apply Q.le_max_l.
  - intros -> -> Ht Hd; simpl. by rewrite Ht, Hd.
  - intros -> -> Ht Hd; simpl. by rewrite Ht, Hd.
Qed.

Lemma discount_and_final_total_witness :
  (cartTotal (cart (discountedCart PERCENTAGE 20)) == 1000)%Q
  ∧ (finalTotal (discountedCart PERCENTAGE 20) == 800)%Q
  ∧ (finalTotal (discountedCart FIXED 150) == 850)%Q.
Proof.
  split; [reflexivity|]. split.
  - destruct (discount_and_final_total (discountedCart PERCENTAGE 20))
      as (_ & _ & _ & _ & _ & Hp & _).
    apply Hp; reflexivity.
  - destruct (discount_and_final_total (discountedCart FIXED 150))
      as (_ & _ & _ & _ & _ & _ & Hf).
    apply Hf; reflexivity.
Defined.

(** ** The cart: adding a line *)

Lemma getBaleStats_found (st : Store) (cart : list CartItem.t)
    (baleId : string) (index : nat) (bale : Bale.t) :
  list_find (λ b, Bale.id b = baleId) (getBales st) = Some (index, bale) →
  let inCart :=
    totalItemsInCart (filter (λ item, CartItem.baleId item = baleId) cart) in
  BaleStats.remaining (getBaleStats st cart baleId)
    = Z.max 0 (Bale.itemCount bale - (soldCount baleId st + inCart))
  ∧ BaleStats.total (getBaleStats st cart baleId) = Bale.itemCount bale
  ∧ BaleStats.sold (getBaleStats st cart baleId) = soldCount baleId st + inCart.
Proof. intros Hfind. unfold getBaleStats. by rewrite Hfind. Qed.




Section AddToCart.
Context (st : Store) (ui : LiveSell) (index : nat) (bale : Bale.t).
Context (inputPrice : Q) (isFreebie : bool).

Hypothesis not_restricted : isRestricted ui = false.
Hypothesis bale_selected : selectedBaleId ui ≠ "".
Hypothesis bale_found :
  list_find (λ b, Bale.id b = selectedBaleId ui) (getBales st)
    = Some (index, bale).

Let price : Q := if isFreebie then 0%Q else inputPrice.
Let capacity : Z := Bale.itemCount bale - soldCount (selectedBaleId ui) st.

(** The state of the view with the cart [c], after an accepted add. *)
Let added (c : list CartItem.t) : LiveSell := setCustomPrice "" (setCart c ui).

Let line (id : string) (n : Z) : CartItem.t :=
  CartItem.mk id price n isFreebie (selectedBaleId ui).

Lemma addToCart_accepted now rnd :
  totalItemsInCart
    (filter (λ item, CartItem.baleId item = selectedBaleId ui) (cart ui))
    < capacity →
  addToCart now rnd inputPrice isFreebie st ui
  = added (addLine now rnd price isFreebie (selectedBaleId ui) (cart ui)).
Proof.
  intros Hcap. unfold addToCart. rewrite not_restricted.
  rewrite decide_False by done.
  destruct (getBaleStats_found st (cart ui) _ _ _ bale_found) as (Hr & _).
  rewrite decide_False; [done|]. rewrite Hr. unfold capacity in Hcap. lia.
Qed.

Lemma addToCart_added now rnd (c : list CartItem.t) :
  totalItemsInCart
    (filter (λ item, CartItem.baleId item = selectedBaleId ui) c) < capacity →
  addToCart now rnd inputPrice isFreebie st (added c)
  = added (addLine now rnd price isFreebie (selectedBaleId ui) c).
Proof.
  intros Hcap. unfold addToCart.
  change (isRestricted (added c)) with (isRestricted ui).
  rewrite not_restricted.
  change (selectedBaleId (added c)) with (selectedBaleId ui).
  change (cart (added c)) with c.
  rewrite decide_False by done.
  destruct (getBaleStats_found st c _ _ _ bale_found) as (Hr & _).
  rewrite decide_False; [done|]. rewrite Hr. unfold capacity in Hcap. lia.
Qed.

Lemma addLine_same now rnd id n :
  addLine now rnd price isFreebie (selectedBaleId ui) [line id n]
  = [line id (n + 1)].
Proof.
  unfold addLine; simpl. rewrite decide_True; [done|].
  split_and!; [apply Qeq_refl|done..].
Qed.

Lemma add_more (rest : list (N * string)) id n :
  0 <= n → n + Z.of_nat (length rest) <= capacity →
  cart (foldl (λ u call, addToCart call.1 call.2 inputPrice isFreebie st u)
              (added [line id n]) rest)
  = [line id (n + Z.of_nat (length rest))].
Proof.
  revert n. induction rest as [|[now rnd] rest IH]; intros n Hn Hcap.
  - simpl. by rewrite Z.add_0_r.
  - cbn [foldl fst snd]. rewrite addToCart_added.
    + rewrite addLine_same, IH; [|lia|].
      * f_equal. f_equal. cbn [length]. lia.
      * rewrite length_cons in Hcap. lia.
    + rewrite filter_cons_True, filter_nil by done.
      rewrite length_cons in Hcap. unfold totalItemsInCart; simpl. lia.
Qed.

(** Repeated adds of one price from an empty cart, within the capacity of
    the bale, give one line that counts the calls. *)
Lemma addToCartTimes_one_line now1 rnd1 (rest : list (N * string)) :
  cart ui = [] →
  Z.of_nat (length ((now1, rnd1) :: rest)) <= capacity →
  cart (addToCartTimes ((now1, rnd1) :: rest) inputPrice isFreebie st ui)
  = [line ("c_" +:+ pretty now1 +:+ "_" +:+ rnd1)
          (Z.of_nat (length ((now1, rnd1) :: rest)))].
Proof.
  intros Hempty Hcap. unfold addToCartTimes. cbn [foldl fst snd].
  rewrite length_cons in Hcap.
  rewrite addToCart_accepted.
  - rewrite Hempty. unfold addLine; simpl.
    fold price. fold (line ("c_" +:+ pretty now1 +:+ "_" +:+ rnd1) 1).
    rewrite add_more by lia. f_equal. f_equal. cbn [length]. lia.
  - rewrite Hempty. unfold totalItemsInCart; simpl. lia.
Qed.
End AddToCart.

(** ** Checkout *)

Section CheckoutOrders.
Context `{NumberToString}.
Context (now : N) (st : Store) (ui : LiveSell) (s : LiveSession.t).

Hypothesis in_session : session ui = Some s.
Hypothesis accepted : checkoutAccepted now st ui.

Lemma handleCheckout_accepted :
  handleCheckout now st ui
  = (clearTransaction
       (if useVipTicket ui
        then setAllCustomers (getCustomers (ticketTaken now st ui).2) ui
        else ui),
     foldl (λ s' ii, checkoutItem now ui (LiveSession.id s)
                                  (ticketTaken now st ui).1 s' ii.1 ii.2)
           (ticketTaken now st ui).2 (imap pair (cart ui))).
Proof.
  destruct accepted as (_ & Huser & Hblack & Hticket).
  unfold handleCheckout, ticketTaken. rewrite in_session.
  rewrite decide_False by done.
  destruct (getOrCreateCustomer now (username ui) st) as [customer st1].
  simpl in *. rewrite Hblack.
  destruct (useVipTicket ui) eqn:Hvip; simpl.
  - destruct (Hticket eq_refl) as (Hfixed & t & Ht & Hpos).
    assert (bool_decide (vipDiscountType ui = FIXED)
            && bool_decide (cartTotal (cart ui) < vipDiscount ui)%Q = false)
      as ->.
    { apply andb_false_iff.
      destruct (decide (vipDiscountType ui = FIXED)) as [Hty|Hty].
      - right. apply bool_decide_eq_false. apply Qle_not_lt. by apply Hfixed.
      - left. by apply bool_decide_eq_false. }
    rewrite Ht. rewrite decide_True by done. done.
  - done.
Qed.

Lemma updateProduct_orders p s' : getOrders (updateProduct p s') = getOrders s'.
Proof.
  unfold updateProduct.
  by destruct (list_find _ (getProducts s')) as [[??]|].
Qed.

Lemma checkoutItem_orders customer s' idx item :
  getOrders (checkoutItem now ui (LiveSession.id s) customer s' idx item)
  = getOrders s'
      ++ [checkoutOrder now ui (LiveSession.id s) (Customer.id customer) idx item].
Proof. unfold checkoutItem. by rewrite addOrder_orders, updateProduct_orders. Qed.

Lemma checkout_loop_orders customer (l : list (nat * CartItem.t)) s' :
  getOrders (foldl (λ s' ii, checkoutItem now ui (LiveSession.id s) customer
                                          s' ii.1 ii.2) s' l)
  = getOrders s'
      ++ ((λ ii, checkoutOrder now ui (LiveSession.id s) (Customer.id customer)
                               ii.1 ii.2) <$> l).
Proof.
  revert s'. induction l as [|[idx item] l IH]; intros s'; simpl.
  - by rewrite app_nil_r.
  - by rewrite IH, checkoutItem_orders, <-app_assoc.
Qed.

Lemma ticketTaken_orders : getOrders (ticketTaken now st ui).2 = getOrders st.
Proof.
  unfold ticketTaken.
  destruct (getOrCreateCustomer_frame now (username ui) st) as (_ & Ho & _).
  destruct (useVipTicket ui); simpl.
  - match goal with
    | |- context [updateCustomer ?c ?s'] =>
        destruct (updateCustomer_frame c s') as (_ & Ho' & _)
    end.
    unfold getOrders. by rewrite Ho', Ho.
  - unfold getOrders. by rewrite Ho.
Qed.

Lemma ticketTaken_id :
  Customer.id (ticketTaken now st ui).1
  = Customer.id (getOrCreateCustomer now (username ui) st).1.
Proof. unfold ticketTaken. by destruct (useVipTicket ui). Qed.


(** An accepted checkout appends one order per cart line, in the order of
    the cart. *)
Lemma handleCheckout_orders :
  getOrders (handleCheckout now st ui).2
  = getOrders st
      ++ imap (checkoutOrder now ui (LiveSession.id s)
                 (Customer.id (getOrCreateCustomer now (username ui) st).1))
              (cart ui).
Proof.
  rewrite handleCheckout_accepted; simpl.
  rewrite checkout_loop_orders, ticketTaken_orders, ticketTaken_id.
  f_equal. rewrite fmap_imap. by apply imap_ext.
Qed.
End CheckoutOrders.

(** C6 (as amended).  For a customer who is not blacklisted and a selected
    bale that the store holds: a call of [addToCart] made while the bale
    has capacity left either adds one to the quantity of the existing line
    with the same price, freebie flag and bale id, which moves to the
    front of the cart, or puts a new line of quantity 1 at the front when
    there is no such line; a call made without capacity left leaves the
    cart as it is; so, from an empty cart and within the capacity of the
    bale, repeated adds of one price give a single line whose quantity is
    the number of calls and whose total is that number times the price;
    and a checkout that passes its guards appends one order per cart line,
    carrying the quantity, freebie flag and product id of its line and,
    without a ticket, the total of its line. *)
Theorem addToCart_consolidates `{NumberToString} (st : Store) (ui : LiveSell)
    (index : nat) (bale : Bale.t) (inputPrice : Q) (isFreebie : bool) :
  isRestricted ui = false →
  selectedBaleId ui ≠ "" →
  list_find (λ b, Bale.id b = selectedBaleId ui) (getBales st)
    = Some (index, bale) →
  let price := if isFreebie then 0%Q else inputPrice in
  let capacity := Bale.itemCount bale - soldCount (selectedBaleId ui) st in
  let inCart :=
    totalItemsInCart
      (filter (λ item, CartItem.baleId item = selectedBaleId ui) (cart ui)) in
  (∀ now rnd, inCart < capacity →
     cart (addToCart now rnd inputPrice isFreebie st ui)
     = match list_find (λ i, (CartItem.price i == price)%Q
                             ∧ CartItem.isFreebie i = isFreebie
                             ∧ CartItem.baleId i = selectedBaleId ui)
                       (cart ui) with
       | Some (idx, existing) =>
           CartItem.set_quantity (CartItem.quantity existing + 1) existing
             :: delete idx (cart ui)
       | None =>
           CartItem.mk ("c_" +:+ pretty now +:+ "_" +:+ rnd) price 1 isFreebie
                       (selectedBaleId ui) :: cart ui
       end)
  ∧ (∀ now rnd, capacity <= inCart →
       cart (addToCart now rnd inputPrice isFreebie st ui) = cart ui)
  ∧ (∀ now1 rnd1 rest,
       cart ui = [] →
       let n := Z.of_nat (length ((now1, rnd1) :: rest)) in
       n <= capacity →
       let ui' :=
         addToCartTimes ((now1, rnd1) :: rest) inputPrice isFreebie st ui in
       cart ui' = [CartItem.mk ("c_" +:+ pretty now1 +:+ "_" +:+ rnd1) price n
                               isFreebie (selectedBaleId ui)]
       ∧ (cartTotal (cart ui') == price * inject_Z n)%Q)
  ∧ (∀ now s,
       session ui = Some s → checkoutAccepted now st ui →
       let customerId :=
         Customer.id (getOrCreateCustomer now (username ui) st).1 in
       getOrders (handleCheckout now st ui).2
       = getOrders st
           ++ imap (checkoutOrder now ui (LiveSession.id s) customerId) (cart ui)
       ∧ ∀ idx item,
           let o := checkoutOrder now ui (LiveSession.id s) customerId idx item in
           Order.quantity o = CartItem.quantity item
           ∧ Order.isFreebie o = CartItem.isFreebie item
           ∧ Order.productId o = deterministicProdId item
           ∧ (useVipTicket ui = false → Order.totalPrice o = lineTotal item)).
Proof.
  intros Hres Hsel Hfind price capacity inCart. split_and!.
  - intros now rnd Hcap.
    rewrite (addToCart_accepted st ui index bale inputPrice isFreebie
               Hres Hsel Hfind now rnd Hcap).
    done.
  - intros now rnd Hcap. unfold addToCart. rewrite Hres.
    rewrite decide_False by done.
    destruct (getBaleStats_found st (cart ui) _ _ _ Hfind) as (Hr & _).
    rewrite decide_True; [done|]. rewrite Hr. fold inCart.
    unfold capacity in Hcap. lia.
  - intros now1 rnd1 rest Hempty n Hcap ui'. subst ui'.
    rewrite (addToCartTimes_one_line st ui index bale inputPrice isFreebie
               Hres Hsel Hfind now1 rnd1 rest Hempty Hcap).
    split; [done|]. unfold cartTotal, lineTotal. cbn [foldl CartItem.price CartItem.quantity].
    apply Qplus_0_l.
  - intros now s Hs Hacc customerId. split.
    + by apply handleCheckout_orders.
    + intros idx item o. subst o. split_and!; [done..|].
      intros Hvip. unfold checkoutOrder, finalItemTotal, discounted; simpl.
      by rewrite Hvip.
Qed.

Lemma addToCart_consolidates_witness :
  let ui := sellingTo "dogmom_ph" "B001" in
  let ui3 := addToCartTimes threeCalls 100 false emptyStore ui in
  isRestricted ui = false
  ∧ selectedBaleId ui ≠ ""
  ∧ list_find (λ b, Bale.id b = selectedBaleId ui) (getBales emptyStore)
    = Some (0%nat, Bale.mk "B001" "Spring/Summer Selection 2024" OnSale 12000 300)
  ∧ cart ui3 = [CartItem.mk "c_1_r1" 100 3 false "B001"]
  ∧ (cartTotal (cart ui3) == 300)%Q
  ∧ checkoutAccepted 9 emptyStore ui3
  ∧ (λ o, (Order.quantity o, Order.totalPrice o))
      <$> getOrders (@handleCheckout wholeNumberToString 9 emptyStore ui3).2
    = [(3, 300%Q)].
Proof.
  intros ui ui3.
  assert (isRestricted ui = false) as Hres by reflexivity.
  assert (selectedBaleId ui ≠ "") as Hsel by done.
  assert (checkoutAccepted 9 emptyStore ui3) as Hacc.
  { split; [by eexists|]. split; [done|]. split; [reflexivity|].
    intros Hvip. discriminate Hvip. }
  split; [exact Hres|]. split; [exact Hsel|]. split; [reflexivity|].
  destruct (@addToCart_consolidates wholeNumberToString emptyStore ui 0
              (Bale.mk "B001" "Spring/Summer Selection 2024" OnSale 12000 300)
              100 false Hres Hsel eq_refl)
    as (_ & _ & Hmany & _).
  destruct (Hmany 1%N "r1" [(2%N, "r2"); (3%N, "r3")] eq_refl) as (Hcart & Htotal).
  { vm_compute. discriminate. }
  split; [exact Hcart|]. split; [exact Htotal|]. split; [exact Hacc|].
  destruct (@addToCart_consolidates wholeNumberToString emptyStore ui3 0
              (Bale.mk "B001" "Spring/Summer Selection 2024" OnSale 12000 300)
              100 false eq_refl Hsel eq_refl)
    as (_ & _ & _ & Hcheckout).
  destruct (Hcheckout 9%N liveSession eq_refl Hacc) as (Horders & _).
  rewrite Horders. reflexivity.
Defined.

(** C6, as stated, fails: on a bale of two items with nothing sold, three
    adds of the price 100 from an empty cart give one line of quantity 2,
    not 3: the third call finds no capacity left and neither increments a
    line nor adds one. *)
Lemma third_add_is_blocked_without_capacity :
  let ui := sellingTo "dogmom_ph" "B" in
  let ui2 := addToCartTimes [(1%N, "r1"); (2%N, "r2")] 100 false smallBaleStore ui in
  isRestricted ui = false
  ∧ cart ui2 = [CartItem.mk "c_1_r1" 100 2 false "B"]
  ∧ cart (addToCart 3 "r3" 100 false smallBaleStore ui2) = cart ui2
  ∧ cart (addToCartTimes threeCalls 100 false smallBaleStore ui)
    = [CartItem.mk "c_1_r1" 100 2 false "B"].
Proof. by vm_compute. Qed.

(** ** The Orders view: a grouped edit written back to its rows *)

Section HandleUpdate.
Context (updated : GroupedOrder) (newLog : option string).

(** One turn of the loop over [updated.ids]. *)
Let step (s : Store) (id : string) : Store :=
  match list_find (λ o, Order.id o = id) (getOrders s) with
  | Some (_, original) => updateOrder (updatedRow updated newLog original) s
  | None => s
  end.

Lemma updateOrder_orders (o : Order.t) (s : Store) i old :
  list_find (λ x, Order.id x = Order.id o) (getOrders s) = Some (i, old) →
  getOrders (updateOrder o s) = <[i := o]> (getOrders s).
Proof.
  intros Hfind. unfold updateOrder. rewrite Hfind.
  destruct (_ && _); [|by rewrite refreshIfSet_orders].
  destruct (list_find _ (getProducts s)) as [[pIndex p]|];
    by rewrite refreshIfSet_orders.
Qed.

Lemma step_orders (s : Store) (id : string) :
  getOrders (step s id)
  = match list_find (λ o, Order.id o = id) (getOrders s) with
    | Some (i, original) =>
        <[i := updatedRow updated newLog original]> (getOrders s)
    | None => getOrders s
    end.
Proof.
  unfold step.
  destruct (list_find _ (getOrders s)) as [[i original]|] eqn:Hfind; [|done].
  apply updateOrder_orders with original.
  apply list_find_Some in Hfind as Hfind'. destruct Hfind' as (_ & Hid & _).
  simpl. by rewrite Hid.
Qed.

(** A row whose id is not among the ids still to be processed stays. *)
Lemma loop_keeps_row (l : list string) (s : Store) (i : nat) (o : Order.t) :
  getOrders s !! i = Some o → Order.id o ∉ l →
  getOrders (foldl step s l) !! i = Some o.
Proof.
  revert s. induction l as [|id l IH]; intros s Hi Hnot; [done|].
  apply not_elem_of_cons in Hnot as (Hne & Hnot).
  simpl. apply IH; [|done]. rewrite step_orders.
  destruct (list_find _ (getOrders s)) as [[j x]|] eqn:Hfind; [|done].
  apply list_find_Some in Hfind as (Hj & Hid & _).
  rewrite list_lookup_insert_ne; [done|].
  intros ->. congruence.
Qed.

(** Rewriting a row in place keeps the first row of every other id. *)
Lemma step_keeps_find (s : Store) (id id' : string) i original :
  id ≠ id' →
  list_find (λ o, Order.id o = id') (getOrders s) = Some (i, original) →
  list_find (λ o, Order.id o = id') (getOrders (step s id)) = Some (i, original).
Proof.
  intros Hne Hfind. rewrite step_orders.
  destruct (list_find (λ o, Order.id o = id) (getOrders s))
    as [[j x]|] eqn:Hj; [|done].
  apply list_find_Some in Hj as (Hjx & Hjid & _).
  apply list_find_Some in Hfind as (Hi & Hid & Hfirst).
  assert (i ≠ j) as Hij by (intros ->; congruence).
  apply list_find_Some. split_and!; [|done|].
  - by rewrite list_lookup_insert_ne.
  - intros k y Hk Hlt.
    destruct (decide (k = j)) as [->|Hkj].
    + rewrite list_lookup_insert_eq in Hk by (by eapply lookup_lt_Some).
      injection Hk as <-. simpl. congruence.
    + rewrite list_lookup_insert_ne in Hk by done. by eapply Hfirst.
Qed.

Lemma loop_updates_row (l : list string) (s : Store) id i original :
  NoDup l → id ∈ l →
  list_find (λ o, Order.id o = id) (getOrders s) = Some (i, original) →
  getOrders (foldl step s l) !! i = Some (updatedRow updated newLog original).
Proof.
  revert s. induction l as [|id0 l IH]; intros s Hnd Hin Hfind.
  - by apply elem_of_nil in Hin.
  - apply NoDup_cons in Hnd as (Hnot & Hnd). simpl.
    destruct (decide (id0 = id)) as [->|Hne].
    + apply loop_keeps_row.
      * rewrite step_orders, Hfind.
        apply list_find_Some in Hfind as (Hi & _).
        apply list_lookup_insert_eq. by eapply lookup_lt_Some.
      * apply list_find_Some in Hfind as (_ & Hid & _). simpl. by rewrite Hid.
    + apply IH; [done| |by apply step_keeps_find].
      apply elem_of_cons in Hin as [->|Hin]; done.
Qed.

(** C3 (as amended).  When the ids of the group are distinct,
    [handleUpdate] rewrites the stored row of every id of the group: its
    [amountPaid] becomes its own [totalPrice] if the new payment status
    is Paid, 0 if it is Unpaid, and for Partial its [totalPrice] times
    (amount paid of the group / sum of the [totalPrice] of the items),
    or times 0 when that sum is not positive; its payment status,
    shipping status, payment method and reference number become those of
    the group (the status is not decided per row), and its id, quantity
    and price stay. *)
Theorem handleUpdate_propagates (st : Store) (id : string) (i : nat)
    (original : Order.t) :
  NoDup (ids updated) →
  id ∈ ids updated →
  list_find (λ o, Order.id o = id) (getOrders st) = Some (i, original) →
  let status := Order.paymentStatus (base updated) in
  let total :=
    foldl (λ sum i, sum + Order.totalPrice i)%Q 0%Q (items updated) in
  ∃ row,
    getOrders (handleUpdate updated newLog st) !! i = Some row
    ∧ Order.id row = id
    ∧ Order.quantity row = Order.quantity original
    ∧ Order.totalPrice row = Order.totalPrice original
    ∧ Order.paymentStatus row = status
    ∧ Order.shippingStatus row = Order.shippingStatus (base updated)
    ∧ Order.paymentMethod row = Order.paymentMethod (base updated)
    ∧ Order.referenceNumber row = Order.referenceNumber (base updated)
    ∧ (status = PAID → Order.amountPaid row = Order.totalPrice original)
    ∧ (status = UNPAID → Order.amountPaid row = 0%Q)
    ∧ (status = PARTIAL → (0 < total)%Q →
       Order.amountPaid row
       = (Order.totalPrice original
          * (Order.amountPaid (base updated) / total))%Q)
    ∧ (status = PARTIAL → ¬ (0 < total)%Q →
       Order.amountPaid row = (Order.totalPrice original * 0)%Q).
Proof.
  intros Hnd Hin Hfind status total.
  exists (updatedRow updated newLog original). split.
  { by apply loop_updates_row with id. }
  apply list_find_Some in Hfind as (_ & Hid & _).
  unfold updatedRow, newItemPaidAmount; simpl. subst status total.
  split_and!; try done.
  - intros Hs. by rewrite Hs.
  - intros Hs. by rewrite Hs.
  - intros Hs Hpos. rewrite Hs; simpl. by destruct (decide _).
  - intros Hs Hpos. rewrite Hs; simpl. by destruct (decide _).
Qed.
End HandleUpdate.

Lemma handleUpdate_propagates_witness :
  NoDup (ids (editedGroup PARTIAL 250))
  ∧ "o2" ∈ ids (editedGroup PARTIAL 250)
  ∧ list_find (λ o, Order.id o = "o2") (getOrders twoItemStore)
    = Some (1%nat, item400)
  ∧ ∃ row,
      getOrders (handleUpdate (editedGroup PARTIAL 250) None twoItemStore)
        !! 1%nat = Some row
      ∧ Order.paymentStatus row = PARTIAL
      ∧ (Order.amountPaid row == 200)%Q.
Proof.
  assert (NoDup (ids (editedGroup PARTIAL 250))) as Hnd
    by (apply (bool_decide_unpack _); vm_compute; exact I).
  assert ("o2" ∈ ids (editedGroup PARTIAL 250)) as Hin
    by (apply (bool_decide_unpack _); vm_compute; exact I).
  split; [exact Hnd|]. split; [exact Hin|]. split; [reflexivity|].
  destruct (handleUpdate_propagates (editedGroup PARTIAL 250) None twoItemStore
              "o2" 1 item400 Hnd Hin eq_refl)
    as (row & Hrow & _ & _ & _ & Hst & _ & _ & _ & _ & _ & Hpartial & _).
  exists row. split; [exact Hrow|]. split; [exact Hst|].
  rewrite Hpartial; reflexivity.
Defined.

(** C3, as stated, fails: a group of 500 saved as Partial with nothing
    paid leaves each row with a paid amount of 0 (which the claim calls
    Unpaid), and saved as Partial with 500 paid leaves each row paid in
    full (which the claim calls Paid); [handleUpdate] gives both rows the
    status of the group, Partial. *)
Lemma partial_status_is_not_decided_per_row :
  (λ o, (Order.paymentStatus o, Qred (Order.amountPaid o), Order.totalPrice o))
    <$> getOrders (handleUpdate (editedGroup PARTIAL 0) None twoItemStore)
  = [(PARTIAL, 0%Q, 100%Q); (PARTIAL, 0%Q, 400%Q)]
  ∧ (λ o, (Order.paymentStatus o, Qred (Order.amountPaid o), Order.totalPrice o))
      <$> getOrders (handleUpdate (editedGroup PARTIAL 500) None twoItemStore)
    = [(PARTIAL, 100%Q, 100%Q); (PARTIAL, 400%Q, 400%Q)].
Proof. by vm_compute. Qed.

(** ** VIP tickets on deletion and edit *)

Section Tickets.
Context (now : N) (st : Store) (u : string) (i : nat) (c : Customer.t).

Hypothesis unique_ids : NoDup (Customer.id <$> getCustomers st).
Hypothesis known :
  list_find (λ c, Customer.username c = u) (getCustomers st) = Some (i, c).

Lemma deleteOrders_customers (l : list Order.t) (s : Store) :
  getCustomers (deleteOrders l s) = getCustomers s.
Proof.
  revert s. induction l as [|o l IH]; intros s; [done|].
  simpl. fold (deleteOrders l (deleteOrder (Order.id o) s)).
  by rewrite IH, deleteOrder_customers.
Qed.

Lemma deleteOrders_orders (l : list Order.t) (s : Store) :
  getOrders (deleteOrders l s)
  = filter (λ o, Order.id o ∉ Order.id <$> l) (getOrders s).
Proof.
  revert s. induction l as [|o l IH]; intros s.
  - simpl. symmetry. induction (getOrders s) as [|x k IHk]; [done|].
    rewrite filter_cons_True; [by rewrite IHk | apply not_elem_of_nil].
  - simpl. fold (deleteOrders l (deleteOrder (Order.id o) s)).
    rewrite IH, deleteOrder_orders, list_filter_filter.
    apply list_filter_iff. intros x. rewrite not_elem_of_cons. tauto.
Qed.

(** Once the orders of a customer in a session are deleted, none is left. *)
Lemma sessionOrders_deleted (sessionId : string) (s : Store) :
  sessionOrdersOf sessionId u
    (deleteOrders (sessionOrdersOf sessionId u s) s) = [].
Proof.
  apply elem_of_nil_inv. intros x Hx.
  unfold sessionOrdersOf at 1 in Hx.
  apply list_elem_of_filter in Hx as (HP & Hx).
  rewrite deleteOrders_orders in Hx.
  apply list_elem_of_filter in Hx as (Hnot & Hx).
  apply Hnot, list_elem_of_fmap_2. unfold sessionOrdersOf.
  by apply list_elem_of_filter.
Qed.

Lemma updateCustomer_orders (x : Customer.t) (s : Store) :
  getOrders (updateCustomer x s) = getOrders s.
Proof.
  destruct (updateCustomer_frame x s) as (_ & Ho & _).
  unfold getOrders. by rewrite Ho.
Qed.

Lemma returnTicket_orders (s : Store) :
  getOrders (returnTicket now u s) = getOrders s.
Proof.
  unfold returnTicket.
  destruct (getOrCreateCustomer_frame now u s) as (_ & Ho & _).
  destruct (getOrCreateCustomer now u s) as [cust s1]. simpl in Ho.
  rewrite updateCustomer_orders. unfold getOrders. by rewrite Ho.
Qed.

Lemma returnTicket_customers (s : Store) :
  getCustomers s = getCustomers st →
  getCustomers (returnTicket now u s) = <[i := addTicket c]> (getCustomers st).
Proof.
  intros Hs. unfold returnTicket.
  pose proof (getOrCreate_then_update now u s
                (λ x, Customer.set_vipTickets
                        ((λ t, t + 1) <$> Customer.vipTickets x) x)) as Hupd.
  simpl in Hupd.
  destruct (getOrCreateCustomer now u s) as [cust s1]. simpl in Hupd.
  rewrite Hupd; [|done|by rewrite Hs|by rewrite Hs, known].
  rewrite Hs, known. unfold setCustomers, getCustomers at 1; simpl.
  f_equal. unfold addTicket, withTickets.
  by destruct c as [? ? ? [t|] ? ? ?].
Qed.

(** The customers after the orders of [u] in a session are deleted and a
    ticket is returned if one of them used one. *)
Let returned (userOrders : list Order.t) : list Customer.t :=
  if someUsedVipTicket userOrders
  then <[i := addTicket c]> (getCustomers st) else getCustomers st.

Lemma handleManualDelete_customers sessionId m :
  u ≠ "" → deleteTargetUser m = Some u →
  let st' := (handleManualDelete now sessionId st m).2 in
  getCustomers st' = returned (sessionOrdersOf sessionId u st)
  ∧ sessionOrdersOf sessionId u st' = [].
Proof.
  intros Hu Hm. unfold handleManualDelete. rewrite Hm, truthy_Some by done.
  simpl. unfold returned.
  destruct (someUsedVipTicket _).
  - split.
    + apply returnTicket_customers, deleteOrders_customers.
    + unfold sessionOrdersOf at 1. rewrite returnTicket_orders.
      apply sessionOrders_deleted.
  - split; [apply deleteOrders_customers | apply sessionOrders_deleted].
Qed.

Lemma handleEditCustomer_proceeds confirmed ui s first rest :
  session ui = Some s →
  sessionOrdersOf (LiveSession.id s) u st = first :: rest →
  cart ui = [] ∨ username ui = u ∨ confirmed = true →
  let r := handleEditCustomer now confirmed u st ui in
  session r.1 = Some s
  ∧ useVipTicket r.1 = someUsedVipTicket (first :: rest)
  ∧ cart r.1 = restoredItem (getProducts st) <$> (first :: rest)
  ∧ getCustomers r.2 = returned (first :: rest)
  ∧ sessionOrdersOf (LiveSession.id s) u r.2 = [].
Proof.
  intros Hs Horders Hconfirm. unfold handleEditCustomer. rewrite Hs, Horders.
  assert (bool_decide (cart ui ≠ []) && bool_decide (username ui ≠ u)
          && negb confirmed = false) as ->.
  { destruct Hconfirm as [Hc|[Hc| ->]].
    - by rewrite bool_decide_eq_false_2 by (by intros []).
    - rewrite (bool_decide_eq_false_2 (username ui ≠ u)) by (by intros []).
      by rewrite andb_false_r.
    - by rewrite andb_false_r. }
  unfold returned. rewrite <-Horders.
  destruct (someUsedVipTicket _); simpl; (split; [done|]); (split; [done|]);
    (split; [done|]); split.
  - apply returnTicket_customers, deleteOrders_customers.
  - unfold sessionOrdersOf at 1. rewrite returnTicket_orders.
    apply sessionOrders_deleted.
  - apply deleteOrders_customers.
  - apply sessionOrders_deleted.
Qed.

Lemma handleEditCustomer_nothing_left now' confirmed ui s s' :
  session ui = Some s →
  sessionOrdersOf (LiveSession.id s) u s' = [] →
  handleEditCustomer now' confirmed u s' ui = (ui, s').
Proof.
  intros Hs Hnone. unfold handleEditCustomer. by rewrite Hs, Hnone.
Qed.
End Tickets.

Lemma list_find_insert_same {A} (P : A → Prop) `{!∀ x, Decision (P x)}
    (l : list A) (i : nat) (x y : A) :
  list_find P l = Some (i, x) → P y →
  list_find P (<[i := y]> l) = Some (i, y).
Proof.
  intros (Hi & _ & Hfirst)%list_find_Some Hy.
  apply list_find_Some. split_and!; [|done|].
  - apply list_lookup_insert_eq. by eapply lookup_lt_Some.
  - intros j z Hj Hlt. rewrite list_lookup_insert_ne in Hj by lia.
    by eapply Hfirst.
Qed.

Section TicketRoundTrip.
Context `{NumberToString}.
Context (now : N) (st : Store) (ui : LiveSell) (s : LiveSession.t).
Context (i : nat) (c : Customer.t) (t : Z).

Hypothesis unique_ids : NoDup (Customer.id <$> getCustomers st).
Hypothesis known :
  list_find (λ c, Customer.username c = username ui) (getCustomers st)
    = Some (i, c).
Hypothesis tickets : Customer.vipTickets c = Some t.
Hypothesis in_session : session ui = Some s.
Hypothesis with_ticket : useVipTicket ui = true.
Hypothesis accepted : checkoutAccepted now st ui.

(** A row in the cell of the customer that differs from the stored one in
    its totals only, with the ticket of the checkout taken. *)
Let taken (x : Customer.t) : Prop :=
  Customer.id x = Customer.id c
  ∧ Customer.username x = Customer.username c
  ∧ Customer.vipTickets x = Some (t - 1).

Lemma ticketTaken_customers :
  ∃ x, taken x ∧ Customer.id (ticketTaken now st ui).1 = Customer.id c
       ∧ getCustomers (ticketTaken now st ui).2 = <[i := x]> (getCustomers st).
Proof.
  unfold ticketTaken. rewrite with_ticket.
  rewrite (getOrCreateCustomer_found _ _ _ _ _ unique_ids known).
  rewrite tickets. simpl.
  assert (withTickets c = c) as -> by (unfold withTickets; by rewrite tickets).
  rewrite tickets. simpl.
  exists (Customer.set_vipTickets (Some (t - 1)) c).
  apply list_find_Some in known as (Hi & _).
  split; [done|]. split; [done|].
  by rewrite (updateCustomer_found _ _ i c).
Qed.

Lemma checkoutItem_customers customer (s' : Store) idx item x :
  taken x → getCustomers s' = <[i := x]> (getCustomers st) →
  ∃ y, taken y
       ∧ getCustomers (checkoutItem now ui (LiveSession.id s) customer s' idx item)
         = <[i := y]> (getCustomers st).
Proof.
  intros (Hid & Hname & Htk) Hs'. unfold checkoutItem.
  set (o := checkoutOrder _ _ _ _ _ _).
  set (s'' := updateProduct _ _).
  assert (getCustomers s'' = <[i := x]> (getCustomers st)) as Hs''.
  { subst s''. unfold updateProduct.
    by destruct (list_find _ (getProducts s')) as [[??]|]. }
  pose proof known as (Hi & Hu & _)%list_find_Some.
  assert (list_find (λ c, Customer.username c = Order.customerUsername o)
                    (getCustomers s'') = Some (i, x)) as Hfind.
  { rewrite Hs''. apply list_find_insert_same with c; [done|].
    simpl. congruence. }
  rewrite addOrder_customers, Hfind, Hs''.
  - rewrite list_insert_insert_eq.
    exists (Customer.add_stats (Order.quantity o) (Order.totalPrice o)
                               (withTickets x)).
    split; [|done].
    unfold withTickets. rewrite Htk. by split_and!.
  - rewrite Hs''. by rewrite (ids_insert _ _ c).
  - intros Hnone. congruence.
Qed.

Lemma checkout_loop_customers customer (l : list (nat * CartItem.t)) s' x :
  taken x → getCustomers s' = <[i := x]> (getCustomers st) →
  ∃ y, taken y
       ∧ getCustomers
           (foldl (λ s' ii, checkoutItem now ui (LiveSession.id s) customer
                                         s' ii.1 ii.2) s' l)
         = <[i := y]> (getCustomers st).
Proof.
  revert s' x. induction l as [|[idx item] l IH]; intros s' x Hx Hs'.
  - by exists x.
  - simpl.
    destruct (checkoutItem_customers customer s' idx item x Hx Hs')
      as (y & Hy & Hs'').
    by apply IH with y.
Qed.

(** After an accepted checkout with a ticket, the customer keeps its cell,
    id and name and has one ticket less. *)
Lemma handleCheckout_customers :
  ∃ y, taken y
       ∧ getCustomers (handleCheckout now st ui).2 = <[i := y]> (getCustomers st).
Proof.
  rewrite (handleCheckout_accepted now st ui s in_session accepted); simpl.
  destruct ticketTaken_customers as (x & Hx & _ & Hs').
  by apply checkout_loop_customers with x.
Qed.

(** The orders of the customer in the session, once the cart is checked
    out with a ticket, include one that used the ticket. *)
Lemma handleCheckout_used_ticket :
  cart ui ≠ [] →
  someUsedVipTicket
    (sessionOrdersOf (LiveSession.id s) (username ui)
                     (handleCheckout now st ui).2) = true.
Proof.
  intros Hcart. apply bool_decide_eq_true.
  unfold sessionOrdersOf.
  rewrite (handleCheckout_orders now st ui s in_session accepted).
  destruct (cart ui) as [|item rest]; [done|].
  rewrite filter_app. apply Exists_app. right. simpl.
  rewrite filter_cons_True by done.
  apply Exists_cons_hd. simpl. by rewrite with_ticket.
Qed.

(** A checkout with a ticket followed by the deletion of the orders of
    the customer in the session gives the ticket back. *)
Lemma checkout_then_delete now' m :
  cart ui ≠ [] → username ui ≠ "" → deleteTargetUser m = Some (username ui) →
  ticketsOf (username ui)
    (handleManualDelete now' (LiveSession.id s) (handleCheckout now st ui).2 m).2
  = Some t
  ∧ ticketsOf (username ui) (handleCheckout now st ui).2 = Some (t - 1).
Proof.
  intros Hcart Hu Hm.
  destruct handleCheckout_customers as (y & (Hid & Hname & Htk) & Hc).
  pose proof known as (Hi & Hcu & _)%list_find_Some.
  assert (list_find (λ c, Customer.username c = username ui)
            (getCustomers (handleCheckout now st ui).2) = Some (i, y)) as Hfind.
  { rewrite Hc. apply list_find_insert_same with c; [done|]. congruence. }
  assert (NoDup (Customer.id <$> getCustomers (handleCheckout now st ui).2))
    as Hnd by (rewrite Hc; by rewrite (ids_insert _ _ c)).
  split.
  - destruct (handleManualDelete_customers now' _ _ i y Hnd Hfind
                (LiveSession.id s) m Hu Hm) as (Hcust & _).
    unfold ticketsOf. rewrite Hcust, (handleCheckout_used_ticket Hcart).
    erewrite list_find_insert_same; [|exact Hfind|simpl; congruence].
    simpl. rewrite Htk. simpl. f_equal. lia.
  - unfold ticketsOf. by rewrite Hfind; simpl.
Qed.
End TicketRoundTrip.

(** C9 (as amended).  In a store with unique customer ids that holds the
    customer: deleting the customer's orders of a session with
    [handleManualDelete] adds exactly one ticket when at least one deleted
    order used a ticket (and none otherwise), and leaves none of those
    orders; [handleEditCustomer], when it goes ahead, does the same and
    keeps the ticket flag for the cart, and editing the same group again
    before it is saved changes nothing, so no second ticket is returned;
    and a checkout with a ticket of a cart that is not empty, followed by
    the deletion of the customer's orders of the session, gives the ticket
    count back.  The ticket returned is one per deletion or edit, not one
    per checkout. *)
Theorem vip_ticket_returned_once `{NumberToString} (now : N) (st : Store)
    (u : string) (i : nat) (c : Customer.t) :
  NoDup (Customer.id <$> getCustomers st) →
  list_find (λ c, Customer.username c = u) (getCustomers st) = Some (i, c) →
  u ≠ "" →
  let returned (userOrders : list Order.t) :=
    if someUsedVipTicket userOrders
    then <[i := addTicket c]> (getCustomers st) else getCustomers st in
  (∀ sessionId m,
     deleteTargetUser m = Some u →
     let st' := (handleManualDelete now sessionId st m).2 in
     getCustomers st' = returned (sessionOrdersOf sessionId u st)
     ∧ sessionOrdersOf sessionId u st' = [])
  ∧ (∀ confirmed ui s,
       session ui = Some s →
       sessionOrdersOf (LiveSession.id s) u st ≠ [] →
       cart ui = [] ∨ username ui = u ∨ confirmed = true →
       let r := handleEditCustomer now confirmed u st ui in
       getCustomers r.2 = returned (sessionOrdersOf (LiveSession.id s) u st)
       ∧ useVipTicket r.1
         = someUsedVipTicket (sessionOrdersOf (LiveSession.id s) u st)
       ∧ sessionOrdersOf (LiveSession.id s) u r.2 = []
       ∧ ∀ now' confirmed', handleEditCustomer now' confirmed' u r.2 r.1 = r)
  ∧ (∀ ui s t now' m,
       session ui = Some s → username ui = u → useVipTicket ui = true →
       cart ui ≠ [] → Customer.vipTickets c = Some t →
       checkoutAccepted now st ui → deleteTargetUser m = Some u →
       ticketsOf u (handleCheckout now st ui).2 = Some (t - 1)
       ∧ ticketsOf u
           (handleManualDelete now' (LiveSession.id s)
                               (handleCheckout now st ui).2 m).2
         = Some t).
Proof.
  intros Hnd Hfind Hu returned. split_and!.
  - intros sessionId m Hm.
    by apply (handleManualDelete_customers now st u i c Hnd Hfind).
  - intros confirmed ui s Hs Horders Hconfirm r.
    destruct (sessionOrdersOf (LiveSession.id s) u st) as [|first rest] eqn:Ho;
      [done|].
    destruct (handleEditCustomer_proceeds now st u i c Hnd Hfind confirmed ui s
                first rest Hs Ho Hconfirm) as (Hs' & Hvip & _ & Hc & Hnone).
    fold r in Hs', Hvip, Hc, Hnone.
    split_and!; [done..|].
    intros now' confirmed'.
    rewrite (handleEditCustomer_nothing_left u now' confirmed' r.1 s r.2 Hs' Hnone).
    by destruct r.
  - intros ui s t now' m Hs Hui Hvip Hcart Ht Hacc Hm. subst u.
    destruct (checkout_then_delete now st ui s i c t Hnd Hfind Ht Hs Hvip Hacc
                now' m Hcart Hu Hm) as (Hback & Htaken).
    by split.
Qed.

Lemma vip_ticket_returned_once_witness :
  NoDup (Customer.id <$> getCustomers emptyStore)
  ∧ list_find (λ c, Customer.username c = "dogmom_ph") (getCustomers emptyStore)
    = Some (0%nat, Customer.mk "c1" "dogmom_ph" true (Some 2) false 2450 8)
  ∧ checkoutAccepted 10 emptyStore ticketCart
  ∧ ticketsOf "dogmom_ph"
      (@handleCheckout wholeNumberToString 10 emptyStore ticketCart).2 = Some 1
  ∧ ticketsOf "dogmom_ph"
      (handleManualDelete 30 "s1"
         (@handleCheckout wholeNumberToString 10 emptyStore ticketCart).2
         deletingDogmom).2 = Some 2.
Proof.
  assert (NoDup (Customer.id <$> getCustomers emptyStore)) as Hnd
    by (apply (bool_decide_unpack _); vm_compute; exact I).
  assert (checkoutAccepted 10 emptyStore ticketCart) as Hacc.
  { split; [by eexists|]. split; [done|]. split; [reflexivity|].
    intros _. split; [intros Hty; discriminate Hty|].
    exists 2. split; [reflexivity|reflexivity]. }
  split; [exact Hnd|]. split; [reflexivity|]. split; [exact Hacc|].
  destruct (@vip_ticket_returned_once wholeNumberToString 10 emptyStore
              "dogmom_ph" 0
              (Customer.mk "c1" "dogmom_ph" true (Some 2) false 2450 8)
              Hnd eq_refl) as (_ & _ & Hround); [done|].
  destruct (Hround ticketCart liveSession 2 30%N deletingDogmom
              eq_refl eq_refl eq_refl) as (Htaken & Hback);
    [done | reflexivity | exact Hacc | reflexivity |].
  split; [exact Htaken | exact Hback].
Defined.

(** C9, as stated, fails in its last part: the first seeded customer has
    two tickets and checks out twice in one session, each time with a
    ticket (two decrements: 2, 1, 0); deleting the customer's orders of
    the session removes the orders of both checkouts and returns a single
    ticket, so one decrement has no matching increment. *)
Lemma two_ticketed_checkouts_one_ticket_back :
  let st1 := (@handleCheckout wholeNumberToString 10 emptyStore ticketCart).2 in
  let st2 := (@handleCheckout wholeNumberToString 20 st1 ticketCart).2 in
  let st3 := (handleManualDelete 30 "s1" st2 deletingDogmom).2 in
  ticketsOf "dogmom_ph" emptyStore = Some 2
  ∧ ticketsOf "dogmom_ph" st1 = Some 1
  ∧ ticketsOf "dogmom_ph" st2 = Some 0
  ∧ Order.id <$> sessionOrdersOf "s1" "dogmom_ph" st2 = ["o_10_0"; "o_20_0"]
  ∧ sessionOrdersOf "s1" "dogmom_ph" st3 = []
  ∧ ticketsOf "dogmom_ph" st3 = Some 1.
Proof. by vm_compute. Qed.

(** ** Texts: occurrences, straddling and splitting *)

Section Texts.
Implicit Types (p s t a b x r cur sep : string).

Lemma append_cons c a b : String c a +:+ b = String c (a +:+ b).
Proof. reflexivity. Qed.

Lemma append_empty_r s : s +:+ "" = s.
Proof.
  induction s as [|c s IH]; [done|]. by rewrite append_cons, IH.
Qed.

Lemma append_assoc a b t : (a +:+ b) +:+ t = a +:+ (b +:+ t).
Proof.
  induction a as [|c a IH]; [done|]. by rewrite !append_cons, IH.
Qed.

Lemma length_append a b :
  String.length (a +:+ b) = (String.length a + String.length b)%nat.
Proof.
  induction a as [|c a IH]; [done|]. rewrite append_cons. simpl. by rewrite IH.
Qed.

Lemma drop_append p r : Str.drop (String.length p) (p +:+ r) = r.
Proof. induction p as [|c p IH]; [done|]. by rewrite append_cons. Qed.

Lemma startsWith_self p r : Str.startsWith p (p +:+ r) = true.
Proof.
  induction p as [|c p IH]; [done|]. rewrite append_cons. simpl.
  by rewrite Ascii.eqb_refl.
Qed.

Lemma startsWith_split p s :
  Str.startsWith p s = true → s = p +:+ Str.drop (String.length p) s.
Proof.
  revert s. induction p as [|c p IH]; intros [|d s]; simpl; try done.
  intros [Hcd Hp]%andb_true_iff. apply Ascii.eqb_eq in Hcd as ->.
  rewrite append_cons. f_equal. by apply IH.
Qed.

Lemma startsWith_app_l p a t :
  Str.startsWith p a = true → Str.startsWith p (a +:+ t) = true.
Proof.
  revert a. induction p as [|c p IH]; intros [|d a]; simpl; try done.
  intros [Hcd Hp]%andb_true_iff. rewrite ?append_cons. simpl.
  rewrite Hcd. simpl. by apply IH.
Qed.

(** An occurrence that begins inside [x] and cannot straddle into [t] lies
    inside [x]. *)
Lemma startsWith_inside p x t :
  x ≠ "" → noStraddle p t = true →
  Str.startsWith p (x +:+ t) = true → Str.startsWith p x = true.
Proof.
  revert x. induction p as [|c p IH]; intros x Hx Hns Hp; [done|].
  destruct x as [|d x]; [done|]. rewrite append_cons in Hp.
  simpl in Hp, Hns |- *.
  apply andb_true_iff in Hp as [Hcd Hp].
  apply andb_true_iff in Hns as [Hnow Hns].
  rewrite Hcd. simpl.
  destruct x as [|e x].
  - change ("" +:+ t) with t in Hp.
    destruct p as [|c' p]; [done|]. by rewrite Hp in Hnow.
  - by apply IH.
Qed.

Lemma occursIn_app p a t :
  p ≠ "" → noStraddle p t = true →
  Str.occursIn p (a +:+ t) = Str.occursIn p a || Str.occursIn p t.
Proof.
  intros Hp Hns. induction a as [|c a IH].
  - destruct p; [done|]. done.
  - rewrite append_cons. cbn [Str.occursIn]. rewrite IH.
    destruct (Str.startsWith p (String c (a +:+ t))) eqn:Hst.
    + rewrite <-append_cons in Hst.
      by rewrite (startsWith_inside p (String c a) t).
    + destruct (Str.startsWith p (String c a)) eqn:Hst'; [|done].
      apply startsWith_app_l with (t := t) in Hst'.
      rewrite append_cons in Hst'. congruence.
Qed.

Lemma occursIn_cons p c s :
  Str.occursIn p (String c s) = false → Str.occursIn p s = false.
Proof. simpl. by intros [_ ?]%orb_false_iff. Qed.

Lemma occursIn_head p s : Str.occursIn p s = false → Str.startsWith p s = false.
Proof. destruct s; simpl; by intros [? _]%orb_false_iff. Qed.

Lemma noMatch_app (M : string → bool) a b t :
  noMatch M (a +:+ b) t = noMatch M a (b +:+ t) && noMatch M b t.
Proof.
  induction a as [|c a IH]; [done|].
  rewrite append_cons. cbn [noMatch]. rewrite IH, andb_assoc.
  by rewrite <-append_cons, append_assoc.
Qed.

Lemma noMatch_startsWith p a t :
  Str.occursIn p a = false → noStraddle p t = true →
  noMatch (Str.startsWith p) a t = true.
Proof.
  intros Ha Hns. induction a as [|c a IH]; [done|].
  cbn [noMatch]. rewrite IH by (by eapply occursIn_cons).
  rewrite andb_true_r. apply negb_true_iff.
  destruct (Str.startsWith p (String c a +:+ t)) eqn:Hst; [|done].
  apply startsWith_inside in Hst; [|done..].
  apply occursIn_head in Ha. congruence.
Qed.

Lemma noMatch_any (pats : list string) a t :
  forallb (λ p, negb (Str.occursIn p a)) pats = true →
  forallb (λ p, noStraddle p t) pats = true →
  noMatch (λ s, existsb (λ p, Str.startsWith p s) pats) a t = true.
Proof.
  intros Ha Hns. induction a as [|c a IH]; [done|].
  cbn [noMatch]. apply andb_true_iff. split.
  - apply negb_true_iff. apply not_true_iff_false. intros Hex.
    apply existsb_exists in Hex as (p & Hp & Hst).
    rewrite forallb_forall in Ha, Hns.
    apply startsWith_inside in Hst; [|done|by apply Hns].
    specialize (Ha p Hp). apply negb_true_iff, occursIn_head in Ha. congruence.
  - apply IH. apply forallb_forall. intros p Hp.
    rewrite forallb_forall in Ha. specialize (Ha p Hp).
    apply negb_true_iff. apply negb_true_iff in Ha. by eapply occursIn_cons.
Qed.

(** *** Splitting *)

Lemma splitGo_skip (M : string → bool) n x cur r :
  Str.splitGo M n (String.length x) cur (x +:+ r) = Str.splitGo M n 0 cur r.
Proof. induction x as [|c x IH]; [done|]. rewrite append_cons. apply IH. Qed.

Lemma splitGo_not_nil (M : string → bool) n k cur s :
  Str.splitGo M n k cur s ≠ [].
Proof.
  revert k cur. induction s as [|c s IH]; intros k cur; [done|].
  simpl. destruct k; [|apply IH]. destruct (M _); [done|apply IH].
Qed.

(** The first piece: nothing matches inside [a], the separator follows. *)
Lemma splitGo_piece (M : string → bool) sep a r cur :
  sep ≠ "" → noMatch M a (sep +:+ r) = true → M (sep +:+ r) = true →
  Str.splitGo M (String.length sep) 0 cur (a +:+ sep +:+ r)
  = (cur +:+ a) :: Str.splitGo M (String.length sep) 0 "" r.
Proof.
  intros Hsep Ha Hm. revert cur. induction a as [|c a IH]; intros cur.
  - rewrite append_empty_r. change ("" +:+ sep +:+ r) with (sep +:+ r).
    destruct sep as [|d sep]; [done|].
    rewrite append_cons in Hm |- *. cbn [Str.splitGo]. rewrite Hm.
    f_equal. cbn [String.length]. rewrite Nat.sub_succ, Nat.sub_0_r.
    apply splitGo_skip.
  - cbn [noMatch] in Ha. apply andb_true_iff in Ha as [Hc Ha].
    apply negb_true_iff in Hc.
    rewrite append_cons in Hc |- *. cbn [Str.splitGo]. rewrite Hc.
    rewrite IH by done. by rewrite append_assoc.
Qed.

(** The last piece: nothing matches inside [a], the text ends. *)
Lemma splitGo_last (M : string → bool) n a cur :
  noMatch M a "" = true → Str.splitGo M n 0 cur a = [cur +:+ a].
Proof.
  revert cur. induction a as [|c a IH]; intros cur Ha.
  - by rewrite append_empty_r.
  - cbn [noMatch] in Ha. apply andb_true_iff in Ha as [Hc Ha].
    apply negb_true_iff in Hc. rewrite append_empty_r in Hc.
    cbn [Str.splitGo]. rewrite Hc, IH by done. by rewrite append_assoc.
Qed.

Lemma concat_cons sep x (l : list string) :
  l ≠ [] → String.concat sep (x :: l) = x +:+ sep +:+ String.concat sep l.
Proof. by destruct l. Qed.

(** Joining the pieces of a split with the separator gives the text back. *)
Lemma concat_splitGo sep (n : nat) :
  sep ≠ "" → ∀ s cur, (String.length s ≤ n)%nat →
  String.concat sep
    (Str.splitGo (Str.startsWith sep) (String.length sep) 0 cur s)
  = cur +:+ s.
Proof.
  intros Hsep. induction n as [|n IH]; intros s cur Hlen.
  - destruct s; [|simpl in Hlen; lia]. simpl. by rewrite append_empty_r.
  - destruct s as [|c s]; [simpl; by rewrite append_empty_r|].
    cbn [Str.splitGo].
    destruct (Str.startsWith sep (String c s)) eqn:Hst.
    + apply startsWith_split in Hst.
      remember (Str.drop (String.length sep) (String c s)) as r eqn:Hr'.
      clear Hr'.
      assert (String.length r ≤ n)%nat as Hr.
      { apply (f_equal String.length) in Hst.
        rewrite length_append in Hst. simpl in Hst, Hlen.
        destruct sep; [done|]. simpl in Hst. lia. }
      rewrite concat_cons by apply splitGo_not_nil.
      assert (Str.splitGo (Str.startsWith sep) (String.length sep)
                (String.length sep - 1) "" s
              = Str.splitGo (Str.startsWith sep) (String.length sep) 0 "" r)
        as ->.
      { destruct sep as [|d sep]; [done|].
        rewrite append_cons in Hst. injection Hst as _ ->.
        cbn [String.length]. rewrite Nat.sub_succ, Nat.sub_0_r.
        apply splitGo_skip. }
      rewrite IH by done. by rewrite Hst.
    + rewrite IH by (simpl in Hlen; lia). by rewrite append_assoc.
Qed.

Lemma concat_split sep s : sep ≠ "" → String.concat sep (Str.split sep s) = s.
Proof.
  intros Hsep. unfold Str.split.
  by rewrite (concat_splitGo sep (String.length s)).
Qed.

Lemma cutFirst_found sep a r cur :
  noMatch (Str.startsWith sep) a (sep +:+ r) = true →
  Str.cutFirst sep cur (a +:+ sep +:+ r) = Some (cur +:+ a, r).
Proof.
  revert cur. induction a as [|c a IH]; intros cur Ha.
  - rewrite append_empty_r. change ("" +:+ sep +:+ r) with (sep +:+ r).
    assert (Str.cutFirst sep cur (sep +:+ r)
            = Some (cur, Str.drop (String.length sep) (sep +:+ r))) as ->.
    { destruct (sep +:+ r) eqn:Hs; simpl;
        rewrite <-?Hs; by rewrite startsWith_self. }
    by rewrite drop_append.
  - cbn [noMatch] in Ha. apply andb_true_iff in Ha as [Hc Ha].
    apply negb_true_iff in Hc. rewrite append_cons in Hc |- *.
    cbn [Str.cutFirst]. rewrite Hc, IH by done. by rewrite append_assoc.
Qed.
End Texts.

(** ** The audit log: a line decodes to its changes *)

Section LogLines.
Implicit Types (c : string * string * string) (o n l t ts : string).

Lemma known_field l :
  l ∈ knownFields → l = "Status" ∨ l = "Paid" ∨ l = "Shipping" ∨ l = "Ref".
Proof. unfold knownFields. rewrite !elem_of_cons, elem_of_nil. tauto. Qed.

Lemma cleanChange_parts c :
  cleanChange c = true →
  c.1.1 ∈ knownFields ∧ cleanValue c.1.2 = true
  ∧ Str.endsWith " ->" c.1.2 = false ∧ cleanValue c.2 = true.
Proof.
  unfold cleanChange. rewrite !andb_true_iff, negb_true_iff.
  intros [[[Hl%bool_decide_eq_true ?] ?] ?]. done.
Qed.

Lemma cleanValue_parts o :
  cleanValue o = true →
  hasLineTerminator o = false
  ∧ forallb (λ p, negb (Str.occursIn p o)) changeSeparators = true
  ∧ Str.occursIn " -> " o = false.
Proof.
  unfold cleanValue. rewrite !andb_true_iff, !negb_true_iff. tauto.
Qed.

(** An arrow cannot begin inside an old value that neither contains one
    nor ends with a space and an arrow. *)
Lemma noMatch_arrow o r :
  Str.occursIn " -> " o = false → Str.endsWith " ->" o = false →
  noMatch (Str.startsWith " -> ") o (" -> " +:+ r) = true.
Proof.
  induction o as [|c1 o IH]; intros Hocc Hend; [done|].
  cbn [noMatch]. apply andb_true_iff. split.
  - apply negb_true_iff. apply not_true_iff_false. intros Hst.
    destruct o as [|c2 [|c3 [|c4 o]]]; rewrite ?append_cons in Hst;
      change ("" +:+ " -> " +:+ r) with (" -> " +:+ r) in Hst;
      rewrite ?append_cons in Hst;
      cbn [Str.startsWith] in Hst;
      repeat (apply andb_true_iff in Hst as [?%Ascii.eqb_eq Hst]);
      simplify_eq.
  - apply IH; [by eapply occursIn_cons|].
    simpl in Hend. by apply orb_false_iff in Hend as [_ ?].
Qed.

Lemma split_old_new o n :
  cleanValue o = true → Str.endsWith " ->" o = false → cleanValue n = true →
  Str.split " -> " (o +:+ " -> " +:+ n) = [o; n].
Proof.
  intros (_ & _ & Ho)%cleanValue_parts Hend (_ & _ & Hn)%cleanValue_parts.
  unfold Str.split.
  rewrite (splitGo_piece (Str.startsWith " -> ") " -> " o n "");
    [|done|by apply noMatch_arrow|apply startsWith_self].
  rewrite (splitGo_last (Str.startsWith " -> ")); [done|].
  by apply noMatch_startsWith.
Qed.

Lemma ChangeRow_changeText c :
  cleanChange c = true → ChangeRow (changeText c) = shown c.
Proof.
  intros (Hl & Ho & Hend & Hn)%cleanChange_parts.
  destruct c as [[l o] n]. simpl in *. unfold ChangeRow, changeText, shown.
  simpl.
  assert (Str.split ": " (l +:+ ": " +:+ o +:+ " -> " +:+ n)
          = l :: Str.split ": " (o +:+ " -> " +:+ n)) as ->.
  { unfold Str.split.
    rewrite (splitGo_piece (Str.startsWith ": ") ": " l (o +:+ " -> " +:+ n) "");
      [done|done| |apply startsWith_self].
    apply known_field in Hl as [-> | [-> | [-> | ->]]]; reflexivity. }
  pose proof (concat_split ": " (o +:+ " -> " +:+ n)) as Hjoin.
  destruct (Str.split ": " (o +:+ " -> " +:+ n)) as [|x xs] eqn:Hsplit.
  { by apply splitGo_not_nil in Hsplit. }
  rewrite Hjoin by done. by rewrite split_old_new.
Qed.

Lemma changeSeparatorAt_any s :
  changeSeparatorAt s = existsb (λ p, Str.startsWith p s) changeSeparators.
Proof. reflexivity. Qed.

Lemma noMatch_ext (M1 M2 : string → bool) a t :
  (∀ s, M1 s = M2 s) → noMatch M1 a t = noMatch M2 a t.
Proof. intros HM. induction a as [|c a IH]; [done|]. simpl. by rewrite HM, IH. Qed.

(** No separator of changes begins inside a clean change that ends the
    line or is followed by a comma. *)
Lemma noMatch_changeText c t :
  cleanChange c = true → t = "" ∨ (∃ t', t = String "," t') →
  noMatch changeSeparatorAt (changeText c) t = true.
Proof.
  intros (Hl & Ho & _ & Hn)%cleanChange_parts Ht.
  apply cleanValue_parts in Ho as (_ & Ho & _).
  apply cleanValue_parts in Hn as (_ & Hn & _).
  destruct c as [[l o] n]. simpl in *. unfold changeText. simpl.
  rewrite (noMatch_ext _ _ _ _ changeSeparatorAt_any).
  rewrite !noMatch_app, !append_assoc. rewrite !andb_true_iff. split_and!.
  - apply known_field in Hl as [-> | [-> | [-> | ->]]]; reflexivity.
  - reflexivity.
  - by apply noMatch_any.
  - reflexivity.
  - apply noMatch_any; [done|]. by destruct Ht as [-> | [t' ->]].
Qed.

Lemma separator_before c r :
  c.1.1 ∈ knownFields → changeSeparatorAt (", " +:+ changeText c +:+ r) = true.
Proof.
  destruct c as [[l o] n]. simpl. unfold changeText. simpl.
  intros [-> | [-> | [-> | ->]]]%known_field; reflexivity.
Qed.

Lemma concat_changes_head c (cs : list (string * string * string)) :
  ∃ r, String.concat ", " (changeText <$> (c :: cs)) = changeText c +:+ r
       ∧ (r = "" ∨ ∃ r', r = String "," r').
Proof.
  destruct cs as [|c2 cs].
  - exists "". split; [by rewrite append_empty_r|by left].
  - exists (", " +:+ String.concat ", " (changeText <$> (c2 :: cs))).
    split; [done|]. right. by eexists.
Qed.

Lemma splitChanges_piece a r :
  noMatch changeSeparatorAt a (", " +:+ r) = true →
  changeSeparatorAt (", " +:+ r) = true →
  splitChanges (a +:+ ", " +:+ r) = a :: splitChanges r.
Proof.
  intros Ha Hr. by apply (splitGo_piece changeSeparatorAt ", " a r "").
Qed.

Lemma splitChanges_last a :
  noMatch changeSeparatorAt a "" = true → splitChanges a = [a].
Proof. intros Ha. by apply (splitGo_last changeSeparatorAt 2 a ""). Qed.

Lemma splitChanges_concat (cs : list (string * string * string)) :
  cs ≠ [] → forallb cleanChange cs = true →
  splitChanges (String.concat ", " (changeText <$> cs)) = changeText <$> cs.
Proof.
  induction cs as [|c cs IH]; intros Hne Hclean; [done|].
  cbn [forallb] in Hclean. apply andb_true_iff in Hclean as [Hc Hcs].
  destruct cs as [|c2 cs].
  - simpl. apply splitChanges_last. apply noMatch_changeText; auto.
  - change (String.concat ", " (changeText <$> c :: c2 :: cs))
      with (changeText c +:+ ", "
            +:+ String.concat ", " (changeText <$> c2 :: cs)).
    destruct (concat_changes_head c2 cs) as (r & Hr & _).
    assert (c2.1.1 ∈ knownFields) as Hl2.
    { cbn [forallb] in Hcs. apply andb_true_iff in Hcs as [Hc2 _].
      by apply cleanChange_parts in Hc2 as (? & _). }
    rewrite splitChanges_piece.
    + by rewrite IH.
    + apply noMatch_changeText; [done|]. right. by eexists.
    + rewrite Hr. by apply separator_before.
Qed.

(** *** Line terminators *)

Lemma hasLineTerminator_cons ch s :
  plainChar ch = true →
  hasLineTerminator (String ch s) = hasLineTerminator s.
Proof.
  unfold plainChar, hasLineTerminator, lineTerminators. simpl.
  rewrite !andb_true_r, !andb_true_iff, !negb_true_iff.
  intros (-> & -> & -> & _). done.
Qed.

Lemma hasLineTerminator_app a t :
  hasLineTerminator a = false → hasLineTerminator t = false →
  forallb (λ p, noStraddle p t) lineTerminators = true →
  hasLineTerminator (a +:+ t) = false.
Proof.
  unfold hasLineTerminator, lineTerminators.
  cbn [existsb forallb]. rewrite !orb_false_r, !andb_true_r.
  rewrite !orb_false_iff, !andb_true_iff.
  intros (Ha1 & Ha2 & Ha3 & Ha4) (Ht1 & Ht2 & Ht3 & Ht4) (H1 & H2 & H3 & H4).
  rewrite !occursIn_app by done.
  rewrite Ha1, Ha2, Ha3, Ha4, Ht1, Ht2, Ht3, Ht4. done.
Qed.

Lemma hasLineTerminator_changeText c t :
  cleanChange c = true → hasLineTerminator t = false →
  t = "" ∨ (∃ t', t = String "," t') →
  hasLineTerminator (changeText c +:+ t) = false.
Proof.
  intros (Hl & Ho & _ & Hn)%cleanChange_parts Ht Hhead.
  apply cleanValue_parts in Ho as (Ho & _).
  apply cleanValue_parts in Hn as (Hn & _).
  destruct c as [[l o] n]. simpl in *. unfold changeText. simpl.
  rewrite !append_assoc.
  assert (hasLineTerminator (n +:+ t) = false) as Hnt.
  { apply hasLineTerminator_app; [done..|].
    by destruct Hhead as [-> | [t' ->]]. }
  assert (hasLineTerminator (o +:+ " -> " +:+ n +:+ t) = false) as Hont.
  { apply hasLineTerminator_app; [done| |done].
    by rewrite !append_cons, !hasLineTerminator_cons. }
  apply known_field in Hl as [-> | [-> | [-> | ->]]];
    by rewrite !append_cons, !hasLineTerminator_cons.
Qed.

Lemma hasLineTerminator_changes (cs : list (string * string * string)) :
  forallb cleanChange cs = true →
  hasLineTerminator (String.concat ", " (changeText <$> cs)) = false.
Proof.
  induction cs as [|c cs IH]; intros Hclean; [done|].
  cbn [forallb] in Hclean. apply andb_true_iff in Hclean as [Hc Hcs].
  destruct cs as [|c2 cs].
  - simpl. rewrite <-(append_empty_r (changeText c)).
    apply hasLineTerminator_changeText; auto.
  - change (String.concat ", " (changeText <$> c :: c2 :: cs))
      with (changeText c +:+ ", "
            +:+ String.concat ", " (changeText <$> c2 :: cs)).
    apply hasLineTerminator_changeText; [done| |right; by eexists].
    rewrite !append_cons, !hasLineTerminator_cons by done. by apply IH.
Qed.

Lemma logMatch_line ts content :
  cleanTimestamp ts = true → hasLineTerminator content = false →
  logMatch ("[" +:+ ts +:+ "] " +:+ content) = Some (ts, content).
Proof.
  unfold cleanTimestamp. rewrite andb_true_iff, !negb_true_iff.
  intros [Hlt Hbr] Hc.
  change ("[" +:+ ts +:+ "] " +:+ content)
    with (String "[" (ts +:+ "] " +:+ content)).
  cbn [logMatch].
  rewrite hasLineTerminator_app; [|done| |done].
  - rewrite cutFirst_found; [done|]. by apply noMatch_startsWith.
  - by rewrite !append_cons, !hasLineTerminator_cons.
Qed.
End LogLines.

Lemma ChangeRow_changes (cs : list (string * string * string)) :
  forallb cleanChange cs = true →
  ChangeRow <$> (changeText <$> cs) = shown <$> cs.
Proof.
  induction cs as [|c cs IH]; intros Hclean; [done|].
  cbn [forallb] in Hclean. apply andb_true_iff in Hclean as [Hc Hcs].
  rewrite !fmap_cons. by rewrite ChangeRow_changeText, IH.
Qed.

(** A line written by [logString] from clean changes decodes to them. *)
Lemma LogItem_logString (dateStr : string)
    (changes : list (string * string * string)) (log : string) :
  cleanTimestamp dateStr = true →
  forallb cleanChange changes = true →
  logString dateStr (changeText <$> changes) = Some log →
  LogItem log = Log dateStr (shown <$> changes).
Proof.
  intros Hts Hclean Hlog.
  assert (changes ≠ []) as Hne by (by intros ->).
  assert (log = "[" +:+ dateStr +:+ "] "
                +:+ String.concat ", " (changeText <$> changes)) as ->.
  { destruct changes; [done|]. by injection Hlog as <-. }
  unfold LogItem.
  rewrite logMatch_line by (by try apply hasLineTerminator_changes).
  by rewrite splitChanges_concat, ChangeRow_changes.
Qed.

(** C8 (as amended).  A log line built from a date text and a change set
    that is not empty decodes to exactly one entry per encoded change,
    with the same field, old value and new value, provided that the date
    text holds no line terminator and no closing bracket followed by a
    space, that every field is one of Status, Paid, Shipping and Ref, that
    no value holds a line terminator, a comma and a space followed by a
    field name and a colon, or an arrow between two spaces, and that no
    old value ends with a space and an arrow (a colon and a space inside a
    value do no harm); this holds for the line that [handleSaveClick]
    builds, and the example of the specification decodes to two
    entries. *)
Theorem audit_log_round_trip `{NumberToString} (dateStr : string)
    (changes : list (string * string * string)) (log : string) :
  cleanTimestamp dateStr = true →
  forallb cleanChange changes = true →
  logString dateStr (changeText <$> changes) = Some log →
  LogItem log = Log dateStr (shown <$> changes)
  ∧ (∀ order formData line,
       changeSet order formData = changes →
       (handleSaveClick dateStr order formData).2 = Some line →
       LogItem line = Log dateStr (shown <$> changes))
  ∧ (∀ views, LogItem log = Log dateStr views → length views = length changes).
Proof.
  intros Hts Hclean Hlog.
  pose proof (LogItem_logString dateStr changes log Hts Hclean Hlog) as Hdec.
  split_and!.
  - done.
  - intros order formData line Hset Hline. unfold handleSaveClick in Hline.
    simpl in Hline. rewrite Hset in Hline.
    by apply LogItem_logString.
  - intros views Hviews. rewrite Hdec in Hviews. injection Hviews as <-.
    by rewrite length_fmap.
Qed.

Lemma audit_log_round_trip_witness :
  cleanTimestamp savedAt = true
  ∧ forallb cleanChange paidInFull = true
  ∧ logString savedAt (changeText <$> paidInFull)
    = Some "[11/2/2026 01:45 PM] Status: Unpaid -> Paid, Paid: 0 -> 500"
  ∧ LogItem "[11/2/2026 01:45 PM] Status: Unpaid -> Paid, Paid: 0 -> 500"
    = Log "11/2/2026 01:45 PM"
          [Change "Status" "Unpaid" (Some "Paid");
           Change "Paid" "0" (Some "500")].
Proof.
  split; [reflexivity|]. split; [reflexivity|]. split; [reflexivity|].
  destruct (@audit_log_round_trip wholeNumberToString savedAt paidInFull
              "[11/2/2026 01:45 PM] Status: Unpaid -> Paid, Paid: 0 -> 500"
              eq_refl eq_refl eq_refl) as (Hdec & _).
  exact Hdec.
Defined.

(** C8, as stated, fails: the old value [x ->] and the new value [y] hold
    none of the delimiter texts (no comma and field name, no colon and
    space, no arrow between two spaces), yet the line decodes to the old
    value [x] and the new value [-> y]: the text is cut at the first arrow
    between two spaces, which begins inside the old value. *)
Lemma old_value_ending_in_arrow_is_cut :
  forallb (λ v, negb (Str.occursIn ": " v) && negb (Str.occursIn " -> " v)
                && forallb (λ p, negb (Str.occursIn p v)) changeSeparators)
          ["x ->"; "y"] = true
  ∧ logString savedAt (changeText <$> arrowReference)
    = Some "[11/2/2026 01:45 PM] Ref: x -> -> y"
  ∧ LogItem "[11/2/2026 01:45 PM] Ref: x -> -> y"
    = Log "11/2/2026 01:45 PM" [Change "Ref" "x" (Some "-> y")].
Proof. by vm_compute. Qed.

(** * Further properties of the code *)

(** ** Upserts and deletions of the entity store *)

Section Upsert.
Context {A : Type} (key : A → string).

(** The list written back by [updateProduct], [updateCustomer] and
    [updateBale]. *)
Let upsert (x : A) (l : list A) : list A :=
  match list_find (λ y, key y = key x) l with
  | Some (index, _) => <[index := x]> l
  | None => l ++ [x]
  end.

Lemma upsert_find_same (x : A) (l : list A) :
  ∃ i, list_find (λ y, key y = key x) (upsert x l) = Some (i, x)
       ∧ (i ≤ length l)%nat.
Proof.
  unfold upsert.
  destruct (list_find (λ y, key y = key x) l) as [[i y]|] eqn:Hfind.
  - exists i. split.
    + by apply (list_find_insert_same _ l i y x).
    + apply list_find_Some in Hfind as (Hl & _). apply lookup_lt_Some in Hl. lia.
  - exists (length l). split; [|done].
    apply list_find_Some. split_and!.
    + by rewrite lookup_app_r, Nat.sub_diag.
    + done.
    + intros j z Hj Hlt. rewrite lookup_app_l in Hj by done.
      eapply list_find_None in Hfind. rewrite Forall_forall in Hfind.
      apply Hfind. eapply list_elem_of_lookup_2. exact Hj.
Qed.

Lemma upsert_find_other (x : A) (l : list A) (k : string) :
  k ≠ key x →
  list_find (λ y, key y = k) (upsert x l) = list_find (λ y, key y = k) l.
Proof.
  intros Hk. unfold upsert.
  destruct (list_find (λ y, key y = key x) l) as [[i y]|] eqn:Hfind.
  - apply list_find_Some in Hfind as (Hl & Hy & _).
    revert i Hl. induction l as [|z l IH]; intros [|i] Hl; simplify_eq/=.
    + rewrite !decide_False by congruence. done.
    + destruct (decide (key z = k)); [done|]. by rewrite IH.
  - clear Hfind. induction l as [|z l IH]; simpl.
    + by rewrite decide_False by congruence.
    + destruct (decide (key z = k)); [done|]. by rewrite IH.
Qed.

Lemma upsert_twice (x1 x2 : A) (l : list A) :
  key x1 = key x2 → upsert x2 (upsert x1 l) = upsert x2 l.
Proof.
  intros Hk. unfold upsert at 1 3.
  destruct (upsert_find_same x1 l) as (i & Hfind & Hi).
  rewrite <-Hk, Hfind. unfold upsert.
  destruct (list_find (λ y, key y = key x1) l) as [[i' y]|] eqn:Hfind'.
  - assert (i = i') as ->.
    { pose proof (list_find_insert_same (λ y, key y = key x1) l i' y x1
                    Hfind' eq_refl) as Hsame.
      unfold upsert in Hfind. rewrite Hfind' in Hfind.
      rewrite Hsame in Hfind. by injection Hfind. }
    by rewrite list_insert_insert_eq.
  - unfold upsert in Hfind. rewrite Hfind' in Hfind.
    apply list_find_Some in Hfind as (Hl & _ & Hmin).
    assert (i = length l) as ->.
    { destruct (decide (i < length l)%nat) as [Hlt|Hge].
      - rewrite lookup_app_l in Hl by done.
        eapply list_find_None in Hfind'. rewrite Forall_forall in Hfind'.
        exfalso. eapply Hfind'; [eapply list_elem_of_lookup_2; exact Hl|done].
      - lia. }
    by rewrite insert_app_r_alt, Nat.sub_diag by done.
Qed.

Lemma upsert_then_filter (x : A) (l : list A) :
  filter (λ y, key y ≠ key x) (upsert x l) = filter (λ y, key y ≠ key x) l.
Proof.
  unfold upsert.
  destruct (list_find (λ y, key y = key x) l) as [[i y]|] eqn:Hfind.
  - apply list_find_Some in Hfind as (Hl & Hy & _).
    revert i Hl. induction l as [|z l IH]; intros [|i] Hl; simplify_eq/=.
    + rewrite !filter_cons. rewrite !decide_False; [done|naive_solver..].
    + rewrite !filter_cons. rewrite (IH i) by done. done.
  - rewrite filter_app, filter_cons, decide_False, filter_nil by naive_solver.
    by rewrite app_nil_r.
Qed.
End Upsert.

Lemma list_find_filter_implied {A} (P Q : A → Prop)
    `{!∀ x, Decision (P x)} `{!∀ x, Decision (Q x)} (l : list A) :
  (∀ x, P x → Q x) →
  snd <$> list_find P (filter Q l) = snd <$> list_find P l.
Proof.
  intros HPQ. induction l as [|x l IH]; [done|].
  rewrite filter_cons. destruct (decide (Q x)) as [Hq|Hq]; simpl.
  - destruct (decide (P x)); [done|].
    rewrite <-!option_fmap_compose. simpl.
    rewrite !option_fmap_compose in *. 
    destruct (list_find P (filter Q l)) as [[??]|],
             (list_find P l) as [[??]|]; simplify_eq/=; done.
  - rewrite decide_False by naive_solver.
    destruct (list_find P (filter Q l)) as [[??]|],
             (list_find P l) as [[??]|]; simplify_eq/=; done.
Qed.

Lemma list_find_filter_out {A} (P : A → Prop) `{!∀ x, Decision (P x)}
    (l : list A) :
  list_find P (filter (λ x, ¬ P x) l) = None.
Proof.
  apply list_find_None, Forall_forall. intros x Hx.
  by apply list_elem_of_filter in Hx as [? _].
Qed.

Lemma updateProduct_products (p : Product.t) (st : Store) :
  getProducts (updateProduct p st)
  = match list_find (λ y, Product.id y = Product.id p) (getProducts st) with
    | Some (index, _) => <[index := p]> (getProducts st)
    | None => getProducts st ++ [p]
    end
  ∧ updateProduct p st = setProducts (getProducts (updateProduct p st)) st.
Proof.
  unfold updateProduct.
  by destruct (list_find _ (getProducts st)) as [[??]|].
Qed.

Lemma updateCustomer_customers (c : Customer.t) (st : Store) :
  getCustomers (updateCustomer c st)
  = match list_find (λ y, Customer.id y = Customer.id c) (getCustomers st) with
    | Some (index, _) => <[index := c]> (getCustomers st)
    | None => getCustomers st ++ [c]
    end
  ∧ updateCustomer c st = setCustomers (getCustomers (updateCustomer c st)) st.
Proof.
  unfold updateCustomer.
  by destruct (list_find _ (getCustomers st)) as [[??]|].
Qed.

Lemma updateBale_bales (b : Bale.t) (st : Store) :
  getBales (updateBale b st)
  = match list_find (λ y, Bale.id y = Bale.id b) (getBales st) with
    | Some (index, _) => <[index := b]> (getBales st)
    | None => getBales st ++ [b]
    end
  ∧ updateBale b st = setBales (getBales (updateBale b st)) st.
Proof.
  unfold updateBale.
  by destruct (list_find _ (getBales st)) as [[??]|].
Qed.

(** A row written with [updateProduct], [updateCustomer] or [updateBale]
    is the row its id then finds; the lookup of any other id gives what it
    gave before; and of two writes of the same id one after the other only
    the second one shows. *)
Theorem upsert_lookup (st : Store) :
  (∀ p : Product.t,
     (∃ i, list_find (λ x, Product.id x = Product.id p)
                     (getProducts (updateProduct p st)) = Some (i, p))
     ∧ (∀ k, k ≠ Product.id p →
          list_find (λ x, Product.id x = k) (getProducts (updateProduct p st))
          = list_find (λ x, Product.id x = k) (getProducts st))
     ∧ (∀ p', Product.id p' = Product.id p →
          updateProduct p (updateProduct p' st) = updateProduct p st))
  ∧ (∀ c : Customer.t,
     (∃ i, list_find (λ x, Customer.id x = Customer.id c)
                     (getCustomers (updateCustomer c st)) = Some (i, c))
     ∧ (∀ k, k ≠ Customer.id c →
          list_find (λ x, Customer.id x = k) (getCustomers (updateCustomer c st))
          = list_find (λ x, Customer.id x = k) (getCustomers st))
     ∧ (∀ c', Customer.id c' = Customer.id c →
          updateCustomer c (updateCustomer c' st) = updateCustomer c st))
  ∧ (∀ b : Bale.t,
     (∃ i, list_find (λ x, Bale.id x = Bale.id b)
                     (getBales (updateBale b st)) = Some (i, b))
     ∧ (∀ k, k ≠ Bale.id b →
          list_find (λ x, Bale.id x = k) (getBales (updateBale b st))
          = list_find (λ x, Bale.id x = k) (getBales st))
     ∧ (∀ b', Bale.id b' = Bale.id b →
          updateBale b (updateBale b' st) = updateBale b st)).
Proof.
  split_and!.
  - intros p. split_and!.
    + rewrite (proj1 (updateProduct_products p st)).
      destruct (upsert_find_same Product.id p (getProducts st)) as (i & Hi & _).
      by exists i.
    + intros k Hk. rewrite (proj1 (updateProduct_products p st)).
      by apply (upsert_find_other Product.id).
    + intros p' Hid.
      rewrite (proj2 (updateProduct_products p (updateProduct p' st))).
      rewrite (proj2 (updateProduct_products p st)).
      rewrite (proj1 (updateProduct_products p (updateProduct p' st))).
      rewrite (proj1 (updateProduct_products p' st)).
      rewrite (proj1 (updateProduct_products p st)).
      rewrite (upsert_twice Product.id p' p (getProducts st) Hid).
      by rewrite (proj2 (updateProduct_products p' st)).
  - intros c. split_and!.
    + rewrite (proj1 (updateCustomer_customers c st)).
      destruct (upsert_find_same Customer.id c (getCustomers st))
        as (i & Hi & _).
      by exists i.
    + intros k Hk. rewrite (proj1 (updateCustomer_customers c st)).
      by apply (upsert_find_other Customer.id).
    + intros c' Hid.
      rewrite (proj2 (updateCustomer_customers c (updateCustomer c' st))).
      rewrite (proj2 (updateCustomer_customers c st)).
      rewrite (proj1 (updateCustomer_customers c (updateCustomer c' st))).
      rewrite (proj1 (updateCustomer_customers c' st)).
      rewrite (proj1 (updateCustomer_customers c st)).
      rewrite (upsert_twice Customer.id c' c (getCustomers st) Hid).
      by rewrite (proj2 (updateCustomer_customers c' st)).
  - intros b. split_and!.
    + rewrite (proj1 (updateBale_bales b st)).
      destruct (upsert_find_same Bale.id b (getBales st)) as (i & Hi & _).
      by exists i.
    + intros k Hk. rewrite (proj1 (updateBale_bales b st)).
      by apply (upsert_find_other Bale.id).
    + intros b' Hid.
      rewrite (proj2 (updateBale_bales b (updateBale b' st))).
      rewrite (proj2 (updateBale_bales b st)).
      rewrite (proj1 (updateBale_bales b (updateBale b' st))).
      rewrite (proj1 (updateBale_bales b' st)).
      rewrite (proj1 (updateBale_bales b st)).
      rewrite (upsert_twice Bale.id b' b (getBales st) Hid).
      by rewrite (proj2 (updateBale_bales b' st)).
Qed.

Lemma upsert_lookup_witness :
  Product.stock <$> getProducts
    (updateProduct (Product.mk "p2" "Shirt" "HD Crown" "B001" 35 120 7)
       (updateProduct (Product.mk "p2" "Shirt" "HD Crown" "B001" 35 120 9)
                      emptyStore))
  = [12; 7; 15; 5; 10]
  ∧ list_find (λ x, Product.id x = "p3")
              (getProducts
                 (updateProduct (Product.mk "p2" "Shirt" "HD Crown" "B001" 35 120 7)
                                emptyStore))
    = list_find (λ x, Product.id x = "p3") (getProducts emptyStore).
Proof.
  destruct (upsert_lookup emptyStore) as (Hp & _ & _).
  destruct (Hp (Product.mk "p2" "Shirt" "HD Crown" "B001" 35 120 7))
    as (_ & Hother & Htwice).
  split.
  - rewrite (Htwice (Product.mk "p2" "Shirt" "HD Crown" "B001" 35 120 9) eq_refl).
    reflexivity.
  - apply Hother. discriminate.
Defined.

(** [deleteProduct] and [deleteBale] remove every row of the id and leave
    the lookup of the other ids as it was; a deletion undoes an earlier
    write of the same id; neither touches the orders, so the orders of a
    deleted product stay in the store. *)
Theorem delete_lookup (st : Store) (id : string) :
  list_find (λ x, Product.id x = id) (getProducts (deleteProduct id st)) = None
  ∧ (∀ k, k ≠ id →
       snd <$> list_find (λ x, Product.id x = k) (getProducts (deleteProduct id st))
       = snd <$> list_find (λ x, Product.id x = k) (getProducts st))
  ∧ (∀ p, Product.id p = id →
       deleteProduct id (updateProduct p st) = deleteProduct id st)
  ∧ getOrders (deleteProduct id st) = getOrders st
  ∧ list_find (λ x, Bale.id x = id) (getBales (deleteBale id st)) = None
  ∧ (∀ k, k ≠ id →
       snd <$> list_find (λ x, Bale.id x = k) (getBales (deleteBale id st))
       = snd <$> list_find (λ x, Bale.id x = k) (getBales st))
  ∧ (∀ b, Bale.id b = id →
       deleteBale id (updateBale b st) = deleteBale id st)
  ∧ getProducts (deleteBale id st) = getProducts st
  ∧ getOrders (deleteBale id st) = getOrders st.
Proof.
  split_and!; try done.
  - apply list_find_filter_out.
  - intros k Hk. apply list_find_filter_implied. congruence.
  - intros p <-. unfold deleteProduct.
    rewrite (proj1 (updateProduct_products p st)).
    rewrite (upsert_then_filter Product.id p (getProducts st)).
    by rewrite (proj2 (updateProduct_products p st)).
  - apply list_find_filter_out.
  - intros k Hk. apply list_find_filter_implied. congruence.
  - intros b <-. unfold deleteBale.
    rewrite (proj1 (updateBale_bales b st)).
    rewrite (upsert_then_filter Bale.id b (getBales st)).
    by rewrite (proj2 (updateBale_bales b st)).
Qed.

Lemma delete_lookup_witness :
  Product.id <$> getProducts (deleteProduct "p2" emptyStore)
    = ["p1"; "p3"; "p4"; "p5"]
  ∧ deleteProduct "p2"
      (updateProduct (Product.mk "p2" "Shirt" "HD Crown" "B001" 35 120 7)
                     emptyStore)
    = deleteProduct "p2" emptyStore
  ∧ snd <$> list_find (λ x, Bale.id x = "B002")
                      (getBales (deleteBale "B001" emptyStore))
    = Some bale002.
Proof.
  destruct (delete_lookup emptyStore "p2") as (_ & _ & Hundo & _).
  destruct (delete_lookup emptyStore "B001") as (_ & _ & _ & _ & _ & Hb & _).
  split; [reflexivity|]. split.
  - apply (Hundo (Product.mk "p2" "Shirt" "HD Crown" "B001" 35 120 7) eq_refl).
  - rewrite (Hb "B002"); [reflexivity|discriminate].
Defined.

(** ** [getOrCreateCustomer] *)

(** [getOrCreateCustomer] returns a row of the asked username with a
    ticket count, which the store then holds; asking again, at any later
    time, returns the same row and leaves the store as it is; and nothing
    but the customers is written. *)
Theorem getOrCreateCustomer_idempotent (now now' : N) (u : string) (st : Store) :
  let r := getOrCreateCustomer now u st in
  Customer.username r.1 = u
  ∧ is_Some (Customer.vipTickets r.1)
  ∧ (∃ i, list_find (λ c, Customer.username c = u) (getCustomers r.2)
          = Some (i, r.1))
  ∧ getOrCreateCustomer now' u r.2 = r
  ∧ getProducts r.2 = getProducts st
  ∧ getOrders r.2 = getOrders st
  ∧ getBales r.2 = getBales st.
Proof.
  intros r.
  assert (∃ i, list_find (λ c, Customer.username c = u) (getCustomers r.2)
               = Some (i, r.1) ∧ is_Some (Customer.vipTickets r.1)) as Hfound.
  { subst r. unfold getOrCreateCustomer.
    destruct (list_find (λ c, Customer.username c = u) (getCustomers st))
      as [[j c0]|] eqn:Hfind.
    - destruct (Customer.vipTickets c0) as [t|] eqn:Ht; simpl.
      + exists j. by rewrite Ht.
      + pose proof Hfind as Hfind'.
        apply list_find_Some in Hfind' as (Hj & Hu & Hmin).
        rewrite (proj1 (updateCustomer_customers _ st)). simpl.
        destruct (list_find (λ y, Customer.id y = Customer.id c0)
                            (getCustomers st)) as [[i c1]|] eqn:Hid.
        * exists i. split; [|done].
          apply list_find_Some in Hid as (Hi & _ & Hmini).
          assert (i ≤ j)%nat as Hij.
          { destruct (decide (i ≤ j)%nat) as [|Hgt]; [done|].
            exfalso. apply (Hmini j c0 Hj); [lia|done]. }
          apply list_find_Some. split_and!.
          -- rewrite list_lookup_insert_eq; [done|]. by eapply lookup_lt_Some.
          -- done.
          -- intros k z Hk Hlt.
             rewrite list_lookup_insert_ne in Hk by lia.
             apply (Hmin k z Hk). lia.
        * exfalso. eapply list_find_None in Hid. rewrite Forall_forall in Hid.
          eapply Hid; [eapply list_elem_of_lookup_2; exact Hj|done].
    - simpl. exists (length (getCustomers st)). split; [|done].
      change (getCustomers (setCustomers ?l st)) with l.
      apply list_find_Some. split_and!.
      + by rewrite lookup_app_r, Nat.sub_diag.
      + done.
      + intros k z Hk Hlt. rewrite lookup_app_l in Hk by done.
        eapply list_find_None in Hfind. rewrite Forall_forall in Hfind.
        apply Hfind. eapply list_elem_of_lookup_2. exact Hk. }
  destruct Hfound as (i & Hfound & Htickets).
  pose proof (getOrCreateCustomer_frame now u st) as (Hp & Ho & Hb).
  fold r in Hp, Ho, Hb.
  split_and!.
  - by apply list_find_Some in Hfound as (_ & Hu & _).
  - done.
  - by exists i.
  - unfold getOrCreateCustomer at 1. rewrite Hfound.
    destruct Htickets as [t Ht]. rewrite Ht. by destruct r.
  - unfold getProducts. by rewrite Hp.
  - unfold getOrders. by rewrite Ho.
  - unfold getBales. by rewrite Hb.
Qed.

(** ** Sessions *)

Lemma closeSession_found (id : string) (j : Journal) (i : nat)
    (s : LiveSession.t) :
  list_find (λ s, LiveSession.id s = id) (getSessions j) = Some (i, s) →
  getSessions (closeSession id j) = <[i := closed s]> (getSessions j).
Proof.
  intros Hfind. unfold closeSession. rewrite Hfind. simpl.
  apply alter_as_insert. by apply list_find_Some in Hfind as (? & _).
Qed.

(** With distinct ids, no session of the closed id stays open. *)
Lemma closeSession_none_open (id : string) (j : Journal) :
  NoDup (LiveSession.id <$> getSessions j) →
  ∀ s, s ∈ getSessions (closeSession id j) → LiveSession.id s = id →
       LiveSession.isOpen s = false.
Proof.
  intros Hnd s Hs Hid.
  destruct (list_find (λ s, LiveSession.id s = id) (getSessions j))
    as [[k x]|] eqn:Hfind.
  + rewrite (closeSession_found id j k x Hfind) in Hs.
    apply list_elem_of_lookup in Hs as [i Hi].
    pose proof Hfind as Hfind'.
    apply list_find_Some in Hfind' as (Hk & Hx & _).
    destruct (decide (i = k)) as [->|Hne].
    * rewrite list_lookup_insert_eq in Hi by (by eapply lookup_lt_Some).
      by injection Hi as <-.
    * rewrite list_lookup_insert_ne in Hi by done.
      exfalso. apply Hne.
      eapply (NoDup_lookup _ i k (LiveSession.id s) Hnd).
      -- by rewrite list_lookup_fmap, Hi.
      -- rewrite list_lookup_fmap, Hk. simpl. congruence.
  + unfold closeSession in Hs. rewrite Hfind in Hs.
    exfalso. eapply list_find_None in Hfind. rewrite Forall_forall in Hfind.
    by eapply Hfind.
Qed.

(** [closeSession] closes the first session of the given id and leaves
    every other session as it is; it does nothing, not even a write, when
    no session has the id; closing twice is closing once; and when the
    session ids are distinct no session of that id is open afterwards. *)
Theorem closeSession_closes (id : string) (j : Journal) :
  (list_find (λ s, LiveSession.id s = id) (getSessions j) = None →
     closeSession id j = j)
  ∧ (∀ i s,
       list_find (λ s, LiveSession.id s = id) (getSessions j) = Some (i, s) →
       getSessions (closeSession id j) = <[i := closed s]> (getSessions j))
  ∧ (∀ i s, getSessions j !! i = Some s → LiveSession.id s ≠ id →
       getSessions (closeSession id j) !! i = Some s)
  ∧ closeSession id (closeSession id j) = closeSession id j
  ∧ (NoDup (LiveSession.id <$> getSessions j) →
     ∀ s, s ∈ getSessions (closeSession id j) → LiveSession.id s = id →
          LiveSession.isOpen s = false).
Proof.
  split_and!.
  - intros Hfind. unfold closeSession. by rewrite Hfind.
  - apply closeSession_found.
  - intros i s Hi Hid.
    destruct (list_find (λ s, LiveSession.id s = id) (getSessions j))
      as [[k x]|] eqn:Hfind.
    + rewrite (closeSession_found id j k x Hfind).
      rewrite list_lookup_insert_ne; [done|].
      intros ->. apply list_find_Some in Hfind as (Hk & Hx & _). congruence.
    + unfold closeSession. by rewrite Hfind.
  - destruct (list_find (λ s, LiveSession.id s = id) (getSessions j))
      as [[k x]|] eqn:Hfind.
    + assert (list_find (λ s, LiveSession.id s = id)
                (getSessions (closeSession id j)) = Some (k, closed x)) as Hagain.
      { rewrite (closeSession_found id j k x Hfind).
        apply (list_find_insert_same _ _ k x (closed x) Hfind).
        by apply list_find_Some in Hfind as (_ & ? & _). }
      unfold closeSession at 1. rewrite Hagain.
      rewrite (alter_as_insert closed _ k (closed x)).
      * rewrite (closeSession_found id j k x Hfind).
        rewrite list_insert_insert_eq.
        unfold closeSession. rewrite Hfind. unfold setSessions. f_equal. f_equal.
        rewrite (alter_as_insert closed _ k x); [done|].
        by apply list_find_Some in Hfind as (? & _).
      * by apply list_find_Some in Hagain as (? & _).
    + unfold closeSession. by rewrite !Hfind.
  - apply closeSession_none_open.
Qed.

Lemma closeSession_closes_witness :
  NoDup (LiveSession.id <$> getSessions (createSession 5 "11/2/2026" "Live" emptyJournal).2)
  ∧ closeSession "s_7" (createSession 5 "11/2/2026" "Live" emptyJournal).2
    = (createSession 5 "11/2/2026" "Live" emptyJournal).2
  ∧ LiveSession.isOpen
      <$> getSessions
            (closeSession "s_5" (createSession 5 "11/2/2026" "Live" emptyJournal).2)
    = [false].
Proof.
  destruct (closeSession_closes "s_7"
              (createSession 5 "11/2/2026" "Live" emptyJournal).2)
    as (Hmissing & _).
  destruct (closeSession_closes "s_5"
              (createSession 5 "11/2/2026" "Live" emptyJournal).2)
    as (_ & Hfound & _).
  split; [apply (bool_decide_unpack _); vm_compute; exact I|].
  split; [by apply Hmissing|].
  by rewrite (Hfound 0%nat (createSession 5 "11/2/2026" "Live" emptyJournal).1).
Defined.

(** A session made by [createSession] under an id that no stored session
    has is the last of the list and open; it is the session a new
    selling screen picks up when no other session is open; and once it is
    closed by its id it is the last of the list, closed, and no session is
    picked up. *)
Theorem createSession_then_close (now : N) (today name : string) (j : Journal) :
  let r := createSession now today name j in
  ("s_" +:+ pretty now) ∉ (LiveSession.id <$> getSessions j) →
  getSessions r.2 = getSessions j ++ [r.1]
  ∧ LiveSession.isOpen r.1 = true
  ∧ getSessions (closeSession (LiveSession.id r.1) r.2)
    = getSessions j ++ [closed r.1]
  ∧ (openSession j = None →
     openSession r.2 = Some r.1
     ∧ openSession (closeSession (LiveSession.id r.1) r.2) = None).
Proof.
  intros r Hfresh.
  assert (getSessions r.2 = getSessions j ++ [r.1]) as Hr by done.
  assert (list_find (λ s, LiveSession.id s = LiveSession.id r.1)
                    (getSessions r.2)
          = Some (length (getSessions j), r.1)) as Hfind.
  { rewrite Hr. apply list_find_Some. split_and!.
    - by rewrite lookup_app_r, Nat.sub_diag.
    - done.
    - intros k z Hk Hlt Hid. rewrite lookup_app_l in Hk by done.
      apply Hfresh. change ("s_" +:+ pretty now) with (LiveSession.id r.1).
      rewrite <-Hid.
      apply list_elem_of_fmap_2. by eapply list_elem_of_lookup_2. }
  assert (getSessions (closeSession (LiveSession.id r.1) r.2)
          = getSessions j ++ [closed r.1]) as Hclosed.
  { rewrite (closeSession_found _ _ _ _ Hfind), Hr.
    by rewrite insert_app_r_alt, Nat.sub_diag by done. }
  split_and!; [done..|].
  intros Hnone. unfold openSession in *. rewrite Hclosed, Hr.
  destruct (list_find (λ s, LiveSession.isOpen s = true) (getSessions j))
    as [[??]|] eqn:Hopen; [done|].
  split.
  - rewrite (list_find_app_r _ _ _ Hopen). done.
  - rewrite (list_find_app_r _ _ _ Hopen). done.
Qed.

Lemma createSession_then_close_witness :
  (("s_" +:+ pretty 5%N) ∉ (LiveSession.id <$> getSessions emptyJournal))
  ∧ openSession (createSession 5 "11/2/2026" "Live" emptyJournal).2
    = Some (LiveSession.mk "s_5" "Live" "11/2/2026" 0 0 true)
  ∧ openSession (closeSession "s_5"
                   (createSession 5 "11/2/2026" "Live" emptyJournal).2) = None.
Proof.
  assert (("s_" +:+ pretty 5%N) ∉ (LiveSession.id <$> getSessions emptyJournal))
    as Hfresh by apply not_elem_of_nil.
  split; [exact Hfresh|].
  destruct (createSession_then_close 5 "11/2/2026" "Live" emptyJournal Hfresh)
    as (_ & _ & _ & Hopen).
  destruct (Hopen eq_refl) as [H1 H2]. split; [exact H1 | exact H2].
Defined.

(** ** The cart and the batches *)

(** When the selected batch is not in the store, and so after it was
    deleted, [addToCart] leaves the cart as it is and shows the
    out-of-stock notice with an empty name and counts of zero. *)
Theorem addToCart_missing_bale (now : N) (rnd : string) (inputPrice : Q)
    (isFreebie : bool) (st : Store) (ui : LiveSell) :
  isRestricted ui = false →
  selectedBaleId ui ≠ "" →
  (list_find (λ b, Bale.id b = selectedBaleId ui) (getBales st) = None →
   addToCart now rnd inputPrice isFreebie st ui
   = setOosModalData (Some (OosModalData.mk "" 0 0)) ui)
  ∧ addToCart now rnd inputPrice isFreebie (deleteBale (selectedBaleId ui) st) ui
    = setOosModalData (Some (OosModalData.mk "" 0 0)) ui.
Proof.
  intros Hr Hsel.
  assert (∀ s, list_find (λ b, Bale.id b = selectedBaleId ui) (getBales s) = None →
               addToCart now rnd inputPrice isFreebie s ui
               = setOosModalData (Some (OosModalData.mk "" 0 0)) ui) as Hmissing.
  { intros s Hfind. unfold addToCart. rewrite Hr.
    destruct (decide (selectedBaleId ui = "")) as [|_]; [done|].
    unfold getBaleStats. rewrite Hfind. simpl.
    by destruct (decide (0 <= 0)). }
  split; [apply Hmissing|].
  apply Hmissing. apply (list_find_filter_out (λ b, Bale.id b = selectedBaleId ui)).
Qed.

Lemma addToCart_missing_bale_witness :
  isRestricted (sellingTo "dogmom_ph" "B001") = false
  ∧ selectedBaleId (sellingTo "dogmom_ph" "B001") ≠ ""
  ∧ addToCart 1 "r" 100 false (deleteBale "B001" emptyStore)
              (sellingTo "dogmom_ph" "B001")
    = setOosModalData (Some (OosModalData.mk "" 0 0))
                      (sellingTo "dogmom_ph" "B001").
Proof.
  assert (selectedBaleId (sellingTo "dogmom_ph" "B001") ≠ "") as Hsel
    by discriminate.
  split; [reflexivity|]. split; [exact Hsel|].
  apply (addToCart_missing_bale 1 "r" 100 false emptyStore
           (sellingTo "dogmom_ph" "B001") eq_refl Hsel).
Defined.

Lemma totalItemsInCart_shift (l : list CartItem.t) (a : Z) :
  foldl (λ sum item, sum + CartItem.quantity item) a l
  = a + totalItemsInCart l.
Proof.
  unfold totalItemsInCart. revert a.
  induction l as [|x l IH]; intros a; simpl; [lia|].
  rewrite IH, (IH (0 + _)). lia.
Qed.

Lemma totalItemsInCart_cons (x : CartItem.t) (l : list CartItem.t) :
  totalItemsInCart (x :: l) = CartItem.quantity x + totalItemsInCart l.
Proof. unfold totalItemsInCart at 1. simpl. by rewrite totalItemsInCart_shift. Qed.

Lemma totalItemsInCart_delete (l : list CartItem.t) (i : nat) (x : CartItem.t) :
  l !! i = Some x →
  totalItemsInCart (delete i l) = totalItemsInCart l - CartItem.quantity x.
Proof.
  revert i. induction l as [|y l IH]; intros [|i] Hi; simplify_eq/=.
  - rewrite totalItemsInCart_cons. lia.
  - rewrite !totalItemsInCart_cons, (IH i) by done. lia.
Qed.

Lemma totalItemsInCart_addLine now rnd price isFreebie baleId (l : list CartItem.t) :
  totalItemsInCart (addLine now rnd price isFreebie baleId l)
  = totalItemsInCart l + 1.
Proof.
  unfold addLine.
  destruct (list_find _ l) as [[i x]|] eqn:Hfind.
  - apply list_find_Some in Hfind as (Hi & _).
    rewrite totalItemsInCart_cons, (totalItemsInCart_delete l i x Hi). simpl. lia.
  - rewrite totalItemsInCart_cons. simpl. lia.
Qed.

(** The button grid lists exactly the batches on sale, each with what is
    left of it: its size minus the quantity of the stored orders that are
    not cancelled and of the cart, and never less than zero.  When the
    batch ids are distinct this is the figure [addToCart] checks: on a
    batch shown with nothing left the cart stays as it is, and otherwise a
    call for a customer who is not blacklisted puts one more item in the
    cart. *)
Theorem baleAvailability_matches_addToCart (st : Store) (ui : LiveSell) :
  (∀ b, (∃ r, (b, r) ∈ baleAvailability st (cart ui))
        ↔ b ∈ getBales st ∧ Bale.status b = OnSale)
  ∧ (∀ b r, (b, r) ∈ baleAvailability st (cart ui) →
       r = Z.max 0 (Bale.itemCount b - soldCount (Bale.id b) st
                    - totalItemsInCart
                        (filter (λ c, CartItem.baleId c = Bale.id b) (cart ui))))
  ∧ (NoDup (Bale.id <$> getBales st) →
     ∀ b r, (b, r) ∈ baleAvailability st (cart ui) →
       r = BaleStats.remaining (getBaleStats st (cart ui) (Bale.id b))
       ∧ (selectedBaleId ui = Bale.id b → Bale.id b ≠ "" →
          ∀ now rnd inputPrice isFreebie,
            let ui' := addToCart now rnd inputPrice isFreebie st ui in
            (r <= 0 → cart ui' = cart ui)
            ∧ (0 < r → isRestricted ui = false →
               totalItemsInCart (cart ui') = totalItemsInCart (cart ui) + 1))).
Proof.
  assert (∀ b r, (b, r) ∈ baleAvailability st (cart ui) →
            b ∈ getBales st ∧ Bale.status b = OnSale
            ∧ r = Z.max 0 (Bale.itemCount b - soldCount (Bale.id b) st
                    - totalItemsInCart
                        (filter (λ c, CartItem.baleId c = Bale.id b) (cart ui))))
    as Hin.
  { intros b r Hbr. unfold baleAvailability in Hbr.
    apply list_elem_of_fmap in Hbr as (b' & Heq & Hb').
    apply list_elem_of_filter in Hb' as [Hs Hb'].
    injection Heq as -> ->. done. }
  split_and!.
  - intros b. split.
    + intros [r Hbr]. by destruct (Hin b r Hbr) as (? & ? & _).
    + intros [Hb Hs]. eexists. unfold baleAvailability.
      apply list_elem_of_fmap. exists b. split; [done|].
      by apply list_elem_of_filter.
  - intros b r Hbr. by destruct (Hin b r Hbr) as (_ & _ & ?).
  - intros Hnd b r Hbr. destruct (Hin b r Hbr) as (Hb & Hs & Hr).
    apply list_elem_of_lookup in Hb as [i Hi].
    pose proof (list_find_unique_key Bale.id (getBales st) i b Hnd Hi) as Hfind.
    destruct (getBaleStats_found st (cart ui) (Bale.id b) i b Hfind)
      as (Hrem & _ & _).
    assert (r = BaleStats.remaining (getBaleStats st (cart ui) (Bale.id b)))
      as Hstats.
    { rewrite Hrem, Hr. f_equal. lia. }
    split; [done|].
    intros Hsel Hid now rnd inputPrice isFreebie ui'. subst ui'.
    unfold addToCart. rewrite Hsel, <-Hstats.
    rewrite (decide_False (P := Bale.id b = "")) by done.
    split.
    + intros Hle. rewrite decide_True by done.
      by destruct (isRestricted ui).
    + intros Hpos Hres. rewrite Hres, decide_False by lia.
      simpl. apply totalItemsInCart_addLine.
Qed.

Lemma baleAvailability_matches_addToCart_witness :
  NoDup (Bale.id <$> getBales smallBaleStore)
  ∧ baleAvailability smallBaleStore
      [CartItem.mk "c_1_r1" 100 2 false "B"]
    = [(Bale.mk "B" "Bale" OnSale 1000 2, 0)]
  ∧ BaleStats.remaining
      (getBaleStats smallBaleStore [CartItem.mk "c_1_r1" 100 2 false "B"] "B") = 0.
Proof.
  assert (NoDup (Bale.id <$> getBales smallBaleStore)) as Hnd.
  { apply (bool_decide_unpack _). vm_compute. exact I. }
  split; [exact Hnd|]. split; [reflexivity|].
  destruct (baleAvailability_matches_addToCart smallBaleStore
              (setCart [CartItem.mk "c_1_r1" 100 2 false "B"] (sellingTo "dogmom_ph" "B")))
    as (_ & _ & Hstats).
  assert ((Bale.mk "B" "Bale" OnSale 1000 2, 0)
          ∈ baleAvailability smallBaleStore
              (cart (setCart [CartItem.mk "c_1_r1" 100 2 false "B"]
                             (sellingTo "dogmom_ph" "B")))) as Hmem
    by apply list_elem_of_here.
  symmetry. exact (proj1 (Hstats Hnd _ _ Hmem)).
Defined.

(** ** Sums of amounts *)

Section Sums.
Context {A : Type}.
Implicit Types (f g : A → Q) (l : list A).

Lemma foldl_Qplus_shift f l (a : Q) :
  (foldl (λ sum x, sum + f x) a l == a + foldl (λ sum x, sum + f x) 0 l)%Q.
Proof.
  revert a. induction l as [|x l IH]; intros a; simpl.
  - lra.
  - rewrite IH, (IH (0 + f x)%Q). lra.
Qed.

Lemma foldl_Qplus_cons f x l :
  (foldl (λ sum x, sum + f x) 0 (x :: l)
   == f x + foldl (λ sum x, sum + f x) 0 l)%Q.
Proof. simpl. rewrite foldl_Qplus_shift. lra. Qed.

Lemma foldl_Qplus_app f l1 l2 :
  (foldl (λ sum x, sum + f x) 0 (l1 ++ l2)
   == foldl (λ sum x, sum + f x) 0 l1 + foldl (λ sum x, sum + f x) 0 l2)%Q.
Proof. rewrite foldl_app. apply foldl_Qplus_shift. Qed.



Lemma foldl_Qplus_nonneg f l :
  (∀ x, x ∈ l → (0 <= f x)%Q) →
  (0 <= foldl (λ sum x, sum + f x) 0 l)%Q.
Proof.
  induction l as [|x l IH]; intros Hf; [simpl; lra|].
  rewrite foldl_Qplus_cons.
  assert (0 <= f x)%Q by (apply Hf, list_elem_of_here).
  assert (0 <= foldl (λ sum x, sum + f x) 0 l)%Q
    by (apply IH; intros y Hy; apply Hf; by apply list_elem_of_further).
  lra.
Qed.
End Sums.



(** ** What a checkout records *)

Section CheckoutSums.
Context (ui : LiveSell).

Hypothesis freebies_free :
  ∀ item, item ∈ cart ui → CartItem.isFreebie item = true →
          (CartItem.price item == 0)%Q.
Hypothesis total_nonneg : (0 <= cartTotal (cart ui))%Q.
Hypothesis discount_nonneg : useVipTicket ui = true → (0 <= vipDiscount ui)%Q.



End CheckoutSums.







(** A checkout that one of the guards of [handleCheckout] refuses records
    no order, leaves the products, the batches and the ticket counts as
    they are and keeps the cart and the username on the screen: the only
    thing it may have written is the customer row that
    [getOrCreateCustomer] makes for a new username. *)
Theorem handleCheckout_refused `{NumberToString} (now : N) (st : Store)
    (ui : LiveSell) :
  ¬ checkoutAccepted now st ui →
  let r := handleCheckout now st ui in
  (r.2 = st ∨ r.2 = (getOrCreateCustomer now (username ui) st).2)
  ∧ getOrders r.2 = getOrders st
  ∧ getProducts r.2 = getProducts st
  ∧ getBales r.2 = getBales st
  ∧ cart r.1 = cart ui
  ∧ username r.1 = username ui.
Proof.
  intros Hrefused r.
  assert ((r.2 = st ∨ r.2 = (getOrCreateCustomer now (username ui) st).2)
          ∧ cart r.1 = cart ui ∧ username r.1 = username ui) as (Hst & Hc & Hu).
  { subst r. unfold handleCheckout.
    destruct (session ui) as [s|] eqn:Hs; [|by auto].
    destruct (decide (username ui = "")) as [|Huser]; [by auto|].
    destruct (getOrCreateCustomer now (username ui) st) as [customer st1]
      eqn:Hcust.
    destruct (Customer.isBlacklisted customer) eqn:Hblack; [by auto|].
    destruct (useVipTicket ui) eqn:Hvip; simpl.
    - destruct (bool_decide (vipDiscountType ui = FIXED)
                && bool_decide (cartTotal (cart ui) < vipDiscount ui)%Q)
        eqn:Hfixed; [by auto|].
      destruct (Customer.vipTickets customer) as [t|] eqn:Ht; [|by auto].
      destruct (decide (t > 0)) as [Hpos|]; [|by auto].
      exfalso. apply Hrefused.
      split; [by eexists|]. split; [done|]. rewrite Hcust. simpl.
      split; [done|]. intros _. split; [|by exists t].
      intros Hty. apply andb_false_iff in Hfixed as [Hf|Hf].
      + by apply bool_decide_eq_false in Hf.
      + apply bool_decide_eq_false in Hf. by apply Qnot_lt_le.
    - exfalso. apply Hrefused.
      split; [by eexists|]. split; [done|]. rewrite Hcust. simpl.
      split; [done|]. intros Hv. congruence. }
  pose proof (getOrCreateCustomer_frame now (username ui) st) as (Hp & Ho & Hb).
  split_and!; try done.
  - destruct Hst as [->| ->]; [done|]. unfold getOrders. by rewrite Ho.
  - destruct Hst as [->| ->]; [done|]. unfold getProducts. by rewrite Hp.
  - destruct Hst as [->| ->]; [done|]. unfold getBales. by rewrite Hb.
Qed.

Lemma handleCheckout_refused_witness :
  ¬ checkoutAccepted 9 emptyStore (discountedCart FIXED 1500)
  ∧ (@handleCheckout wholeNumberToString 9 emptyStore
       (discountedCart FIXED 1500)).2 = emptyStore
  ∧ cart (@handleCheckout wholeNumberToString 9 emptyStore
            (discountedCart FIXED 1500)).1
    = [CartItem.mk "c_1_r" 1000 1 false "B001"].
Proof.
  assert (¬ checkoutAccepted 9 emptyStore (discountedCart FIXED 1500)) as Hno.
  { intros (_ & _ & _ & Hticket).
    destruct (Hticket eq_refl) as (Hfixed & _).
    specialize (Hfixed eq_refl). by vm_compute in Hfixed. }
  split; [exact Hno|].
  destruct (@handleCheckout_refused wholeNumberToString 9 emptyStore
              (discountedCart FIXED 1500) Hno) as (_ & _ & _ & _ & Hcart & _).
  split; [reflexivity | exact Hcart].
Defined.

(** [handleMakeVip] marks the customer of the typed username VIP and adds
    exactly one ticket to that row, which it creates when the username is
    new; no other row changes and the screen then shows the stored
    customers.  Without a username it only raises an alert.  A ticket so
    granted to a customer who is not blacklisted can be spent at once: a
    checkout with the ticket brings the count back to what it was. *)
Theorem handleMakeVip_grants_ticket `{NumberToString} (now : N) (st : Store)
    (ui : LiveSell) :
  NoDup (Customer.id <$> getCustomers st) →
  (list_find (λ c, Customer.username c = username ui) (getCustomers st) = None →
   ("c_" +:+ pretty now) ∉ (Customer.id <$> getCustomers st)) →
  let r := handleMakeVip now st ui in
  (username ui = "" → r = (alert "Enter a username first" ui, st))
  ∧ (username ui ≠ "" →
     getCustomers r.2
     = match list_find (λ c, Customer.username c = username ui)
                       (getCustomers st) with
       | Some (i, c) => <[i := madeVip c]> (getCustomers st)
       | None => getCustomers st ++ [madeVip (newCustomer now (username ui))]
       end
     ∧ allCustomers r.1 = getCustomers r.2
     ∧ getOrders r.2 = getOrders st
     ∧ getProducts r.2 = getProducts st
     ∧ getBales r.2 = getBales st
     ∧ ∀ i c now' s,
         list_find (λ c, Customer.username c = username ui) (getCustomers st)
           = Some (i, c) →
         session ui = Some s → useVipTicket ui = true →
         Customer.isBlacklisted c = false →
         (vipDiscountType ui = FIXED →
          (vipDiscount ui <= cartTotal (cart ui))%Q) →
         0 <= default 0 (Customer.vipTickets c) →
         ticketsOf (username ui) r.2
           = Some (default 0 (Customer.vipTickets c) + 1)
         ∧ ticketsOf (username ui) (handleCheckout now' r.2 r.1).2
           = Some (default 0 (Customer.vipTickets c))).
Proof.
  intros Hnd Hfresh r. split.
  - intros Hu. subst r. unfold handleMakeVip. by rewrite decide_True.
  - intros Hu.
    assert (r = (setFeedback (Some "VIP Ticket Added (+1)")
                   (setAllCustomers
                      (getCustomers
                         (updateCustomer
                            (madeVip (getOrCreateCustomer now (username ui) st).1)
                            (getOrCreateCustomer now (username ui) st).2)) ui),
                 updateCustomer
                   (madeVip (getOrCreateCustomer now (username ui) st).1)
                   (getOrCreateCustomer now (username ui) st).2)) as Hr.
    { subst r. unfold handleMakeVip. rewrite decide_False by done.
      by destruct (getOrCreateCustomer now (username ui) st). }
    pose proof (getOrCreate_then_update now (username ui) st madeVip
                  (λ _, eq_refl) Hnd Hfresh) as Hupd. simpl in Hupd.
    assert (∀ c, madeVip (withTickets c) = madeVip c) as Hvip.
    { intros c. unfold withTickets.
      destruct (Customer.vipTickets c) eqn:E; [done|].
      unfold madeVip. simpl. by rewrite E. }
    assert (getCustomers r.2
            = match list_find (λ c, Customer.username c = username ui)
                              (getCustomers st) with
              | Some (i, c) => <[i := madeVip c]> (getCustomers st)
              | None => getCustomers st ++ [madeVip (newCustomer now (username ui))]
              end) as Hcust.
    { rewrite Hr. simpl. rewrite Hupd.
      destruct (list_find _ (getCustomers st)) as [[i c]|]; [|done].
      simpl. by rewrite Hvip. }
    pose proof (getOrCreateCustomer_frame now (username ui) st) as (Hp & Ho & Hb).
    pose proof (updateCustomer_frame
                  (madeVip (getOrCreateCustomer now (username ui) st).1)
                  (getOrCreateCustomer now (username ui) st).2)
      as (Hp' & Ho' & Hb').
    split_and!.
    + done.
    + by rewrite Hr.
    + rewrite Hr. unfold getOrders. simpl. by rewrite Ho', Ho.
    + rewrite Hr. unfold getProducts. simpl. by rewrite Hp', Hp.
    + rewrite Hr. unfold getBales. simpl. by rewrite Hb', Hb.
    + intros i c now' s Hfind Hs Hticket Hblack Hfixed Hcount.
      rewrite Hfind in Hcust.
      assert (list_find (λ c, Customer.username c = username r.1)
                        (getCustomers r.2) = Some (i, madeVip c)) as Hfind'.
      { rewrite Hcust, Hr. simpl.
        apply (list_find_insert_same _ _ i c (madeVip c) Hfind).
        simpl. by apply list_find_Some in Hfind as (_ & ? & _). }
      assert (NoDup (Customer.id <$> getCustomers r.2)) as Hnd'.
      { rewrite Hcust. rewrite (ids_insert _ i c); [done| |done].
        by apply list_find_Some in Hfind as (? & _). }
      assert (username r.1 = username ui) as Hur by (by rewrite Hr).
      split.
      * unfold ticketsOf. rewrite <-Hur, Hfind'. done.
      * assert (checkoutAccepted now' r.2 r.1) as Hacc.
        { split; [rewrite Hr; by eexists|]. split; [by rewrite Hur|].
          rewrite (getOrCreateCustomer_found now' _ _ i (madeVip c) Hnd' Hfind').
          simpl. split; [done|]. intros _. split.
          - rewrite Hr. simpl. done.
          - eexists. split; [done|]. lia. }
        destruct (handleCheckout_customers now' r.2 r.1 s i (madeVip c)
                    (default 0 (Customer.vipTickets c) + 1) Hnd' Hfind' eq_refl
                    ltac:(by rewrite Hr) ltac:(by rewrite Hr) Hacc)
          as (y & (Hyid & Hyu & Hyt) & Hy).
        unfold ticketsOf. rewrite <-Hur, Hy.
        rewrite (list_find_insert_same _ _ i (madeVip c) y Hfind').
        -- simpl. rewrite Hyt. f_equal. lia.
        -- rewrite Hyu, Hur. simpl.
           by apply list_find_Some in Hfind as (_ & ? & _).
Qed.

Lemma handleMakeVip_grants_ticket_witness :
  NoDup (Customer.id <$> getCustomers emptyStore)
  ∧ ticketsOf "dogmom_ph" (handleMakeVip 5 emptyStore ticketCart).2 = Some 3
  ∧ ticketsOf "dogmom_ph"
      (@handleCheckout wholeNumberToString 9
         (handleMakeVip 5 emptyStore ticketCart).2
         (handleMakeVip 5 emptyStore ticketCart).1).2 = Some 2.
Proof.
  assert (NoDup (Customer.id <$> getCustomers emptyStore)) as Hnd.
  { apply (bool_decide_unpack _). vm_compute. exact I. }
  split; [exact Hnd|].
  destruct (@handleMakeVip_grants_ticket wholeNumberToString 5 emptyStore
              ticketCart Hnd) as (_ & Hknown).
  { intros Hnone. by vm_compute in Hnone. }
  destruct Hknown as (_ & _ & _ & _ & _ & Hspent); [discriminate|].
  destruct (Hspent 0%nat (Customer.mk "c1" "dogmom_ph" true (Some 2) false 2450 8)
              9%N liveSession eq_refl eq_refl eq_refl eq_refl)
    as [H3 H2].
  - discriminate.
  - simpl. lia.
  - split; [exact H3 | exact H2].
Defined.

(** ** Objects used as maps *)

Section ObjFacts.
Context {V : Type}.
Implicit Types (o : list (string * V)) (k : string) (v : V).

Lemma Obj_get_set_same o k v : Obj.get (Obj.set k v o) k = Some v.
Proof.
  unfold Obj.get, Obj.set.
  destruct (upsert_find_same fst (k, v) o) as (i & Hi & _).
  simpl in Hi. by rewrite Hi.
Qed.

Lemma Obj_get_set_other o k k' v :
  k' ≠ k → Obj.get (Obj.set k v o) k' = Obj.get o k'.
Proof.
  intros Hk. unfold Obj.get, Obj.set.
  pose proof (upsert_find_other fst (k, v) o k' Hk) as Hother.
  simpl in Hother. by rewrite Hother.
Qed.

Lemma Obj_keys_set o k v :
  fst <$> Obj.set k v o
  = if decide (k ∈ fst <$> o) then fst <$> o else (fst <$> o) ++ [k].
Proof.
  unfold Obj.set. simpl.
  destruct (list_find (λ kv, kv.1 = k) o) as [[i [k0 v0]]|] eqn:Hfind.
  - apply list_find_Some in Hfind as (Hi & Hk & _). simpl in Hk. subst k0.
    rewrite decide_True.
    + rewrite list_fmap_insert. simpl. apply list_insert_id.
      by rewrite list_lookup_fmap, Hi.
    + apply list_elem_of_fmap. exists (k, v0). split; [done|].
      by eapply list_elem_of_lookup_2.
  - rewrite decide_False.
    + by rewrite fmap_app.
    + intros Hin. apply list_elem_of_fmap in Hin as ([k0 v0] & -> & Hin).
      eapply list_find_None in Hfind. rewrite Forall_forall in Hfind.
      by apply (Hfind _ Hin).
Qed.

Lemma Obj_NoDup_set o k v : NoDup (fst <$> o) → NoDup (fst <$> Obj.set k v o).
Proof.
  intros Hnd. rewrite Obj_keys_set.
  destruct (decide (k ∈ fst <$> o)); [done|].
  apply NoDup_app. split_and!; [done| |apply NoDup_singleton].
  intros x Hx Hx'. apply list_elem_of_singleton in Hx'. by subst x.
Qed.

Lemma Obj_get_Some o k v :
  NoDup (fst <$> o) → (k, v) ∈ o → Obj.get o k = Some v.
Proof.
  intros Hnd Hin. apply list_elem_of_lookup in Hin as [i Hi].
  unfold Obj.get.
  pose proof (list_find_unique_key fst o i (k, v) Hnd Hi) as Hfind.
  simpl in Hfind. by rewrite Hfind.
Qed.

Lemma Obj_get_is_Some o k : is_Some (Obj.get o k) ↔ k ∈ fst <$> o.
Proof.
  unfold Obj.get. split.
  - intros [v Hv].
    destruct (list_find (λ kv, kv.1 = k) o) as [[i [k0 v0]]|] eqn:Hfind;
      [|done].
    apply list_find_Some in Hfind as (Hi & Hk & _). simpl in Hk. subst k0.
    apply list_elem_of_fmap. exists (k, v0). split; [done|].
    by eapply list_elem_of_lookup_2.
  - intros Hin. apply list_elem_of_fmap in Hin as ([k0 v0] & -> & Hin).
    destruct (list_find_elem_of (λ kv : string * V, kv.1 = (k0, v0).1) o (k0, v0)
                Hin eq_refl) as [[i kv] Hfind].
    simpl in *. rewrite Hfind. by eexists.
Qed.

Lemma Obj_entries_Permutation o : Obj.entries o ≡ₚ o.
Proof.
  unfold Obj.entries.
  assert (∀ l : list (N * (string * V)),
            snd <$> merge_sort Obj.indexLe l ≡ₚ snd <$> l) as Hsort.
  { intros l. by rewrite merge_sort_Permutation. }
  rewrite Hsort. clear Hsort.
  induction o as [|[k v] o IH]; [done|].
  simpl. rewrite filter_cons. simpl.
  destruct (Obj.arrayIndex k) as [n|]; simpl.
  - apply perm_skip. exact IH.
  - rewrite <-Permutation_middle. apply perm_skip. exact IH.
Qed.
End ObjFacts.

Lemma Obj_get_elem_of {V} (o : list (string * V)) (k : string) (v : V) :
  Obj.get o k = Some v → (k, v) ∈ o.
Proof.
  unfold Obj.get. intros Hget.
  destruct (list_find (λ kv, kv.1 = k) o) as [[i [k0 v0]]|] eqn:Hfind;
    simplify_eq/=.
  apply list_find_Some in Hfind as (Hi & Hk & _). simpl in Hk. subst k0.
  by eapply list_elem_of_lookup_2.
Qed.

Lemma Obj_elem_of_set {V} (o : list (string * V)) (k k' : string) (v v' : V) :
  NoDup (fst <$> o) →
  (k', v') ∈ Obj.set k v o → (k' = k ∧ v' = v) ∨ (k' ≠ k ∧ (k', v') ∈ o).
Proof.
  intros Hnd Hin.
  pose proof (Obj_get_Some _ k' v' (Obj_NoDup_set o k v Hnd) Hin) as Hget.
  destruct (decide (k' = k)) as [->|Hne].
  - rewrite Obj_get_set_same in Hget. left. by injection Hget.
  - rewrite Obj_get_set_other in Hget by done. right.
    split; [done|]. by apply Obj_get_elem_of.
Qed.

(** ** The summary of a finished session *)

Lemma filter_none {A} (P : A → Prop) `{!∀ x, Decision (P x)} (l : list A) :
  (∀ x, x ∈ l → ¬ P x) → filter P l = [].
Proof.
  induction l as [|x l IH]; intros HP; [done|].
  rewrite filter_cons_False by (apply HP, list_elem_of_here).
  apply IH. intros y Hy. apply HP. by apply list_elem_of_further.
Qed.

Lemma orZero_Some (x : Q) : (orZero (Some x) == x)%Q.
Proof. simpl. destruct (decide (x == 0)%Q) as [Hx|_]; [by rewrite Hx|done]. Qed.

Lemma proto_inherited : "__proto__" ∈ Obj.inherited.
Proof.
  unfold Obj.inherited.
  repeat first [apply list_elem_of_here | apply list_elem_of_further].
Qed.

Lemma customerTotals_fold (l : list Order.t) (totals : list (string * Total)) :
  NoDup (fst <$> totals) →
  (∀ o, o ∈ l → Order.customerUsername o ∉ Obj.inherited) →
  (∀ u v, (u, v) ∈ totals → ∃ x, v = Amount x) →
  let totals' :=
    foldl (λ totals o,
             let u := Order.customerUsername o in
             let sum :=
               match Obj.get totals u with
               | Some (Amount x) => Amount (orZero (Some x) + Order.totalPrice o)
               | Some Text => Text
               | None =>
                   if decide (u ∈ Obj.inherited) then Text
                   else Amount (orZero None + Order.totalPrice o)
               end in
             if decide (u = "__proto__") then totals else Obj.set u sum totals)
          totals l in
  NoDup (fst <$> totals')
  ∧ (∀ u v, (u, v) ∈ totals' → ∃ x, v = Amount x)
  ∧ (∀ u, (spentBy totals' u
           == spentBy totals u
              + foldl (λ sum o, sum + Order.totalPrice o) 0
                      (filter (λ o, Order.customerUsername o = u) l))%Q)
  ∧ (∀ u, u ∈ fst <$> totals'
          ↔ u ∈ fst <$> totals ∨ u ∈ Order.customerUsername <$> l).
Proof.
  revert totals. induction l as [|o l IH]; intros totals Hnd Hown Hnum.
  - simpl. split_and!; [done|done| |].
    + intros u. lra.
    + intros u. rewrite elem_of_nil. tauto.
  - cbn [foldl].
    pose proof (Hown o (list_elem_of_here _ _)) as Ho.
    assert (Order.customerUsername o ≠ "__proto__") as Hproto.
    { intros Heq. apply Ho. rewrite Heq. apply proto_inherited. }
    destruct (decide (Order.customerUsername o = "__proto__")) as [|_]; [done|].
    destruct (decide (Order.customerUsername o ∈ Obj.inherited)) as [|_];
      [done|].
    set (u0 := Order.customerUsername o) in *.
    assert (∃ x, match Obj.get totals u0 with
                 | Some (Amount x) => Amount (orZero (Some x) + Order.totalPrice o)
                 | Some Text => Text
                 | None => Amount (orZero None + Order.totalPrice o)
                 end = Amount x
                 ∧ (x == spentBy totals u0 + Order.totalPrice o)%Q)
      as (x & -> & Hx).
    { unfold spentBy.
      destruct (Obj.get totals u0) as [[y|]|] eqn:Hget.
      - eexists. split; [done|]. by rewrite orZero_Some.
      - apply Obj_get_elem_of in Hget. by destruct (Hnum _ _ Hget).
      - eexists. split; [done|]. simpl. lra. }
    destruct (IH (Obj.set u0 (Amount x) totals)) as (Hnd' & Hnum' & Hsum & Hkeys).
    { by apply Obj_NoDup_set. }
    { intros o' Ho'. apply Hown. by apply list_elem_of_further. }
    { intros u v Hin.
      apply Obj_elem_of_set in Hin as [ [_ ->] | [_ Hin] ]; [by eexists| |done].
      by apply (Hnum u v). }
    split_and!; [done|done| |].
    + intros u. rewrite (Hsum u). rewrite filter_cons.
      destruct (decide (Order.customerUsername o = u)) as [<-|Hne].
      * fold u0. unfold spentBy at 1. rewrite Obj_get_set_same.
        rewrite foldl_Qplus_cons. lra.
      * unfold spentBy at 1. rewrite Obj_get_set_other by done. done.
    + intros u. rewrite (Hkeys u). rewrite Obj_keys_set.
      rewrite fmap_cons, elem_of_cons. fold u0.
      destruct (decide (u0 ∈ fst <$> totals)) as [Hin|_].
      * split; [intros [?|?]; tauto|].
        intros [?|[->|?]]; [by left|by left|by right].
      * rewrite elem_of_app, list_elem_of_singleton. tauto.
Qed.

Lemma topSpender_fold (l : list (string * Total))
    (acc : Q * option (string * Q)) :
  let r :=
    foldl (λ (acc : Q * option (string * Q)) (e : string * Total),
             match e.2 with
             | Amount spent =>
                 if decide (acc.1 < spent)%Q then (spent, Some (e.1, spent))
                 else acc
             | Text => acc
             end)
          acc l in
  (acc.1 <= r.1)%Q
  ∧ (∀ u x, (u, Amount x) ∈ l → (x <= r.1)%Q)
  ∧ (r = acc
     ∨ ∃ u x, (u, Amount x) ∈ l ∧ r = (x, Some (u, x)) ∧ (acc.1 < x)%Q).
Proof.
  revert acc. induction l as [|[u0 [x0|]] l IH]; intros acc; cbn [foldl snd fst].
  - split_and!; [lra| |by left]. intros u x He. by apply elem_of_nil in He.
  - destruct (decide (acc.1 < x0)%Q) as [Hlt|Hge].
    + destruct (IH (x0, Some (u0, x0))) as (Hle & Hall & Hr). simpl in Hle.
      split_and!.
      * lra.
      * intros u x He. apply elem_of_cons in He as [He|He]; [|by eapply Hall].
        by simplify_eq.
      * right. destruct Hr as [Hr|(u & x & He & Hr & Hlt')].
        -- exists u0, x0. split; [apply list_elem_of_here|done].
        -- exists u, x. split; [by apply list_elem_of_further|].
           split; [done|]. simpl in Hlt'. lra.
    + destruct (IH acc) as (Hle & Hall & Hr).
      split_and!.
      * done.
      * intros u x He. apply elem_of_cons in He as [He|He]; [|by eapply Hall].
        simplify_eq. apply Qnot_lt_le in Hge. lra.
      * destruct Hr as [Hr|(u & x & He & Hr & Hlt')]; [by left|].
        right. exists u, x. split; [by apply list_elem_of_further|done].
  - destruct (IH acc) as (Hle & Hall & Hr).
    split_and!.
    + done.
    + intros u x He. apply elem_of_cons in He as [He|He]; [done|by eapply Hall].
    + destruct Hr as [Hr|(u & x & He & Hr & Hlt')]; [by left|].
      right. exists u, x. split; [by apply list_elem_of_further|done].
Qed.

(** [confirmEndSession] closes the session in the store unless it is the
    manual one, and shows a summary whose sales and items are those of
    the orders of the session.  When no username of the session is a
    property name that objects inherit, its customer count is the number
    of distinct usernames among the orders of the session, and its top
    customer is a customer of the session who spent more than nothing and
    at least as much as every other one; there is no top customer exactly
    when nobody spent more than nothing. *)
Theorem session_summary (st : Store) (j : Journal) (ui : LiveSell)
    (sc : SessionControls) (s : LiveSession.t) :
  session ui = Some s →
  let r := confirmEndSession st j ui sc in
  let spent (u : string) : Q :=
    foldl (λ sum o, sum + Order.totalPrice o)%Q 0%Q
          (sessionOrdersOf (LiveSession.id s) u st) in
  let customers :=
    Order.customerUsername
      <$> filter (λ o, Order.sessionId o = LiveSession.id s) (getOrders st) in
  showEndConfirmation r.1 = false
  ∧ r.2 = (if decide (LiveSession.id s = OFF_LIVE_ID) then j
           else closeSession (LiveSession.id s) j)
  ∧ ∃ d, finishedSessionData r.1 = Some d
      ∧ SessionSummaryData.name d = LiveSession.name s
      ∧ SessionSummaryData.date d = LiveSession.date s
      ∧ SessionSummaryData.totalSales d
        = sessionTotal (getOrders st) (LiveSession.id s)
      ∧ SessionSummaryData.totalItems d
        = sessionItems (getOrders st) (LiveSession.id s)
      ∧ ((∀ u, u ∈ customers → u ∉ Obj.inherited) →
         SessionSummaryData.customerCount d
         = Z.of_nat (length (remove_dups customers))
         ∧ match SessionSummaryData.topCustomer d with
           | Some (u, v) =>
               u ∈ customers ∧ (v == spent u)%Q ∧ (0 < v)%Q
               ∧ ∀ u', (spent u' <= v)%Q
           | None => ∀ u', (spent u' <= 0)%Q
           end).
Proof.
  intros Hs r spent customers. subst r. unfold confirmEndSession. rewrite Hs.
  simpl. split; [done|]. split.
  { by destruct (decide (LiveSession.id s = OFF_LIVE_ID)),
               (decide (LiveSession.id s ≠ OFF_LIVE_ID)). }
  eexists. split; [done|]. simpl.
  split; [done|]. split; [done|]. split; [done|]. split; [done|].
  intros Hown.
  set (so := filter (λ o, Order.sessionId o = LiveSession.id s) (getOrders st))
    in *.
  assert (NoDup (customerTotals so).*1
          ∧ (∀ u v, (u, v) ∈ customerTotals so → ∃ x, v = Amount x)
          ∧ (∀ u, (spentBy (customerTotals so) u
                   == spentBy [] u
                      + foldl (λ sum o, sum + Order.totalPrice o) 0
                          (filter (λ o, Order.customerUsername o = u) so))%Q)
          ∧ (∀ u, u ∈ (customerTotals so).*1
                  ↔ u ∈ (@nil (string * Total)).*1
                    ∨ u ∈ Order.customerUsername <$> so))
    as (Hnd & Hnum & Hsum & Hkeys).
  { apply (customerTotals_fold so [] NoDup_nil_2).
    - intros o Ho. apply Hown. by apply list_elem_of_fmap_2.
    - intros u v Hin. by apply elem_of_nil in Hin. }
  assert (∀ u, spent u
               = foldl (λ sum o, sum + Order.totalPrice o)%Q 0%Q
                       (filter (λ o, Order.customerUsername o = u) so)) as Hspent.
  { intros u. unfold spent, sessionOrdersOf, so. f_equal.
    rewrite list_filter_filter. apply list_filter_iff. tauto. }
  assert (∀ u, u ∈ (customerTotals so).*1 ↔ u ∈ customers) as Hkeys'.
  { intros u. rewrite (Hkeys u). simpl. rewrite elem_of_nil. tauto. }
  assert (∀ u x, (u, Amount x) ∈ customerTotals so
                 → (x == spent u)%Q ∧ u ∈ customers) as Hentry.
  { intros u x Hin. split.
    - rewrite Hspent.
      pose proof (Hsum u) as Hu.
      pose proof (Obj_get_Some (customerTotals so) u (Amount x) Hnd Hin)
        as Hget.
      unfold spentBy in Hu. rewrite Hget in Hu. simpl in Hu.
      rewrite Hu. lra.
    - apply (Hkeys' u). apply list_elem_of_fmap. by exists (u, Amount x). }
  assert (∀ u, u ∈ customers → ∃ x, (u, Amount x) ∈ customerTotals so) as Hcust.
  { intros u Hu. apply (Hkeys' u) in Hu.
    apply list_elem_of_fmap in Hu as ([u' v] & -> & Hin).
    destruct (Hnum _ _ Hin) as [x ->]. by exists x. }
  assert (∀ u, u ∉ customers → spent u = 0%Q) as Hnone.
  { intros u Hu. rewrite Hspent.
    rewrite (filter_none (λ o, Order.customerUsername o = u) so); [done|].
    intros o Ho Ho'. apply Hu. subst u. by apply list_elem_of_fmap_2. }
  assert (∀ (bound : Q),
            (0 <= bound)%Q →
            (∀ u x, (u, Amount x) ∈ Obj.entries (customerTotals so)
                    → (x <= bound)%Q) →
            ∀ u, (spent u <= bound)%Q) as Hbound.
  { intros bound Hpos Hall u.
    destruct (decide (u ∈ customers)) as [Hu|Hu].
    - destruct (Hcust u Hu) as [v Hv].
      destruct (Hentry u v Hv) as [<- _].
      apply (Hall u v). by rewrite Obj_entries_Permutation.
    - by rewrite (Hnone u Hu). }
  split.
  - f_equal. unfold Obj.keys. rewrite length_fmap.
    rewrite (Permutation_length (Obj_entries_Permutation (customerTotals so))).
    rewrite <-(length_fmap fst). apply Permutation_length.
    apply NoDup_Permutation; [done|apply NoDup_remove_dups|].
    intros u. by rewrite elem_of_remove_dups, (Hkeys' u).
  - destruct (topSpender_fold (Obj.entries (customerTotals so)) (0%Q, None))
      as (_ & Hall & Hr).
    fold (topSpender (Obj.entries (customerTotals so))) in Hall, Hr.
    destruct Hr as [Hr|(u & v & He & Hr & Hlt)]; rewrite Hr in *; simpl in *.
    + by apply Hbound.
    + rewrite Obj_entries_Permutation in He.
      destruct (Hentry u v He) as [Hv Hu].
      split_and!; [done..|]. apply Hbound; [lra|done].
Qed.

Lemma session_summary_witness :
  session (sellingTo "dogmom_ph" "B001") = Some liveSession
  ∧ ∃ d, finishedSessionData
           (confirmEndSession twoItemStore emptyJournal
              (sellingTo "dogmom_ph" "B001")
              (mkSessionControls false true false None)).1 = Some d
         ∧ (SessionSummaryData.totalSales d == 500)%Q
         ∧ SessionSummaryData.totalItems d = 3
         ∧ SessionSummaryData.customerCount d = 1.
Proof.
  split; [reflexivity|].
  destruct (session_summary twoItemStore emptyJournal
              (sellingTo "dogmom_ph" "B001")
              (mkSessionControls false true false None) liveSession eq_refl)
    as (_ & _ & d & Hd & _ & _ & Hsales & Hitems & Hnames).
  destruct Hnames as [Hcount _].
  { apply Forall_forall. apply (bool_decide_unpack _). by vm_compute. }
  exists d. split; [exact Hd|].
  rewrite Hsales, Hitems, Hcount. by vm_compute.
Defined.

(** Once [confirmEndSession] has run on the session the screen was opened
    with, in a store whose session ids are distinct, a freshly opened
    selling screen no longer picks that session up, unless it is the
    manual one, which is never closed. *)
Theorem ended_session_is_not_reopened (st : Store) (j : Journal)
    (ui : LiveSell) (sc : SessionControls) (s : LiveSession.t) :
  session ui = Some s →
  NoDup (LiveSession.id <$> getSessions j) →
  let j' := (confirmEndSession st j ui sc).2 in
  (LiveSession.id s ≠ OFF_LIVE_ID →
   ∀ s', openSession j' = Some s' → LiveSession.id s' ≠ LiveSession.id s)
  ∧ (LiveSession.id s = OFF_LIVE_ID → j' = j).
Proof.
  intros Hs Hnd j'. subst j'. unfold confirmEndSession. rewrite Hs. simpl.
  split.
  - intros Hid s' Hopen Hsame.
    destruct (decide (LiveSession.id s ≠ OFF_LIVE_ID)) as [_|]; [|done].
    pose proof (closeSession_none_open (LiveSession.id s) j) as Hclosed.
    unfold openSession in Hopen.
    destruct (list_find _ (getSessions (closeSession (LiveSession.id s) j)))
      as [[i x]|] eqn:Hfind; [|done].
    injection Hopen as ->.
    apply list_find_Some in Hfind as (Hi & Hx & _).
    rewrite (Hclosed Hnd s') in Hx; [done| |done].
    by eapply list_elem_of_lookup_2.
  - intros Hid. by rewrite decide_False by (by intros ?).
Qed.

Lemma ended_session_is_not_reopened_witness :
  let r := createSession 5 "11/2/2026" "Live" emptyJournal in
  let ui := setSession (Some r.1) freshLiveSell in
  session ui = Some r.1
  ∧ NoDup (LiveSession.id <$> getSessions r.2)
  ∧ openSession r.2 = Some r.1
  ∧ openSession (confirmEndSession emptyStore r.2 ui
                   (mkSessionControls false true false None)).2 = None.
Proof.
  intros r ui.
  assert (NoDup (LiveSession.id <$> getSessions r.2)) as Hnd.
  { apply (bool_decide_unpack _). vm_compute. exact I. }
  split; [reflexivity|]. split; [exact Hnd|]. split; [reflexivity|].
  destruct (ended_session_is_not_reopened emptyStore r.2 ui
              (mkSessionControls false true false None) r.1 eq_refl Hnd)
    as [Hnot _].
  destruct (openSession _) as [s'|] eqn:Hopen; [|reflexivity].
  exfalso. apply (Hnot ltac:(discriminate) s' eq_refl).
  vm_compute in Hopen. discriminate Hopen.
Defined.

(** ** Removing a line of the cart *)






(** ** The groups of the Orders view *)


Section Grouping.
Context (customers : list Customer.t).

Lemma groupOrders_snoc (l : list Order.t) (o : Order.t) :
  groupOrders customers (l ++ [o])
  = groups ← groupOrders customers l;
    let key := Order.customerUsername o in
    match Obj.get groups key with
    | None =>
        if decide (key ∈ Obj.inherited) then None
        else
          Some (Obj.set key
                  (mkGroupedOrder o [Order.id o] [o]
                     (Some (default false (Obj.get (vipMap customers) key))))
                  groups)
    | Some g => Some (Obj.set key (mergeInto g o) groups)
    end.
Proof. unfold groupOrders. by rewrite foldl_app. Qed.

Lemma groupOf_other (l : list Order.t) (o : Order.t) (k : string)
    (g : GroupedOrder) :
  Order.customerUsername o ≠ k → groupOf l k g → groupOf (l ++ [o]) k g.
Proof.
  intros Hne (Hu & Hitems & Hrest). split; [done|]. split; [|done].
  rewrite filter_app, filter_cons_False, filter_nil by done.
  by rewrite app_nil_r.
Qed.

Lemma groupOf_new (l : list Order.t) (o : Order.t) (vip : option bool) :
  Order.customerUsername o ∉ Order.customerUsername <$> l →
  groupOf (l ++ [o]) (Order.customerUsername o)
          (mkGroupedOrder o [Order.id o] [o] vip).
Proof.
  intros Hnew. unfold groupOf. simpl. split_and!; try done.
  - rewrite filter_app, filter_cons_True, filter_nil by done.
    rewrite (filter_none _ l); [done|].
    intros x Hx Hu. apply Hnew. rewrite <-Hu. by apply list_elem_of_fmap_2.
  - lra.
  - lra.
  - by exists o, [].
Qed.

Lemma groupOf_merge (l : list Order.t) (o : Order.t) (g : GroupedOrder) :
  groupOf l (Order.customerUsername o) g →
  groupOf (l ++ [o]) (Order.customerUsername o) (mergeInto g o).
Proof.
  intros (Hu & Hitems & Hids & Hq & Hp & Ha & first & rest & Hfirst & Hhead).
  unfold groupOf. simpl. split_and!.
  - done.
  - rewrite filter_app, filter_cons_True, filter_nil by done. by rewrite Hitems.
  - by rewrite fmap_app, Hids.
  - rewrite foldl_app. simpl. by rewrite Hq.
  - rewrite foldl_Qplus_app, Hp. simpl. lra.
  - rewrite foldl_Qplus_app, Ha. simpl. lra.
  - exists first, (rest ++ [o]). split; [by rewrite Hfirst|done].
Qed.

Lemma groupOrders_inv (l : list Order.t) :
  match groupOrders customers l with
  | Some groups =>
      (∀ o, o ∈ l → Order.customerUsername o ∉ Obj.inherited)
      ∧ NoDup (fst <$> groups)
      ∧ (∀ k, k ∈ fst <$> groups ↔ k ∈ Order.customerUsername <$> l)
      ∧ (∀ k g, (k, g) ∈ groups → groupOf l k g)
  | None => ∃ o, o ∈ l ∧ Order.customerUsername o ∈ Obj.inherited
  end.
Proof.
  induction l as [|o l IH] using rev_ind.
  - simpl. split_and!; [|apply NoDup_nil_2|done|].
    + intros o Ho. by apply elem_of_nil in Ho.
    + intros k g Hin. by apply elem_of_nil in Hin.
  - rewrite groupOrders_snoc.
    destruct (groupOrders customers l) as [groups|]; simpl.
    2:{ destruct IH as (o' & Ho' & Hbad). exists o'.
        split; [|done]. rewrite elem_of_app. by left. }
    destruct IH as (Hown & Hnd & Hkeys & Hgroups).
    set (key := Order.customerUsername o).
    assert (∀ k, k ∈ Order.customerUsername <$> l ++ [o]
                 ↔ k ∈ Order.customerUsername <$> l ∨ k = key) as Hsnoc.
    { intros k. rewrite fmap_app, elem_of_app. simpl.
      by rewrite list_elem_of_singleton. }
    destruct (Obj.get groups key) as [g|] eqn:Hget.
    + pose proof (Obj_get_elem_of _ _ _ Hget) as Hin.
      assert (key ∈ fst <$> groups) as Hkey.
      { apply list_elem_of_fmap. by exists (key, g). }
      split_and!.
      * intros o' Ho'. apply elem_of_app in Ho' as [Ho'|Ho'];
          [by apply Hown|].
        apply list_elem_of_singleton in Ho'. subst o'.
        apply Hkeys in Hkey.
        apply list_elem_of_fmap in Hkey as (o' & Heq & Ho').
        fold key. rewrite Heq. by apply Hown.
      * by apply Obj_NoDup_set.
      * intros k. rewrite Obj_keys_set, decide_True by done.
        rewrite Hsnoc, (Hkeys k). split; [by left|].
        intros [? | ->]; [done|]. by apply Hkeys.
      * intros k g' Hin'.
        apply Obj_elem_of_set in Hin' as [ [-> ->] | [Hne Hin'] ]; [| |done].
        -- apply groupOf_merge. by apply Hgroups.
        -- apply groupOf_other; [done|]. by apply Hgroups.
    + assert (key ∉ fst <$> groups) as Hkey.
      { intros Hin. apply Obj_get_is_Some in Hin as [? Hin]. congruence. }
      destruct (decide (key ∈ Obj.inherited)) as [Hbad|Hgood].
      { exists o. split; [|done]. rewrite elem_of_app. right.
        apply list_elem_of_here. }
      split_and!.
      * intros o' Ho'. apply elem_of_app in Ho' as [Ho'|Ho'];
          [by apply Hown|].
        apply list_elem_of_singleton in Ho'. by subst o'.
      * by apply Obj_NoDup_set.
      * intros k. rewrite Obj_keys_set, decide_False by done.
        rewrite Hsnoc, elem_of_app, list_elem_of_singleton. by rewrite (Hkeys k).
      * intros k g' Hin'.
        apply Obj_elem_of_set in Hin' as [ [-> ->] | [Hne Hin'] ]; [| |done].
        -- apply groupOf_new. intros Hin. apply Hkey. by apply Hkeys.
        -- apply groupOf_other; [done|]. by apply Hgroups.
Qed.
End Grouping.

Section StableSort.
Context {A : Type} (before : A → A → bool).

Lemma insertBy_Permutation (x : A) (l : list A) : insertBy before x l ≡ₚ x :: l.
Proof.
  induction l as [|y l IH]; [done|]. simpl.
  destruct (before y x); [|done]. rewrite IH. apply perm_swap.
Qed.

Lemma stableSort_Permutation (l : list A) : stableSort before l ≡ₚ l.
Proof.
  induction l as [|x l IH]; [done|]. simpl.
  rewrite insertBy_Permutation. by apply perm_skip.
Qed.

Hypothesis asymmetric : ∀ x y, before x y = true → before y x = false.

Lemma insertBy_Sorted (x : A) (l : list A) :
  Sorted (λ a b, before b a = false) l →
  Sorted (λ a b, before b a = false) (insertBy before x l).
Proof.
  induction l as [|y l IH]; intros Hsorted; simpl.
  - by repeat constructor.
  - destruct (before y x) eqn:Hyx.
    + apply Sorted_inv in Hsorted as [Hl Hhd].
      constructor; [by apply IH|].
      destruct l as [|z l]; simpl.
      * constructor. by apply asymmetric.
      * apply HdRel_inv in Hhd.
        destruct (before z x); constructor; [done|by apply asymmetric].
    + constructor; [done|]. by constructor.
Qed.

Lemma stableSort_Sorted (l : list A) :
  Sorted (λ a b, before b a = false) (stableSort before l).
Proof.
  induction l as [|x l IH]; simpl; [constructor|]. by apply insertBy_Sorted.
Qed.
End StableSort.

Lemma Sorted_weaken {A} (R R' : A → A → Prop) (l : list A) :
  (∀ a b, R a b → R' a b) → Sorted R l → Sorted R' l.
Proof.
  intros HR. induction 1 as [|x l Hl IH Hhd]; constructor; [done|].
  destruct Hhd; constructor. by apply HR.
Qed.

(** What the groups of [filteredOrders] are, for a comparator that never
    puts each of two groups before the other. *)
Lemma filteredOrdersBy_cases (before : GroupedOrder → GroupedOrder → bool)
    (allOrders : list Order.t) (customers : list Customer.t)
    (s : LiveSession.t) (orderFilter : string) :
  (∀ x y, before x y = true → before y x = false) →
  match filteredOrdersBy before allOrders customers (Some s) orderFilter with
  | Some groups =>
      (∀ o, o ∈ allOrders → Order.sessionId o = LiveSession.id s →
            Order.customerUsername o ∉ Obj.inherited)
      ∧ (∀ g, g ∈ groups →
         items g
         = filter (λ o, Order.sessionId o = LiveSession.id s
                        ∧ Order.customerUsername o
                          = Order.customerUsername (base g)) allOrders
         ∧ ids g = Order.id <$> items g
         ∧ Order.quantity (base g)
           = foldl (λ sum o, sum + Order.quantity o) 0 (items g)
         ∧ (Order.totalPrice (base g)
            == foldl (λ sum o, sum + Order.totalPrice o) 0 (items g))%Q
         ∧ (Order.amountPaid (base g)
            == foldl (λ sum o, sum + Order.amountPaid o) 0 (items g))%Q
         ∧ (∃ first rest,
              items g = first :: rest
              ∧ Order.paymentStatus (base g) = Order.paymentStatus first
              ∧ Order.shippingStatus (base g) = Order.shippingStatus first
              ∧ Order.paymentMethod (base g) = Order.paymentMethod first
              ∧ Order.referenceNumber (base g) = Order.referenceNumber first
              ∧ Order.createdAt (base g) = Order.createdAt first)
         ∧ keepGroup orderFilter g = true)
      ∧ NoDup ((λ g, Order.customerUsername (base g)) <$> groups)
      ∧ Sorted (λ a b, before b a = false) groups
      ∧ (orderFilter ≠ "Unpaid" → orderFilter ≠ "Paid" →
         ∀ o, o ∈ allOrders → Order.sessionId o = LiveSession.id s →
              ∃ g, g ∈ groups ∧ o ∈ items g)
  | None =>
      ∃ o, o ∈ allOrders ∧ Order.sessionId o = LiveSession.id s
           ∧ Order.customerUsername o ∈ Obj.inherited
  end.
Proof.
  intros Hasym. unfold filteredOrdersBy.
  set (orders := filter (λ o, Order.sessionId o = LiveSession.id s) allOrders).
  pose proof (groupOrders_inv customers orders) as Hinv.
  destruct (groupOrders customers orders) as [G|]; simpl.
  2:{ destruct Hinv as (o & Ho & Hbad).
      apply list_elem_of_filter in Ho as [Hs Ho]. by exists o. }
  destruct Hinv as (Hown & Hnd & Hkeys & Hgroups).
  assert (∀ g, g ∈ Obj.values G →
               (Order.customerUsername (base g), g) ∈ G) as Hvalue.
  { intros g Hg. unfold Obj.values in Hg.
    apply list_elem_of_fmap in Hg as ([k g'] & -> & Hin). simpl.
    rewrite Obj_entries_Permutation in Hin.
    destruct (Hgroups k g' Hin) as (-> & _). done. }
  split_and!.
  - intros o Ho Hs. apply Hown. by apply list_elem_of_filter.
  - intros g Hg. rewrite stableSort_Permutation in Hg.
    apply list_elem_of_filter in Hg as [Hkeep Hg].
    destruct (Hgroups _ g (Hvalue g Hg))
      as (_ & Hitems & Hids & Hq & Hp & Ha & first & rest & Hfirst & _ & _ & Hps
          & Hss & Hpm & Hrn & Hc).
    split_and!; try done.
    + rewrite Hitems. unfold orders. rewrite list_filter_filter.
      apply list_filter_iff. tauto.
    + by exists first, rest.
  - rewrite stableSort_Permutation.
    eapply sublist_NoDup; [|apply fmap_sublist, sublist_filter].
    unfold Obj.values. rewrite <-list_fmap_compose.
    rewrite (list_fmap_ext _ fst (Obj.entries G)).
    + by rewrite Obj_entries_Permutation.
    + intros i [k g] Hi. simpl.
      apply list_elem_of_lookup_2 in Hi. rewrite Obj_entries_Permutation in Hi.
      by destruct (Hgroups k g Hi) as (-> & _).
  - by apply stableSort_Sorted.
  - intros Hu Hp o Ho Hs.
    assert (Order.customerUsername o ∈ fst <$> G) as Hkey.
    { apply Hkeys. apply list_elem_of_fmap_2. by apply list_elem_of_filter. }
    apply list_elem_of_fmap in Hkey as ([k g] & Hk & Hin). simpl in Hk. subst k.
    exists g. split.
    + rewrite stableSort_Permutation. apply list_elem_of_filter. split.
      * unfold keepGroup. by rewrite !decide_False.
      * unfold Obj.values. apply list_elem_of_fmap.
        exists (Order.customerUsername o, g). split; [done|].
        by rewrite Obj_entries_Permutation.
    + destruct (Hgroups _ g Hin) as (_ & -> & _).
      apply list_elem_of_filter. split; [done|]. by apply list_elem_of_filter.
Qed.

(** The first screen. *)
Lemma filteredOrders_cases (allOrders : list Order.t)
    (customers : list Customer.t) (s : LiveSession.t) (orderFilter : string) :
  match filteredOrders allOrders customers (Some s) orderFilter with
  | Some groups =>
      (∀ o, o ∈ allOrders → Order.sessionId o = LiveSession.id s →
            Order.customerUsername o ∉ Obj.inherited)
      ∧ (∀ g, g ∈ groups →
         items g
         = filter (λ o, Order.sessionId o = LiveSession.id s
                        ∧ Order.customerUsername o
                          = Order.customerUsername (base g)) allOrders
         ∧ ids g = Order.id <$> items g
         ∧ Order.quantity (base g)
           = foldl (λ sum o, sum + Order.quantity o) 0 (items g)
         ∧ (Order.totalPrice (base g)
            == foldl (λ sum o, sum + Order.totalPrice o) 0 (items g))%Q
         ∧ (Order.amountPaid (base g)
            == foldl (λ sum o, sum + Order.amountPaid o) 0 (items g))%Q
         ∧ (∃ first rest,
              items g = first :: rest
              ∧ Order.paymentStatus (base g) = Order.paymentStatus first
              ∧ Order.shippingStatus (base g) = Order.shippingStatus first
              ∧ Order.paymentMethod (base g) = Order.paymentMethod first
              ∧ Order.referenceNumber (base g) = Order.referenceNumber first
              ∧ Order.createdAt (base g) = Order.createdAt first)
         ∧ keepGroup orderFilter g = true)
      ∧ NoDup ((λ g, Order.customerUsername (base g)) <$> groups)
      ∧ Sorted (λ a b, Order.createdAt (base b) <= Order.createdAt (base a))
               groups
      ∧ (orderFilter ≠ "Unpaid" → orderFilter ≠ "Paid" →
         ∀ o, o ∈ allOrders → Order.sessionId o = LiveSession.id s →
              ∃ g, g ∈ groups ∧ o ∈ items g)
  | None =>
      ∃ o, o ∈ allOrders ∧ Order.sessionId o = LiveSession.id s
           ∧ Order.customerUsername o ∈ Obj.inherited
  end.
Proof.
  pose proof (filteredOrdersBy_cases
                (λ a b, bool_decide
                          (Order.createdAt (base b) - Order.createdAt (base a) < 0))
                allOrders customers s orderFilter) as Hcases.
  unfold filteredOrders.
  destruct (filteredOrdersBy _ allOrders customers (Some s) orderFilter)
    as [groups|].
  - destruct Hcases as (Hown & Hgroups & Hnd & Hsorted & Hall).
    { intros x y Hxy. apply bool_decide_eq_true in Hxy.
      apply bool_decide_eq_false. lia. }
    split_and!; try done.
    eapply Sorted_weaken; [|exact Hsorted].
    intros a b Hab. simpl in Hab. apply bool_decide_eq_false in Hab. lia.
  - apply Hcases. intros x y Hxy. apply bool_decide_eq_true in Hxy.
    apply bool_decide_eq_false. lia.
Qed.

Lemma shownIn_cases (allOrders : list Order.t) (customers : list Customer.t)
    (s : LiveSession.t) (orderFilter : string) (g : GroupedOrder) :
  shownIn allOrders customers s orderFilter g →
  (∀ o, o ∈ allOrders → Order.sessionId o = LiveSession.id s →
        Order.customerUsername o ∉ Obj.inherited)
  ∧ items g
    = filter (λ o, Order.sessionId o = LiveSession.id s
                   ∧ Order.customerUsername o
                     = Order.customerUsername (base g)) allOrders
  ∧ ids g = Order.id <$> items g
  ∧ Order.quantity (base g)
    = foldl (λ sum o, sum + Order.quantity o) 0 (items g)
  ∧ (Order.totalPrice (base g)
     == foldl (λ sum o, sum + Order.totalPrice o) 0 (items g))%Q
  ∧ (Order.amountPaid (base g)
     == foldl (λ sum o, sum + Order.amountPaid o) 0 (items g))%Q
  ∧ (∃ first rest,
       items g = first :: rest
       ∧ Order.paymentStatus (base g) = Order.paymentStatus first
       ∧ Order.shippingStatus (base g) = Order.shippingStatus first
       ∧ Order.paymentMethod (base g) = Order.paymentMethod first
       ∧ Order.referenceNumber (base g) = Order.referenceNumber first
       ∧ Order.createdAt (base g) = Order.createdAt first)
  ∧ keepGroup orderFilter g = true.
Proof.
  intros (groups & Hsome & Hg).
  pose proof (filteredOrders_cases allOrders customers s orderFilter) as Hcases.
  rewrite Hsome in Hcases. destruct Hcases as (Hown & Hgroups & _).
  split; [done|]. by apply Hgroups.
Qed.

Lemma shownIn_all (allOrders : list Order.t) (customers : list Customer.t)
    (s : LiveSession.t) (o : Order.t) :
  (∀ o, o ∈ allOrders → Order.sessionId o = LiveSession.id s →
        Order.customerUsername o ∉ Obj.inherited) →
  o ∈ allOrders → Order.sessionId o = LiveSession.id s →
  ∃ g, shownIn allOrders customers s "All" g ∧ o ∈ items g.
Proof.
  intros Hown Ho Hs.
  pose proof (filteredOrders_cases allOrders customers s "All") as Hcases.
  destruct (filteredOrders allOrders customers (Some s) "All")
    as [groups|] eqn:Hsome.
  - destruct Hcases as (_ & _ & _ & _ & Hall).
    destruct (Hall ltac:(discriminate) ltac:(discriminate) o Ho Hs)
      as (g & Hg & Hin).
    exists g. split; [|done]. by exists groups.
  - destruct Hcases as (o' & Ho' & Hs' & Hbad). by destruct (Hown o' Ho' Hs').
Qed.

(** The Orders view fails to group the orders of the selected session
    exactly when one of them bears as username a property name that
    objects inherit.  Otherwise it shows one group per customer that
    passes the filter: its rows are the orders of that customer in the
    session, in stored order; its ids are their ids; its quantity, total
    and amount paid are their sums; its payment status, shipping status,
    payment method, reference number and time are those of the first row,
    so that the filter looks at the first row only; the groups come newest
    first; without a filter every order of the session is in a group.
    Without a selected session nothing is shown. *)
Theorem filteredOrders_groups (allOrders : list Order.t)
    (customers : list Customer.t) (s : LiveSession.t) (orderFilter : string) :
  let shown := filteredOrders allOrders customers (Some s) orderFilter in
  (shown = None
   ↔ ∃ o, o ∈ allOrders ∧ Order.sessionId o = LiveSession.id s
          ∧ Order.customerUsername o ∈ Obj.inherited)
  ∧ (∀ groups, shown = Some groups →
      (∀ g, g ∈ groups →
         items g
         = filter (λ o, Order.sessionId o = LiveSession.id s
                        ∧ Order.customerUsername o
                          = Order.customerUsername (base g)) allOrders
         ∧ ids g = Order.id <$> items g
         ∧ Order.quantity (base g)
           = foldl (λ sum o, sum + Order.quantity o) 0 (items g)
         ∧ (Order.totalPrice (base g)
            == foldl (λ sum o, sum + Order.totalPrice o) 0 (items g))%Q
         ∧ (Order.amountPaid (base g)
            == foldl (λ sum o, sum + Order.amountPaid o) 0 (items g))%Q
         ∧ (∃ first rest,
              items g = first :: rest
              ∧ Order.paymentStatus (base g) = Order.paymentStatus first
              ∧ Order.shippingStatus (base g) = Order.shippingStatus first
              ∧ Order.paymentMethod (base g) = Order.paymentMethod first
              ∧ Order.referenceNumber (base g) = Order.referenceNumber first
              ∧ Order.createdAt (base g) = Order.createdAt first)
         ∧ keepGroup orderFilter g = true)
      ∧ NoDup ((λ g, Order.customerUsername (base g)) <$> groups)
      ∧ Sorted (λ a b, Order.createdAt (base b) <= Order.createdAt (base a))
               groups
      ∧ (orderFilter ≠ "Unpaid" → orderFilter ≠ "Paid" →
         ∀ o, o ∈ allOrders → Order.sessionId o = LiveSession.id s →
              ∃ g, g ∈ groups ∧ o ∈ items g))
  ∧ filteredOrders allOrders customers None orderFilter = Some [].
Proof.
  intros shown. subst shown.
  pose proof (filteredOrders_cases allOrders customers s orderFilter) as Hcases.
  destruct (filteredOrders allOrders customers (Some s) orderFilter)
    as [groups|].
  - destruct Hcases as (Hown & Hrest). split_and!; [|by intros ? [= <-]|done].
    split; [done|]. intros (o & Ho & Hs & Hbad). by destruct (Hown o Ho Hs).
  - split_and!; [done|done|done].
Qed.

Lemma filteredOrders_groups_witness :
  ∃ groups,
    filteredOrders [item100; item400] INITIAL_CUSTOMERS (Some liveSession) "All"
    = Some groups
    ∧ (λ g, (Order.customerUsername (base g), ids g, Order.quantity (base g)))
        <$> groups
      = [("dogmom_ph", ["o1"; "o2"], 3)]
    ∧ ∃ g, g ∈ groups ∧ item400 ∈ items g.
Proof.
  eexists. split; [reflexivity|]. split; [reflexivity|].
  destruct (filteredOrders_groups [item100; item400] INITIAL_CUSTOMERS
              liveSession "All") as (_ & Hgroups & _).
  destruct (Hgroups _ eq_refl) as (_ & _ & _ & Hall).
  apply (Hall ltac:(discriminate) ltac:(discriminate) item400); [|reflexivity].
  apply list_elem_of_further, list_elem_of_here.
Defined.

(** ** Saving a grouped edit *)

Lemma foldl_Qplus_Permutation {A} (f : A → Q) (l l' : list A) :
  l ≡ₚ l' →
  (foldl (λ sum x, sum + f x) 0 l == foldl (λ sum x, sum + f x) 0 l')%Q.
Proof.
  induction 1 as [|x l l' _ IH|x y l|l l' l'' _ IH1 _ IH2].
  - done.
  - by rewrite !foldl_Qplus_cons, IH.
  - rewrite !foldl_Qplus_cons. lra.
  - by rewrite IH1.
Qed.

Lemma filter_ext_elem {A} (P Q : A → Prop)
    `{!∀ x, Decision (P x)} `{!∀ x, Decision (Q x)} (l : list A) :
  (∀ x, x ∈ l → (P x ↔ Q x)) → filter P l = filter Q l.
Proof.
  induction l as [|x l IH]; intros HPQ; [done|].
  rewrite !filter_cons.
  rewrite IH by (intros y Hy; apply HPQ; by apply list_elem_of_further).
  destruct (decide (P x)) as [HP|HP], (decide (Q x)) as [HQ|HQ]; try done.
  - exfalso. apply HQ. by apply (HPQ x (list_elem_of_here _ _)).
  - exfalso. apply HP. by apply (HPQ x (list_elem_of_here _ _)).
Qed.

Lemma filter_sublist_keys {A} (f : A → string) (l1 l2 : list A) :
  NoDup (f <$> l2) → l1 `sublist_of` l2 →
  filter (λ x, f x ∈ f <$> l1) l2 = l1.
Proof.
  intros Hnd Hsub. induction Hsub as [|x l1 l2 Hsub IH|x l1 l2 Hsub IH].
  - done.
  - rewrite fmap_cons in Hnd. apply NoDup_cons in Hnd as [Hx Hnd].
    rewrite filter_cons_True by (rewrite fmap_cons; apply list_elem_of_here).
    f_equal. rewrite (filter_ext_elem _ (λ y, f y ∈ f <$> l1) l2); [by apply IH|].
    intros y Hy. rewrite fmap_cons, elem_of_cons.
    split; [|by right]. intros [Heq|?]; [|done].
    exfalso. apply Hx. rewrite <-Heq. by apply list_elem_of_fmap_2.
  - rewrite fmap_cons in Hnd. apply NoDup_cons in Hnd as [Hx Hnd].
    rewrite filter_cons_False; [by apply IH|].
    intros Hin. apply Hx.
    eapply elem_of_sublist; [exact Hin|]. by apply fmap_sublist.
Qed.

Section SavedEdit.
Context (updated : GroupedOrder) (newLog : option string).

Lemma handleUpdate_length (l : list string) (s : Store) :
  length (getOrders
            (foldl (λ s id,
                      match list_find (λ o, Order.id o = id) (getOrders s) with
                      | Some (_, original) =>
                          updateOrder (updatedRow updated newLog original) s
                      | None => s
                      end) s l))
  = length (getOrders s).
Proof.
  revert s. induction l as [|id l IH]; intros s; [done|].
  simpl. rewrite IH, (step_orders updated newLog s id).
  destruct (list_find _ (getOrders s)) as [[i o]|]; [|done].
  by rewrite length_insert.
Qed.

(** The stored orders once the edit is saved: every row of the group is
    rewritten, every other row is kept. *)
Lemma handleUpdate_orders (st : Store) :
  NoDup (Order.id <$> getOrders st) →
  NoDup (ids updated) →
  getOrders (handleUpdate updated newLog st)
  = (λ o, if decide (Order.id o ∈ ids updated)
          then updatedRow updated newLog o else o) <$> getOrders st.
Proof.
  intros Hnd Hids. apply list_eq. intros i.
  rewrite list_lookup_fmap. unfold handleUpdate.
  destruct (getOrders st !! i) as [o|] eqn:Hi; simpl.
  - destruct (decide (Order.id o ∈ ids updated)) as [Hin|Hout].
    + apply (loop_updates_row updated newLog _ st (Order.id o) i o Hids Hin).
      by apply (list_find_unique_key Order.id).
    + by apply loop_keeps_row.
  - apply lookup_ge_None. rewrite handleUpdate_length.
    by apply lookup_ge_None.
Qed.
End SavedEdit.

(** The rows of a saved group. *)
Lemma handleUpdate_group_rows (updated : GroupedOrder)
    (newLog : option string) (st : Store) :
  NoDup (Order.id <$> getOrders st) →
  items updated `sublist_of` getOrders st →
  ids updated = Order.id <$> items updated →
  filter (λ o, Order.id o ∈ ids updated)
         (getOrders (handleUpdate updated newLog st))
  = updatedRow updated newLog <$> items updated.
Proof.
  intros Hnd Hsub Hids.
  assert (NoDup (ids updated)) as Hnd'.
  { rewrite Hids. eapply sublist_NoDup; [exact Hnd|]. by apply fmap_sublist. }
  rewrite (handleUpdate_orders updated newLog st Hnd Hnd').
  trans (updatedRow updated newLog
           <$> filter (λ o, Order.id o ∈ ids updated) (getOrders st)).
  - clear. induction (getOrders st) as [|o l IH]; [done|].
    rewrite fmap_cons, !filter_cons.
    destruct (decide (Order.id o ∈ ids updated)) as [Hin|Hout]; simpl.
    + destruct (decide (Order.id o ∈ ids updated)); [|done]. by f_equal.
    + by destruct (decide (Order.id o ∈ ids updated)).
  - rewrite Hids.
    by rewrite (filter_sublist_keys Order.id (items updated) (getOrders st)).
Qed.




(** ** From the form of the Orders view to the stored rows and back *)

Lemma filter_fmap_preserved {A} (P : A → Prop) `{!∀ x, Decision (P x)}
    (F : A → A) (l : list A) :
  (∀ x, P (F x) ↔ P x) → filter P (F <$> l) = F <$> filter P l.
Proof.
  intros HP. induction l as [|x l IH]; [done|].
  rewrite fmap_cons, !filter_cons, IH.
  destruct (decide (P x)) as [Hx|Hx].
  - by rewrite decide_True by (by apply HP).
  - by rewrite decide_False by (by rewrite HP).
Qed.

Lemma foldl_fmap_sum {A B} (h : A → B) (g : B → Q) (f : A → Q)
    (l : list A) (a : Q) :
  (∀ x, g (h x) = f x) →
  foldl (λ sum y, sum + g y)%Q a (h <$> l) = foldl (λ sum x, sum + f x)%Q a l.
Proof.
  intros Hgh. revert a. induction l as [|x l IH]; intros a; [done|].
  simpl. by rewrite Hgh, IH.
Qed.

Section Regroup.
Context (st : Store) (customers : list Customer.t) (s : LiveSession.t).
Context (orderFilter : string) (g fd : GroupedOrder) (newLog : option string).

Hypothesis distinct : NoDup (Order.id <$> getOrders st).
Hypothesis shown :
  shownIn (getOrders st) customers s orderFilter g.
Hypothesis same_ids : ids fd = ids g.
Hypothesis same_items : items fd = items g.

Lemma regroup_after_save :
  ∃ g', shownIn (getOrders (handleUpdate fd newLog st)) customers s "All" g'
        ∧ Order.customerUsername (base g') = Order.customerUsername (base g)
        ∧ items g' = updatedRow fd newLog <$> items g
        ∧ ids g' = ids g
        ∧ Order.paymentStatus (base g') = Order.paymentStatus (base fd)
        ∧ Order.shippingStatus (base g') = Order.shippingStatus (base fd)
        ∧ Order.referenceNumber (base g') = Order.referenceNumber (base fd)
        ∧ (Order.totalPrice (base g') == Order.totalPrice (base g))%Q
        ∧ (Order.amountPaid (base g')
           == revenue (filter (λ o, Order.id o ∈ ids fd)
                              (getOrders (handleUpdate fd newLog st))))%Q.
Proof.
  destruct (shownIn_cases _ _ _ _ _ shown)
    as (Hown & Hitems & Hids & _ & Hp & _ & (first & rest & Hfirst & _) & _).
  set (u := Order.customerUsername (base g)) in *.
  assert (items fd `sublist_of` getOrders st) as Hsub.
  { rewrite same_items, Hitems. apply sublist_filter. }
  assert (ids fd = Order.id <$> items fd) as Hids'.
  { by rewrite same_ids, same_items. }
  pose proof (handleUpdate_group_rows fd newLog st distinct Hsub Hids')
    as Hrows.
  assert (NoDup (ids fd)) as Hnd.
  { rewrite Hids'. eapply sublist_NoDup; [exact distinct|]. by apply fmap_sublist. }
  pose proof (handleUpdate_orders fd newLog st distinct Hnd) as Horders.
  set (st' := handleUpdate fd newLog st) in *.
  assert (filter (λ o, Order.sessionId o = LiveSession.id s
                       ∧ Order.customerUsername o = u) (getOrders st')
          = updatedRow fd newLog <$> items g) as Hsession.
  { rewrite Horders, filter_fmap_preserved.
    - rewrite <-Hitems. apply list_fmap_ext. intros i o Hi.
      rewrite decide_True; [done|].
      rewrite same_ids, Hids. apply list_elem_of_fmap_2.
      by eapply list_elem_of_lookup_2.
    - intros o. by destruct (decide (Order.id o ∈ ids fd)). }
  assert (∀ o, o ∈ getOrders st' → Order.sessionId o = LiveSession.id s →
               Order.customerUsername o ∉ Obj.inherited) as Hown'.
  { intros o Ho Hs. rewrite Horders in Ho.
    apply list_elem_of_fmap in Ho as (o0 & -> & Ho0).
    destruct (decide (Order.id o0 ∈ ids fd)); exact (Hown o0 Ho0 Hs). }
  assert (updatedRow fd newLog first ∈ getOrders st') as Hfirst'.
  { assert (updatedRow fd newLog first ∈ updatedRow fd newLog <$> items g) as Hin.
    { apply list_elem_of_fmap_2. rewrite Hfirst. apply list_elem_of_here. }
    rewrite <-Hsession in Hin. by apply list_elem_of_filter in Hin as [_ ?]. }
  assert (first ∈ items g) as Hfirst_in by (rewrite Hfirst; apply list_elem_of_here).
  rewrite Hitems in Hfirst_in. apply list_elem_of_filter in Hfirst_in as [[Hfs Hfu] _].
  destruct (shownIn_all (getOrders st') customers s
              (updatedRow fd newLog first) Hown' Hfirst' Hfs) as (g' & Hg' & Hin').
  destruct (shownIn_cases _ _ _ _ _ Hg')
    as (_ & Hitems' & Hids'' & _ & Hp' & Ha'
        & (first' & rest' & Hfirst'' & Hps & Hss & _ & Hrn & _) & _).
  assert (Order.customerUsername (base g') = u) as Hu'.
  { rewrite Hitems' in Hin'. apply list_elem_of_filter in Hin' as [[_ Hu'] _].
    by rewrite <-Hu'. }
  rewrite Hu', Hsession in Hitems'.
  assert (first' = updatedRow fd newLog first) as ->.
  { rewrite Hitems', Hfirst, fmap_cons in Hfirst''. by injection Hfirst''. }
  exists g'. split_and!; try done.
  - rewrite Hids'', Hitems', <-list_fmap_compose, Hids.
    by apply list_fmap_ext.
  - rewrite Hp', Hitems', Hp.
    by rewrite (foldl_fmap_sum (updatedRow fd newLog) Order.totalPrice
                  Order.totalPrice).
  - rewrite Ha', Hitems', Hrows, same_items. done.
Qed.
End Regroup.



Lemma changeSet_untouched `{NumberToString} (g : GroupedOrder) :
  changeSet g (initialFormData g)
  = if decide (Some (default "" (truthy (Order.referenceNumber (base g))))
               ≠ Order.referenceNumber (base g))
    then [("Ref", default "None" (truthy (Order.referenceNumber (base g))),
           default "" (truthy (Order.referenceNumber (base g))))]
    else [].
Proof.
  unfold changeSet. simpl.
  destruct (decide (Order.paymentStatus (base g) ≠ Order.paymentStatus (base g)))
    as [|_]; [done|].
  destruct (decide (Order.shippingStatus (base g)
                    ≠ Order.shippingStatus (base g))) as [|_]; [done|].
  match goal with
  | |- context [decide (¬ (?a == ?b)%Q)] =>
      destruct (decide (¬ (a == b)%Q)) as [Hne|_]
  end.
  - exfalso. apply Hne.
    destruct (decide (Order.amountPaid (base g) == 0)%Q) as [Hz|_];
      [by rewrite Hz|done].
  - done.
Qed.

(** Saving the form of a group without touching it writes no log line
    when the group has a reference number, also an empty one; when it has
    none, the untouched form already differs from the order and the line
    [Ref: None -> ] is written.  After that first save the group carries
    the empty reference number, so that a second untouched save writes
    nothing. *)
Theorem untouched_form_log `{NumberToString} (st : Store)
    (customers : list Customer.t) (s : LiveSession.t) (orderFilter : string)
    (g : GroupedOrder) (dateStr dateStr' : string) :
  NoDup (Order.id <$> getOrders st) →
  shownIn (getOrders st) customers s orderFilter g →
  let saved := handleSaveClick dateStr g (initialFormData g) in
  (is_Some (Order.referenceNumber (base g)) → saved.2 = None)
  ∧ (Order.referenceNumber (base g) = None →
     saved.2 = Some ("[" +:+ dateStr +:+ "] Ref: None -> "))
  ∧ ∃ g', shownIn (getOrders (handleUpdate saved.1 saved.2 st))
                  customers s "All" g'
          ∧ Order.customerUsername (base g') = Order.customerUsername (base g)
          ∧ ids g' = ids g
          ∧ (handleSaveClick dateStr' g' (initialFormData g')).2 = None.
Proof.
  intros Hnd Hg saved. subst saved. unfold handleSaveClick. simpl.
  split_and!.
  - intros [r Hr]. rewrite changeSet_untouched, Hr. unfold truthy.
    repeat (match goal with
            | |- context [decide ?P] => destruct (decide P)
            end; simplify_eq/=); done.
  - intros Hr. rewrite changeSet_untouched, Hr. simpl.
    repeat (match goal with
            | |- context [decide ?P] => destruct (decide P)
            end; simplify_eq/=); done.
  - destruct (regroup_after_save st customers s orderFilter g (initialFormData g)
                (logString dateStr (changeText <$> changeSet g (initialFormData g)))
                Hnd Hg eq_refl eq_refl)
      as (g' & Hg' & Hu & _ & Hids & _ & _ & Hrn & _).
    exists g'. split_and!; try done.
    rewrite changeSet_untouched, Hrn. simpl. unfold truthy.
    destruct (Order.referenceNumber (base g)) as [r|]; simpl;
      repeat (match goal with
              | |- context [decide ?P] => destruct (decide P)
              end; simplify_eq/=); try done; exfalso; congruence.
Qed.

Lemma untouched_form_log_witness :
  NoDup (Order.id <$> getOrders twoItemStore)
  ∧ ∃ g, filteredOrders (getOrders twoItemStore) INITIAL_CUSTOMERS
           (Some liveSession) "All" = Some [g]
       ∧ Order.referenceNumber (base g) = None
       ∧ (@handleSaveClick wholeNumberToString savedAt g (initialFormData g)).2
         = Some "[11/2/2026 01:45 PM] Ref: None -> ".
Proof.
  assert (NoDup (Order.id <$> getOrders twoItemStore)) as Hnd.
  { apply (bool_decide_unpack _). vm_compute. exact I. }
  split; [exact Hnd|].
  eexists. split; [reflexivity|]. split; [reflexivity|].
  match goal with
  | |- context [handleSaveClick _ ?g _] =>
      destruct (@untouched_form_log wholeNumberToString twoItemStore
                  INITIAL_CUSTOMERS liveSession "All" g savedAt savedAt Hnd)
        as (_ & Hnone & _)
  end.
  - eexists. split; [reflexivity|apply list_elem_of_here].
  - by rewrite Hnone.
Defined.

(** ** From a checkout back to the cart *)





Section EditRoundTrip.
Context `{NumberToString}.
Context (now : N) (ui : LiveSell) (sessionId : string) (customer : Customer.t).



End EditRoundTrip.





(** ** Blacklisting a customer *)



(** ** Order Management: ranks and deletion *)

Lemma deleteIds_orders (l : list string) (st : Store) :
  getOrders (foldl (λ s id, deleteOrder id s) st l)
  = filter (λ o, Order.id o ∉ l) (getOrders st).
Proof.
  revert st. induction l as [|id l IH]; intros st.
  - simpl. symmetry. induction (getOrders st) as [|x k IHk]; [done|].
    rewrite filter_cons_True; [by rewrite IHk | apply not_elem_of_nil].
  - simpl. rewrite IH, deleteOrder_orders, list_filter_filter.
    apply list_filter_iff. intros x. rewrite not_elem_of_cons. tauto.
Qed.

Section GroupLookup.
Context (customers : list Customer.t).

(** The group of a customer depends on the orders of that customer only. *)
Lemma groupOrders_get (l : list Order.t) (k : string)
    (G : list (string * GroupedOrder)) :
  groupOrders customers l = Some G →
  ∃ G', groupOrders customers (filter (λ o, Order.customerUsername o = k) l)
        = Some G'
        ∧ Obj.get G' k = Obj.get G k.
Proof.
  revert G. induction l as [|o l IH] using rev_ind; intros G HG.
  - exists []. split; [done|]. by injection HG as <-.
  - rewrite groupOrders_snoc in HG.
    destruct (groupOrders customers l) as [G0|]; [|done]. simpl in HG.
    destruct (IH G0 eq_refl) as (G0' & HG0' & Hget0).
    rewrite filter_app, filter_cons, filter_nil.
    destruct (decide (Order.customerUsername o = k)) as [Hk|Hk].
    + rewrite groupOrders_snoc, HG0'. simpl. rewrite Hk in *. rewrite Hget0.
      destruct (Obj.get G0 k) as [g|].
      * injection HG as <-. eexists. split; [done|].
        by rewrite !Obj_get_set_same.
      * destruct (decide (k ∈ Obj.inherited)); [done|].
        injection HG as <-. eexists. split; [done|].
        by rewrite !Obj_get_set_same.
    + rewrite app_nil_r. exists G0'. split; [done|]. rewrite Hget0.
      destruct (Obj.get G0 (Order.customerUsername o)) as [g|].
      * injection HG as <-. by rewrite Obj_get_set_other by done.
      * destruct (decide (Order.customerUsername o ∈ Obj.inherited)); [done|].
        injection HG as <-. by rewrite Obj_get_set_other by done.
Qed.

Lemma groupOrders_get_ext (l l' : list Order.t) (k : string)
    (G G' : list (string * GroupedOrder)) :
  groupOrders customers l = Some G → groupOrders customers l' = Some G' →
  filter (λ o, Order.customerUsername o = k) l
  = filter (λ o, Order.customerUsername o = k) l' →
  Obj.get G k = Obj.get G' k.
Proof.
  intros HG HG' Hsame.
  destruct (groupOrders_get l k G HG) as (G1 & HG1 & <-).
  destruct (groupOrders_get l' k G' HG') as (G2 & HG2 & <-).
  rewrite Hsame in HG1. congruence.
Qed.

(** The groups that are values of the object built from [l]. *)
Lemma groupOrders_values (l : list Order.t) (G : list (string * GroupedOrder))
    (g : GroupedOrder) :
  groupOrders customers l = Some G →
  g ∈ Obj.values G ↔ Obj.get G (Order.customerUsername (base g)) = Some g.
Proof.
  intros HG. pose proof (groupOrders_inv customers l) as Hinv.
  rewrite HG in Hinv. destruct Hinv as (_ & Hnd & _ & Hgroups).
  unfold Obj.values. split.
  - intros Hg. apply list_elem_of_fmap in Hg as ([k g'] & -> & Hin). simpl.
    rewrite Obj_entries_Permutation in Hin.
    destruct (Hgroups k g' Hin) as (-> & _). by apply Obj_get_Some.
  - intros Hget. apply Obj_get_elem_of in Hget.
    apply list_elem_of_fmap. exists (Order.customerUsername (base g), g).
    split; [done|]. by rewrite Obj_entries_Permutation.
Qed.
End GroupLookup.

(** Deleting a group in Order Management, in a store whose order ids are
    distinct: the orders of the customer of the group in the selected
    session leave the store, and every other order stays; the screen then
    shows the groups it showed before except the deleted one, each with
    the same content.  The target is cleared.  Without a target nothing is
    deleted. *)
Theorem handleDelete_removes_group (st : Store) (customers : list Customer.t)
    (s : LiveSession.t) (orderFilter : string) (groups : list GroupedOrder)
    (g : GroupedOrder) :
  NoDup (Order.id <$> getOrders st) →
  OrderManagement.filteredOrders (getOrders st) customers (Some s) orderFilter
  = Some groups →
  g ∈ groups →
  let r := OrderManagement.handleDelete (Some g) st in
  r.2 = None
  ∧ getOrders r.1
    = filter (λ o, ¬ (Order.sessionId o = LiveSession.id s
                      ∧ Order.customerUsername o
                        = Order.customerUsername (base g)))
             (getOrders st)
  ∧ (∃ groups',
       OrderManagement.filteredOrders (getOrders r.1) customers (Some s)
                                      orderFilter = Some groups'
       ∧ ∀ g', g' ∈ groups'
               ↔ g' ∈ groups
                 ∧ Order.customerUsername (base g')
                   ≠ Order.customerUsername (base g))
  ∧ OrderManagement.handleDelete None st = (st, None).
Proof.
  intros Hnd Hshown Hg r. subst r. simpl.
  unfold OrderManagement.filteredOrders, filteredOrdersBy in *.
  set (so := filter (λ o, Order.sessionId o = LiveSession.id s) (getOrders st))
    in *.
  destruct (groupOrders customers so) as [G|] eqn:HG; [|done].
  simpl in Hshown. injection Hshown as <-.
  pose proof (groupOrders_inv customers so) as Hinv. rewrite HG in Hinv.
  destruct Hinv as (Hown & HndG & Hkeys & Hgroups).
  set (u := Order.customerUsername (base g)) in *.
  rewrite stableSort_Permutation in Hg.
  apply list_elem_of_filter in Hg as [Hkeep Hg].
  apply (groupOrders_values customers so G g HG) in Hg. fold u in Hg.
  destruct (Hgroups u g (Obj_get_elem_of _ _ _ Hg)) as (_ & Hitems & Hids & _).
  assert (getOrders (foldl (λ s0 id, deleteOrder id s0) st (ids g))
          = filter (λ o, ¬ (Order.sessionId o = LiveSession.id s
                            ∧ Order.customerUsername o = u)) (getOrders st))
    as Horders.
  { rewrite deleteIds_orders. apply filter_ext_elem. intros o Ho.
    rewrite Hids, Hitems.
    assert (Order.id o ∈ Order.id <$> filter (λ o, Order.customerUsername o = u) so
            ↔ Order.sessionId o = LiveSession.id s
              ∧ Order.customerUsername o = u) as Hiff; [|by rewrite Hiff].
    split.
    - intros Hin. apply list_elem_of_fmap in Hin as (o' & Hid & Ho').
      apply list_elem_of_filter in Ho' as [Hu Ho'].
      apply list_elem_of_filter in Ho' as [Hs Ho'].
      assert (o = o') as ->; [|done].
      apply list_elem_of_lookup in Ho as [i Hi].
      apply list_elem_of_lookup in Ho' as [i' Hi'].
      assert (i = i') as ->; [|congruence].
      eapply NoDup_lookup; [exact Hnd| |].
      + by rewrite list_lookup_fmap, Hi.
      + by rewrite list_lookup_fmap, Hi'; simpl; rewrite Hid.
    - intros [Hs Hu]. apply list_elem_of_fmap_2.
      apply list_elem_of_filter. split; [done|].
      by apply list_elem_of_filter. }
  split; [done|]. split; [done|]. split; [|done].
  rewrite Horders.
  set (so' := filter (λ o, Order.sessionId o = LiveSession.id s)
                (filter (λ o, ¬ (Order.sessionId o = LiveSession.id s
                                 ∧ Order.customerUsername o = u))
                        (getOrders st))).
  assert (so' = filter (λ o, Order.customerUsername o ≠ u) so) as Hso'.
  { unfold so', so. rewrite !list_filter_filter. apply list_filter_iff.
    intros o. tauto. }
  pose proof (groupOrders_inv customers so') as Hinv'.
  destruct (groupOrders customers so') as [G'|] eqn:HG'.
  2:{ destruct Hinv' as (o & Ho & Hbad). rewrite Hso' in Ho.
      apply list_elem_of_filter in Ho as [_ Ho]. by destruct (Hown o Ho). }
  destruct Hinv' as (_ & _ & Hkeys' & _).
  simpl. eexists. split; [done|].
  intros g'. rewrite !stableSort_Permutation, !list_elem_of_filter.
  rewrite (groupOrders_values customers so' G' g' HG').
  rewrite (groupOrders_values customers so G g' HG).
  set (k := Order.customerUsername (base g')).
  destruct (decide (k = u)) as [Hk|Hk].
  - split; [|tauto]. intros [_ Hget]. exfalso.
    assert (k ∈ fst <$> G') as Hin.
    { apply Obj_get_is_Some. by eexists. }
    apply Hkeys' in Hin. apply list_elem_of_fmap in Hin as (o & Ho & Hin).
    rewrite Hso' in Hin. apply list_elem_of_filter in Hin as [Hne _].
    congruence.
  - assert (Obj.get G' k = Obj.get G k) as ->; [|tauto].
    apply (groupOrders_get_ext customers so' so k G' G HG' HG).
    rewrite Hso', list_filter_filter. apply list_filter_iff.
    intros o. split; [tauto|]. intros Ho. split; [done|congruence].
Qed.

Lemma handleDelete_removes_group_witness :
  NoDup (Order.id <$> getOrders twoItemStore)
  ∧ ∃ g, OrderManagement.filteredOrders (getOrders twoItemStore)
           INITIAL_CUSTOMERS (Some liveSession) "All" = Some [g]
       ∧ getOrders (OrderManagement.handleDelete (Some g) twoItemStore).1 = []
       ∧ OrderManagement.filteredOrders
           (getOrders (OrderManagement.handleDelete (Some g) twoItemStore).1)
           INITIAL_CUSTOMERS (Some liveSession) "All" = Some [].
Proof.
  assert (NoDup (Order.id <$> getOrders twoItemStore)) as Hnd.
  { apply (bool_decide_unpack _). vm_compute. exact I. }
  split; [exact Hnd|].
  eexists. split; [reflexivity|].
  match goal with
  | |- context [OrderManagement.handleDelete (Some ?g) _] =>
      destruct (handleDelete_removes_group twoItemStore INITIAL_CUSTOMERS
                  liveSession "All" [g] g Hnd eq_refl (list_elem_of_here _ _))
        as (_ & Horders & (groups' & Hshown & Hgroups) & _)
  end.
  split.
  - etrans; [exact Horders|]. reflexivity.
  - rewrite Hshown. f_equal.
    destruct groups' as [|g' rest]; [done|].
    destruct (proj1 (Hgroups g') (list_elem_of_here _ _)) as [Hin Hne].
    apply list_elem_of_singleton in Hin. by subst g'.
Defined.

Lemma StronglySorted_pairs {A} (R : A → A → Prop) (l : list A) (i j : nat)
    (a b : A) :
  StronglySorted R l → (i < j)%nat → l !! i = Some a → l !! j = Some b → R a b.
Proof.
  intros Hsorted. revert i j.
  induction Hsorted as [|x l Hl IH Hall]; intros i j Hij Hi Hj; [done|].
  destruct j as [|j]; [lia|]. simpl in Hj.
  destruct i as [|i]; simpl in Hi.
  - injection Hi as <-. rewrite Forall_forall in Hall.
    apply Hall. by eapply list_elem_of_lookup_2.
  - apply (IH i j); [lia|done|done].
Qed.

(** The Order Management screen shows the groups of the first Orders
    screen, and fails when that one fails, but in another order: groups
    that are not fully paid come first, then the paid ones, then those
    paid and shipped, and within each of these ranks a newer group comes
    before an older one. *)
Theorem orderManagement_ranked (allOrders : list Order.t)
    (customers : list Customer.t) (s : LiveSession.t) (orderFilter : string) :
  match OrderManagement.filteredOrders allOrders customers (Some s) orderFilter,
        filteredOrders allOrders customers (Some s) orderFilter with
  | Some ranked, Some byTime =>
      ranked ≡ₚ byTime
      ∧ ∀ i j a b,
          (i < j)%nat → ranked !! i = Some a → ranked !! j = Some b →
          OrderManagement.getRank a <= OrderManagement.getRank b
          ∧ (OrderManagement.getRank a = OrderManagement.getRank b →
             Order.createdAt (base b) <= Order.createdAt (base a))
  | None, None => True
  | _, _ => False
  end.
Proof.
  pose proof (filteredOrdersBy_cases
                (λ a b, bool_decide (OrderManagement.compare a b < 0))
                allOrders customers s orderFilter) as Hcases.
  unfold OrderManagement.filteredOrders, filteredOrders.
  unfold filteredOrdersBy in *.
  destruct (groupOrders customers _) as [G|]; simpl in *; [|done].
  split; [by rewrite !stableSort_Permutation|].
  destruct Hcases as (_ & _ & _ & Hsorted & _).
  { intros x y Hxy. apply bool_decide_eq_true in Hxy.
    apply bool_decide_eq_false. unfold OrderManagement.compare in *.
    destruct (decide (OrderManagement.getRank x ≠ OrderManagement.getRank y)),
             (decide (OrderManagement.getRank y ≠ OrderManagement.getRank x));
      lia. }
  intros i j a b Hij Hi Hj.
  set (R := λ a b : GroupedOrder,
         OrderManagement.getRank a < OrderManagement.getRank b
         ∨ (OrderManagement.getRank a = OrderManagement.getRank b
            ∧ Order.createdAt (base b) <= Order.createdAt (base a))).
  assert (R a b) as [Hlt|[Heq Hle]]; [|lia|by split; [lia|]].
  eapply (StronglySorted_pairs R); [|exact Hij|exact Hi|exact Hj].
  apply Sorted_StronglySorted.
  { intros x y z [Hxy|[Hxy Hxy']] [Hyz|[Hyz Hyz']]; unfold R; lia. }
  eapply Sorted_weaken; [|exact Hsorted].
  intros x y Hxy. simpl in Hxy. apply bool_decide_eq_false in Hxy.
  unfold OrderManagement.compare in Hxy. unfold R.
  destruct (decide (OrderManagement.getRank y ≠ OrderManagement.getRank x));
    lia.
Qed.

(** ** Expense categories and the history of transactions *)

Section Categories.
Context `{StringOrder} `{Trim}.

Lemma getExpenseCategories_elem (c : string) (l : Ledger) :
  c ∈ getExpenseCategories l ↔ c ∈ default defaultCategories (CATEGORIES l).
Proof. unfold getExpenseCategories. by rewrite stableSort_Permutation. Qed.

Lemma addExpenseCategory_new (c : string) (l : Ledger) :
  c ∉ getExpenseCategories l → trim c ≠ "" →
  addExpenseCategory c l
  = setExpenseCategories (getExpenseCategories l ++ [c]) l.
Proof.
  intros Hnew Hc. unfold addExpenseCategory.
  by destruct (decide ((c ∉ getExpenseCategories l) ∧ trim c ≠ "")) as [_|[]].
Qed.

Lemma addExpenseCategory_old (c : string) (l : Ledger) :
  c ∈ getExpenseCategories l ∨ trim c = "" → addExpenseCategory c l = l.
Proof.
  intros Hold. unfold addExpenseCategory.
  destruct (decide ((c ∉ getExpenseCategories l) ∧ trim c ≠ ""))
    as [[Hnew Hc]|_]; [|done].
  by destruct Hold.
Qed.

Lemma addExpenseCategory_categories (c : string) (l : Ledger) :
  c ∉ getExpenseCategories l → trim c ≠ "" →
  getExpenseCategories (addExpenseCategory c l) ≡ₚ c :: getExpenseCategories l.
Proof.
  intros Hnew Hc. rewrite addExpenseCategory_new by done.
  unfold getExpenseCategories at 1. simpl.
  rewrite !stableSort_Permutation. by rewrite <-Permutation_cons_append.
Qed.

Lemma addExpenseCategory_kept (c c' : string) (l : Ledger) :
  c' ∈ getExpenseCategories l →
  c' ∈ getExpenseCategories (addExpenseCategory c l).
Proof.
  intros Hc'.
  destruct (decide ((c ∉ getExpenseCategories l) ∧ trim c ≠ ""))
    as [[Hnew Hc]|Hold].
  - rewrite (addExpenseCategory_categories c l Hnew Hc).
    by apply list_elem_of_further.
  - rewrite addExpenseCategory_old; [done|].
    destruct (decide (c ∈ getExpenseCategories l)); [by left|].
    destruct (decide (trim c = "")); [by right|]. by destruct Hold.
Qed.

Lemma addExpenseCategory_transactions (c : string) (l : Ledger) :
  TRANSACTIONS (addExpenseCategory c l) = TRANSACTIONS l.
Proof.
  unfold addExpenseCategory.
  by destruct (decide ((c ∉ getExpenseCategories l) ∧ trim c ≠ "")).
Qed.
End Categories.

(** [addExpenseCategory] stores a category that is new and not blank
    beside the ones listed before, none of which is lost; it writes
    nothing for a category that is listed already or that is blank, so
    that adding twice is adding once and a list without repetition stays
    so.  What [getExpenseCategories] lists is in the host's order of
    strings. *)
Theorem addExpenseCategory_keeps_categories `{StringOrder} `{Trim}
    (c : string) (l : Ledger) :
  let l' := addExpenseCategory c l in
  (c ∈ getExpenseCategories l ∨ trim c = "" → l' = l)
  ∧ (c ∉ getExpenseCategories l → trim c ≠ "" →
     getExpenseCategories l' ≡ₚ c :: getExpenseCategories l)
  ∧ (∀ c', c' ∈ getExpenseCategories l → c' ∈ getExpenseCategories l')
  ∧ (NoDup (getExpenseCategories l) → NoDup (getExpenseCategories l'))
  ∧ addExpenseCategory c l' = l'
  ∧ TRANSACTIONS l' = TRANSACTIONS l
  ∧ ((∀ x y, stringBefore x y = true → stringBefore y x = false) →
     Sorted (λ a b, stringBefore b a = false) (getExpenseCategories l')).
Proof.
  intros l'. subst l'.
  destruct (decide ((c ∉ getExpenseCategories l) ∧ trim c ≠ ""))
    as [[Hnew Hc]|Hold].
  - pose proof (addExpenseCategory_categories c l Hnew Hc) as Hperm.
    split_and!.
    + intros [?|?]; done.
    + done.
    + intros c'. apply addExpenseCategory_kept.
    + intros Hnd. rewrite Hperm. by apply NoDup_cons.
    + apply addExpenseCategory_old. left. rewrite Hperm.
      apply list_elem_of_here.
    + by rewrite addExpenseCategory_new.
    + intros Hasym. by apply stableSort_Sorted.
  - assert (addExpenseCategory c l = l) as ->.
    { apply addExpenseCategory_old.
      destruct (decide (c ∈ getExpenseCategories l)); [by left|].
      destruct (decide (trim c = "")); [by right|]. by destruct Hold. }
    split_and!; try done.
    + intros Hnew Hc. by destruct Hold.
    + apply addExpenseCategory_old.
      destruct (decide (c ∈ getExpenseCategories l)); [by left|].
      destruct (decide (trim c = "")); [by right|]. by destruct Hold.
    + intros Hasym. by apply stableSort_Sorted.
Qed.

Lemma addExpenseCategory_keeps_categories_witness :
  ("Treats" ∉ @getExpenseCategories codeBefore emptyLedger)
  ∧ @getExpenseCategories codeBefore
      (@addExpenseCategory codeBefore trimSpaces "Treats" emptyLedger)
    = ["Capital"; "Inventory Restock"; "Loan"; "Miscellaneous"; "Packaging";
       "Personal Withdrawal"; "Rent"; "Salary"; "Shipping Fee"; "Treats";
       "Utilities"]
  ∧ @addExpenseCategory codeBefore trimSpaces "  " emptyLedger = emptyLedger.
Proof.
  destruct (@addExpenseCategory_keeps_categories codeBefore trimSpaces
              "  " emptyLedger) as (Hblank & _).
  split; [|split; [reflexivity|]].
  - apply (bool_decide_unpack _). by vm_compute.
  - apply Hblank. by right.
Defined.

(** A transaction saved in the Accounting view is stored after the
    earlier ones and heads the history, under no filter and under the
    filter of its own category; under the filter of another category the
    history is as before.  Its category is listed from then on unless it
    is blank, beside all categories listed before, and the modal is
    closed.  The expenses grow by its amount when it is an expense, and
    not otherwise. *)
Theorem handleAddTx_heads_history `{StringOrder} `{Trim} (tx : Transaction.t)
    (l : Ledger) (ui : Accounting) :
  let r := handleAddTx tx l ui in
  getTransactions r.2 = getTransactions l ++ [tx]
  ∧ (∀ f, filteredTransactions (getTransactions r.2) f
          = if decide (f = "All" ∨ Transaction.category tx = f)
            then tx :: filteredTransactions (getTransactions l) f
            else filteredTransactions (getTransactions l) f)
  ∧ categories r.1 = getExpenseCategories r.2
  ∧ (trim (Transaction.category tx) ≠ "" →
     Transaction.category tx ∈ categories r.1)
  ∧ (∀ c, c ∈ getExpenseCategories l → c ∈ categories r.1)
  ∧ showTxModal r.1 = false
  ∧ categoryFilter r.1 = categoryFilter ui
  ∧ (expenses (getTransactions r.2)
     == expenses (getTransactions l)
        + if decide (Transaction.type tx = Transaction.Expense)
          then Transaction.amount tx else 0)%Q.
Proof.
  intros r. subst r. unfold handleAddTx. simpl.
  set (l1 := addTransaction tx l).
  pose proof (addExpenseCategory_categories (Transaction.category tx) l1)
    as Hnew.
  pose proof (λ c', addExpenseCategory_kept (Transaction.category tx) c' l1)
    as Hkept.
  pose proof (addExpenseCategory_transactions (Transaction.category tx) l1)
    as Htx.
  assert (getTransactions (addExpenseCategory (Transaction.category tx) l1)
          = getTransactions l ++ [tx]) as Htxs.
  { unfold getTransactions at 1. by rewrite Htx. }
  rewrite Htxs.
  split; [done|]. split.
  { intros f. unfold filteredTransactions. rewrite reverse_app. simpl.
    destruct (decide (f ≠ "All")) as [Hf|Hf].
    - rewrite filter_cons.
      destruct (decide (Transaction.category tx = f)) as [Hc|Hc].
      + by destruct (decide (f = "All" ∨ Transaction.category tx = f))
          as [_|[]]; [|right].
      + by destruct (decide (f = "All" ∨ Transaction.category tx = f))
          as [[?|?]|_].
    - destruct (decide (f = "All" ∨ Transaction.category tx = f))
        as [_|Hno]; [done|].
      exfalso. apply Hno. left. by destruct (decide (f = "All")). }
  split; [done|]. split.
  { intros Hc.
    destruct (decide (Transaction.category tx ∈ getExpenseCategories l1))
      as [Hin|Hout].
    - by apply Hkept.
    - rewrite (Hnew Hout Hc). apply list_elem_of_here. }
  split.
  { intros c Hc. apply Hkept.
    apply getExpenseCategories_elem. by apply getExpenseCategories_elem in Hc. }
  split; [done|]. split; [done|].
  unfold expenses. rewrite filter_app, foldl_Qplus_app, filter_cons, filter_nil.
  destruct (decide (Transaction.type tx = Transaction.Expense)); simpl; lra.
Qed.

(** ** The customers listed in the session orders modal *)

Lemma countOrder_fold (l : list Order.t) (g : SessionGroup.t) :
  let r := foldl SessionOrders.countOrder g l in
  SessionGroup.username r = SessionGroup.username g
  ∧ SessionGroup.count r
    = SessionGroup.count g + foldl (λ sum o, sum + Order.quantity o) 0 l
  ∧ (SessionGroup.total r
     == SessionGroup.total g + foldl (λ sum o, sum + Order.totalPrice o) 0 l)%Q
  ∧ (SessionGroup.lastTime g <= SessionGroup.lastTime r
     ∧ (∀ o, o ∈ l → Order.createdAt o <= SessionGroup.lastTime r)
     ∧ (SessionGroup.lastTime r = SessionGroup.lastTime g
        ∨ ∃ o, o ∈ l ∧ Order.createdAt o = SessionGroup.lastTime r))
  ∧ (SessionGroup.usedVip r = true
     ↔ SessionGroup.usedVip g = true
       ∨ Exists (λ o, Order.usedVipTicket o = Some true) l)
  ∧ ((length (SessionGroup.items g) ≤ 5)%nat →
     SessionGroup.items r
     = take 5 (SessionGroup.items g
               ++ ((λ o, SessionOrders.withoutLiveItem (Order.productName o))
                     <$> l)))
  ∧ SessionGroup.refNumber r
    = match last (omap (λ o, truthy (Order.referenceNumber o)) l) with
      | Some x => Some x
      | None => SessionGroup.refNumber g
      end.
Proof.
  induction l as [|o l IH] using rev_ind.
  - simpl. split_and!.
    + done.
    + lia.
    + lra.
    + lia.
    + intros o Ho. by apply elem_of_nil in Ho.
    + by left.
    + split; [by left|]. intros [?|Hex]; [done|]. by apply Exists_nil in Hex.
    + intros Hlen. rewrite app_nil_r. by rewrite take_ge.
    + done.
  - rewrite foldl_app. cbn [foldl].
    destruct IH as (Hu & Hc & Ht & (Hle & Hall & Hmax) & Hv & Hi & Hr).
    set (r := foldl SessionOrders.countOrder g l) in *.
    cbn [SessionOrders.countOrder SessionGroup.username SessionGroup.count
         SessionGroup.total SessionGroup.lastTime SessionGroup.usedVip
         SessionGroup.items SessionGroup.refNumber].
    split_and!.
    + done.
    + rewrite foldl_app. simpl. lia.
    + rewrite foldl_Qplus_app. simpl. rewrite Ht. lra.
    + lia.
    + intros o' Ho'. apply elem_of_app in Ho' as [Ho'|Ho'].
      * specialize (Hall o' Ho'). lia.
      * apply list_elem_of_singleton in Ho'. subst o'. lia.
    + destruct (Z.max_spec (SessionGroup.lastTime r) (Order.createdAt o))
        as [[Hlt ->]|[Hge ->]].
      * right. exists o. split; [|done]. rewrite elem_of_app. right.
        apply list_elem_of_here.
      * destruct Hmax as [Hmax|(o' & Ho' & Hmax)]; [by left|].
        right. exists o'. split; [|done]. rewrite elem_of_app. by left.
    + rewrite Exists_app, Exists_cons, Exists_nil.
      destruct (decide (Order.usedVipTicket o = Some true)) as [Hused|Hnot].
      * split; [|done]. intros _. right. right. by left.
      * rewrite Hv. split; [tauto|]. intros [?|[?|[?|[]]]]; tauto.
    + intros Hlen. specialize (Hi Hlen). rewrite Hi.
      rewrite fmap_app, app_assoc. simpl.
      set (X := SessionGroup.items g
                ++ ((λ o, SessionOrders.withoutLiveItem (Order.productName o))
                      <$> l)).
      destruct (decide (length (take 5 X) < 5)%nat) as [Hshort|Hfull].
      * rewrite length_take in Hshort.
        assert (length X < 5)%nat as HX by lia.
        rewrite (take_ge X) by lia.
        rewrite take_ge; [done|]. rewrite length_app. simpl. lia.
      * rewrite length_take in Hfull.
        rewrite take_app_le by lia. done.
    + rewrite omap_app, Hr. simpl.
      destruct (truthy (Order.referenceNumber o)) as [x|]; simpl.
      * by rewrite last_snoc.
      * by rewrite app_nil_r.
Qed.

Lemma entries_snoc (l : list Order.t) (o : Order.t) :
  SessionOrders.entries (l ++ [o])
  = g ← SessionOrders.entries l;
    let u := Order.customerUsername o in
    match Obj.get g u with
    | Some e => Some (Obj.set u (SessionOrders.countOrder e o) g)
    | None =>
        if decide (u ∈ Obj.inherited) then None
        else Some (Obj.set u (SessionOrders.countOrder
                                (SessionOrders.newEntry o) o) g)
    end.
Proof. unfold SessionOrders.entries. by rewrite foldl_app. Qed.

Lemma entries_inv (l : list Order.t) :
  match SessionOrders.entries l with
  | Some G =>
      (∀ o, o ∈ l → Order.customerUsername o ∉ Obj.inherited)
      ∧ NoDup (fst <$> G)
      ∧ (∀ k, k ∈ fst <$> G ↔ k ∈ Order.customerUsername <$> l)
      ∧ (∀ k g, (k, g) ∈ G →
           ∃ first rest,
             filter (λ o, Order.customerUsername o = k) l = first :: rest
             ∧ g = foldl SessionOrders.countOrder
                         (SessionOrders.newEntry first) (first :: rest))
  | None => ∃ o, o ∈ l ∧ Order.customerUsername o ∈ Obj.inherited
  end.
Proof.
  induction l as [|o l IH] using rev_ind.
  - simpl. split_and!; [|apply NoDup_nil_2|done|].
    + intros o Ho. by apply elem_of_nil in Ho.
    + intros k g Hin. by apply elem_of_nil in Hin.
  - rewrite entries_snoc.
    destruct (SessionOrders.entries l) as [G|]; simpl.
    2:{ destruct IH as (o' & Ho' & Hbad). exists o'.
        split; [|done]. rewrite elem_of_app. by left. }
    destruct IH as (Hown & Hnd & Hkeys & Hentries).
    set (key := Order.customerUsername o).
    assert (∀ k, k ∈ Order.customerUsername <$> l ++ [o]
                 ↔ k ∈ Order.customerUsername <$> l ∨ k = key) as Hsnoc.
    { intros k. rewrite fmap_app, elem_of_app. simpl.
      by rewrite list_elem_of_singleton. }
    assert (∀ k g, k ≠ key →
              (∃ first rest,
                 filter (λ o, Order.customerUsername o = k) l = first :: rest
                 ∧ g = foldl SessionOrders.countOrder
                             (SessionOrders.newEntry first) (first :: rest)) →
              ∃ first rest,
                filter (λ o, Order.customerUsername o = k) (l ++ [o])
                = first :: rest
                ∧ g = foldl SessionOrders.countOrder
                            (SessionOrders.newEntry first) (first :: rest))
      as Hother.
    { intros k g Hk (first & rest & Hmine & Hg). exists first, rest.
      split; [|done].
      rewrite filter_app, filter_cons_False, filter_nil by (by intros ?).
      by rewrite app_nil_r. }
    destruct (Obj.get G key) as [e|] eqn:Hget.
    + pose proof (Obj_get_elem_of _ _ _ Hget) as Hin.
      assert (key ∈ fst <$> G) as Hkey.
      { apply list_elem_of_fmap. by exists (key, e). }
      split_and!.
      * intros o' Ho'. apply elem_of_app in Ho' as [Ho'|Ho'];
          [by apply Hown|].
        apply list_elem_of_singleton in Ho'. subst o'.
        apply Hkeys in Hkey.
        apply list_elem_of_fmap in Hkey as (o' & Heq & Ho').
        fold key. rewrite Heq. by apply Hown.
      * by apply Obj_NoDup_set.
      * intros k. rewrite Obj_keys_set, decide_True by done.
        rewrite Hsnoc, (Hkeys k). split; [by left|].
        intros [? | ->]; [done|]. by apply Hkeys.
      * intros k g' Hin'.
        apply Obj_elem_of_set in Hin' as [ [-> ->] | [Hne Hin'] ]; [| |done].
        -- destruct (Hentries key e Hin) as (first & rest & Hmine & ->).
           exists first, (rest ++ [o]). split.
           ++ rewrite filter_app, filter_cons_True, filter_nil by done.
              by rewrite Hmine.
           ++ change (first :: rest ++ [o]) with ((first :: rest) ++ [o]).
              by rewrite foldl_app.
        -- apply Hother; [done|]. by apply Hentries.
    + assert (key ∉ fst <$> G) as Hkey.
      { intros Hin. apply Obj_get_is_Some in Hin as [? Hin]. congruence. }
      destruct (decide (key ∈ Obj.inherited)) as [Hbad|Hgood].
      { exists o. split; [|done]. rewrite elem_of_app. right.
        apply list_elem_of_here. }
      split_and!.
      * intros o' Ho'. apply elem_of_app in Ho' as [Ho'|Ho'];
          [by apply Hown|].
        apply list_elem_of_singleton in Ho'. by subst o'.
      * by apply Obj_NoDup_set.
      * intros k. rewrite Obj_keys_set, decide_False by done.
        rewrite Hsnoc, elem_of_app, list_elem_of_singleton. by rewrite (Hkeys k).
      * intros k g' Hin'.
        apply Obj_elem_of_set in Hin' as [ [-> ->] | [Hne Hin'] ]; [| |done].
        -- exists o, []. split; [|done].
           rewrite filter_app, filter_cons_True, filter_nil by done.
           rewrite (filter_none _ l); [done|].
           intros x Hx Hu. apply Hkey, Hkeys. rewrite <-Hu.
           by apply list_elem_of_fmap_2.
        -- apply Hother; [done|]. by apply Hentries.
Qed.

(** The list of the session orders modal fails to build exactly when an
    order of the session bears as username a property name that objects
    inherit.  Otherwise it has one entry per customer of the session, and
    for each entry: the count and the total are the sums over the orders
    of that customer in the session; the time is that of the latest of
    them; the ticket mark is set exactly when one of them used a ticket,
    which is when deleting or editing them returns a ticket; the items
    are the product names of the first five of them, without the words
    Live Item; the reference number is the last one among them that is
    not empty.  The entries come latest first. *)
Theorem sessionOrders_groups (sessionId : string) (st : Store) :
  match SessionOrders.groups sessionId st with
  | Some gs =>
      (∀ o, o ∈ getOrders st → Order.sessionId o = sessionId →
            (Order.customerUsername o ∉ Obj.inherited)
            ∧ ∃ g, g ∈ gs ∧ SessionGroup.username g = Order.customerUsername o)
      ∧ NoDup (SessionGroup.username <$> gs)
      ∧ (∀ g, g ∈ gs →
           let mine := sessionOrdersOf sessionId (SessionGroup.username g) st in
           mine ≠ []
           ∧ SessionGroup.count g
             = foldl (λ sum o, sum + Order.quantity o) 0 mine
           ∧ (SessionGroup.total g
              == foldl (λ sum o, sum + Order.totalPrice o) 0 mine)%Q
           ∧ (∀ o, o ∈ mine → Order.createdAt o <= SessionGroup.lastTime g)
           ∧ (∃ o, o ∈ mine ∧ Order.createdAt o = SessionGroup.lastTime g)
           ∧ SessionGroup.usedVip g = someUsedVipTicket mine
           ∧ SessionGroup.items g
             = take 5 ((λ o, SessionOrders.withoutLiveItem (Order.productName o))
                         <$> mine)
           ∧ SessionGroup.refNumber g
             = last (omap (λ o, truthy (Order.referenceNumber o)) mine))
      ∧ (∀ i j a b,
           (i < j)%nat → gs !! i = Some a → gs !! j = Some b →
           SessionGroup.lastTime b <= SessionGroup.lastTime a)
  | None =>
      ∃ o, o ∈ getOrders st ∧ Order.sessionId o = sessionId
           ∧ Order.customerUsername o ∈ Obj.inherited
  end.
Proof.
  unfold SessionOrders.groups.
  pose proof (entries_inv (SessionOrders.orders sessionId st)) as Hinv.
  destruct (SessionOrders.entries (SessionOrders.orders sessionId st))
    as [G|]; simpl.
  2:{ destruct Hinv as (o & Ho & Hbad).
      apply list_elem_of_filter in Ho as [Hs Ho]. by exists o. }
  destruct Hinv as (Hown & Hnd & Hkeys & Hentries).
  set (before := λ a b : SessionGroup.t,
         bool_decide (SessionGroup.lastTime b - SessionGroup.lastTime a < 0)).
  assert (∀ k g, (k, g) ∈ G → SessionGroup.username g = k) as Hname.
  { intros k g Hin. destruct (Hentries k g Hin) as (first & rest & Hmine & ->).
    destruct (countOrder_fold (first :: rest) (SessionOrders.newEntry first))
      as (-> & _).
    simpl.
    assert (first ∈ filter (λ o, Order.customerUsername o = k)
                      (SessionOrders.orders sessionId st)) as Hin'.
    { rewrite Hmine. apply list_elem_of_here. }
    by apply list_elem_of_filter in Hin' as [? _]. }
  assert (∀ g, g ∈ Obj.values G → (SessionGroup.username g, g) ∈ G) as Hvalue.
  { intros g Hg. unfold Obj.values in Hg.
    apply list_elem_of_fmap in Hg as ([k g'] & -> & Hin). simpl.
    rewrite Obj_entries_Permutation in Hin.
    by rewrite (Hname k g' Hin). }
  split_and!.
  - intros o Ho Hs.
    assert (o ∈ SessionOrders.orders sessionId st) as Hin.
    { by apply list_elem_of_filter. }
    split; [by apply Hown|].
    assert (Order.customerUsername o ∈ fst <$> G) as Hkey.
    { apply Hkeys. by apply list_elem_of_fmap_2. }
    apply list_elem_of_fmap in Hkey as ([k g] & Hk & Hg). simpl in Hk. subst k.
    exists g. split; [|by apply (Hname _ _ Hg)].
    rewrite stableSort_Permutation. unfold Obj.values.
    apply list_elem_of_fmap. exists (Order.customerUsername o, g).
    split; [done|]. by rewrite Obj_entries_Permutation.
  - rewrite stableSort_Permutation.
    unfold Obj.values. rewrite <-list_fmap_compose.
    rewrite (list_fmap_ext _ fst (Obj.entries G)).
    + by rewrite Obj_entries_Permutation.
    + intros i [k g] Hi. simpl.
      apply list_elem_of_lookup_2 in Hi. rewrite Obj_entries_Permutation in Hi.
      by apply Hname.
  - intros g Hg. rewrite stableSort_Permutation in Hg.
    apply Hvalue in Hg.
    destruct (Hentries _ g Hg) as (first & rest & Hmine & Hfold).
    assert (sessionOrdersOf sessionId (SessionGroup.username g) st
            = first :: rest) as Hmine'.
    { rewrite <-Hmine. unfold sessionOrdersOf, SessionOrders.orders.
      rewrite list_filter_filter. apply list_filter_iff. tauto. }
    rewrite Hmine'.
    destruct (countOrder_fold (first :: rest) (SessionOrders.newEntry first))
      as (_ & Hc & Ht & (Hle & Hall & Hmax) & Hv & Hi & Hr).
    rewrite <-Hfold in Hc, Ht, Hle, Hall, Hmax, Hv, Hi, Hr.
    simpl in Hc, Ht, Hle, Hmax, Hv, Hi, Hr.
    split_and!.
    + done.
    + rewrite Hc. simpl. lia.
    + rewrite Ht. simpl. lra.
    + done.
    + destruct Hmax as [Hmax|Hmax]; [|done].
      exists first. split; [apply list_elem_of_here|done].
    + unfold someUsedVipTicket.
      destruct (SessionGroup.usedVip g) eqn:Hused.
      * symmetry. apply bool_decide_eq_true.
        destruct (proj1 Hv eq_refl) as [?|?]; done.
      * symmetry. apply bool_decide_eq_false. intros Hex.
        assert (false = true) as Habs by (apply Hv; by right). done.
    + apply Hi. lia.
    + rewrite Hr. by destruct (last _).
  - intros i j a b Hij Hi Hj.
    set (R := λ a b : SessionGroup.t,
           SessionGroup.lastTime b <= SessionGroup.lastTime a).
    change (R a b).
    eapply (StronglySorted_pairs R); [|exact Hij|exact Hi|exact Hj].
    apply Sorted_StronglySorted.
    { intros x y z Hxy Hyz. unfold R in *. lia. }
    eapply Sorted_weaken; [|apply (stableSort_Sorted before)].
    + intros x y Hxy. simpl in Hxy. unfold before in Hxy.
      apply bool_decide_eq_false in Hxy. unfold R. lia.
    + intros x y Hxy. unfold before in *.
      apply bool_decide_eq_true in Hxy. apply bool_decide_eq_false. lia.
Qed.

(** ** The cards of the bales and the selling screen *)




